(** * unique-photos: the photo branding pipeline

    A shallow embedding of the two request handlers of the repository,
    [process_photos] of [src/app.py] (photos fetched from and stored to the
    blob store) and [upload] of
    [src/CascadeProjects/windsurf-project/app.py] (photos uploaded with the
    request and stored in the processed folder), with the Pillow operations
    they call, of [generate_image] and of [load_font], and the properties
    of the compositing pipeline and of the handlers. *)

From Stdlib Require Import ZArith QArith Qround Qabs Qfield Floats Uint63 Lia Bool.
From Stdlib Require Import Strings.String Strings.Ascii.
From stdpp Require Import base option list gmap strings pretty.

Set Warnings "-inexact-float".
Local Open Scope string_scope.
Local Open Scope list_scope.
Local Open Scope Z_scope.

(* ===================================================================== *)
(** * Python numbers and strings *)
(* ===================================================================== *)

Module Py.

(** [float(n)] for a Python int in the range of a machine word. *)
Definition float_of_int (n : Z) : float :=
  PrimFloat.of_uint63 (Uint63.of_Z n).

(** [int(f)]: truncation toward zero of a binary64 value.  A finite
    float is [m * 2^e]; infinities and NaN make Python raise and do not
    arise from the products below. *)
Definition int (f : float) : Z :=
  match Prim2SF f with
  | S754_finite s m e =>
      let mag := match e with
                 | Z0 => Zpos m
                 | Zpos p => Z.shiftl (Zpos m) (Zpos p)
                 | Zneg p => Z.shiftr (Zpos m) (Zpos p)
                 end in
      if s then - mag else mag
  | _ => 0
  end.

(** [int(n * c)] with [n] an int and [c] a float literal: the int is
    converted, the product is one IEEE-754 binary64 multiplication. *)
Definition int_mul (n : Z) (c : float) : Z :=
  int (PrimFloat.mul (float_of_int n) c).

(** [round(q)] of Python 3 on an exact value: to the nearest integer,
    ties to the even one. *)
Definition round (q : Q) : Z :=
  let lo := Qfloor q in
  let frac := (q - inject_Z lo)%Q in
  match (frac ?= 1 # 2)%Q with
  | Lt => lo
  | Gt => lo + 1
  | Eq => if Z.even lo then lo else lo + 1
  end.

(** [s.startswith(sub)]. *)
Fixpoint startswith (s sub : string) {struct sub} : bool :=
  match sub with
  | EmptyString => true
  | String c sub' =>
      match s with
      | EmptyString => false
      | String d s' => Ascii.eqb c d && startswith s' sub'
      end
  end.

(** [sub in s] for strings: [sub] occurs in [s]. *)
Fixpoint contains (sub s : string) : bool :=
  startswith s sub ||
  match s with
  | EmptyString => false
  | String _ s' => contains sub s'
  end.

(** [s.split(sep)[0]] for a one-character separator: the characters
    before the first occurrence of [sep], all of [s] if there is none. *)
Fixpoint split_head (sep : ascii) (s : string) : string :=
  match s with
  | EmptyString => EmptyString
  | String c s' => if Ascii.eqb c sep then EmptyString
                   else String c (split_head sep s')
  end.

(** [sep in s] for a one-character [sep]. *)
Fixpoint has_char (sep : ascii) (s : string) : bool :=
  match s with
  | EmptyString => false
  | String c s' => Ascii.eqb c sep || has_char sep s'
  end.

(** [any(d in s for d in domains)]. *)
Definition any_in (domains : list string) (s : string) : bool :=
  existsb (fun d => contains d s) domains.

Definition lower_char (c : ascii) : ascii :=
  let n := nat_of_ascii c in
  if (65 <=? n)%nat && (n <=? 90)%nat then ascii_of_nat (n + 32) else c.

(** [s.lower()] on ASCII text. *)
Fixpoint lower (s : string) : string :=
  match s with
  | EmptyString => EmptyString
  | String c s' => String (lower_char c) (lower s')
  end.

(** [s.endswith(suffix)]. *)
Definition endswith (s suffix : string) : bool :=
  let n := String.length s in
  let k := String.length suffix in
  (k <=? n)%nat && String.eqb (String.substring (n - k) k s) suffix.

Definition is_space (c : ascii) : bool :=
  let n := nat_of_ascii c in
  ((9 <=? n)%nat && (n <=? 13)%nat) || ((28 <=? n)%nat && (n <=? 32)%nat).

Fixpoint lstrip (s : string) : string :=
  match s with
  | EmptyString => EmptyString
  | String c s' => if is_space c then lstrip s' else s
  end.

(** [s.strip()]. *)
Definition strip (s : string) : string :=
  String.rev (lstrip (String.rev (lstrip s))).

(** Truth value of a string: non-empty. *)
Definition truthy (s : string) : bool :=
  match s with EmptyString => false | _ => true end.

(** [s.rfind(c)] as the position after which [c] does not occur again. *)
Fixpoint rfind (c : ascii) (s : string) : option nat :=
  match s with
  | EmptyString => None
  | String a s' =>
      match rfind c s' with
      | Some i => Some (S i)
      | None => if Ascii.eqb a c then Some O else None
      end
  end.

(** Whether some character of [s] at a position in [[lo, hi)] differs
    from the dot: the scan of [genericpath._splitext] over the leading
    dots of the file name. *)
Fixpoint non_dot_between (s : string) (lo hi : nat) : bool :=
  match s, hi with
  | EmptyString, _ | _, O => false
  | String a s', S hi' =>
      match lo with
      | O => negb (Ascii.eqb a ".") || non_dot_between s' O hi'
      | S lo' => non_dot_between s' lo' hi'
      end
  end.

(** [os.path.splitext(p)] of posixpath: the extension starts at the last
    dot of the last path component, unless only dots precede it there. *)
Definition splitext (p : string) : string * string :=
  let file_start := match rfind "/" p with Some i => S i | None => O end in
  match rfind "." p with
  | Some dot =>
      if (file_start <=? dot)%nat && non_dot_between p file_start dot
      then (String.substring 0 dot p,
            String.substring dot (String.length p - dot) p)
      else (p, "")
  | None => (p, "")
  end.

(** [s.rsplit('.', 1)[1]] when [s] has a dot. *)
Definition after_last_dot (s : string) : string :=
  match rfind "." s with
  | Some dot => String.substring (S dot) (String.length s - S dot) s
  | None => ""
  end.

End Py.

(* ===================================================================== *)
(** * Pillow rasters *)
(* ===================================================================== *)

Module PIL.

(** An RGBA pixel, four 8-bit channels. *)
Record pixel := RGBA { red : Z; green : Z; blue : Z; alpha : Z }.

Definition white : pixel := RGBA 255 255 255 255.

(** A raster in mode RGBA: its size and its pixel at each coordinate
    (only coordinates inside the size are meaningful). *)
Record Image := mkImage { width : Z; height : Z; getpixel : Z -> Z -> pixel }.

(** A single-band image (mode L) of the size of the image it was split
    from. *)
Definition band := Z -> Z -> Z.

Definition size (im : Image) : Z * Z := (width im, height im).

(** [Image.new('RGBA', size, color)]. *)
Definition new (size : Z * Z) (color : pixel) : Image :=
  mkImage (fst size) (snd size) (fun _ _ => color).

(** Pillow's [DIV255] and [BLEND8] (ImagingUtils.h): the rounded
    division by 255 and the 8-bit blend of [in1] and [in2] by [mask]. *)
Definition DIV255 (a : Z) : Z :=
  let tmp := a + 128 in Z.shiftr (Z.shiftr tmp 8 + tmp) 8.

Definition BLEND8 (mask in1 in2 : Z) : Z :=
  DIV255 (in1 * (255 - mask) + in2 * mask).

(** One pixel of [paste_mask_RGBA] (Paste.c): every channel of the
    target, alpha included, is blended with the source by the alpha of
    the mask. *)
Definition blend_pixel (mask : Z) (out inp : pixel) : pixel :=
  RGBA (BLEND8 mask (red out) (red inp))
       (BLEND8 mask (green out) (green inp))
       (BLEND8 mask (blue out) (blue inp))
       (BLEND8 mask (alpha out) (alpha inp)).

(** Whether [(x, y)] lies in the rectangle of the given size at
    [(x0, y0)]. *)
Definition in_rect (x0 y0 w h x y : Z) : bool :=
  (x0 <=? x) && (x <? x0 + w) && (y0 <=? y) && (y <? y0 + h).

(** [self.paste(im, box, mask)] with a two-coordinate [box] and an RGBA
    [mask]: the region of [im] placed at [box], clipped to [self]. *)
Definition paste (self im : Image) (box : Z * Z) (mask : Image) : Image :=
  let '(x0, y0) := box in
  mkImage (width self) (height self)
    (fun x y =>
       if in_rect x0 y0 (width im) (height im) x y
          && in_rect 0 0 (width self) (height self) x y
       then blend_pixel (alpha (getpixel mask (x - x0) (y - y0)))
                        (getpixel self x y) (getpixel im (x - x0) (y - y0))
       else getpixel self x y).

(** [self.split()[3]]: the alpha band. *)
Definition getalpha (self : Image) : band :=
  fun x y => alpha (getpixel self x y).

(** [band.point(f)]: the lookup table of [f] applied to every value. *)
Definition point (b : band) (f : Z -> Z) : band :=
  fun x y => f (b x y).

(** [self.putalpha(b)]. *)
Definition putalpha (self : Image) (b : band) : Image :=
  mkImage (width self) (height self)
    (fun x y => let p := getpixel self x y in
                RGBA (red p) (green p) (blue p) (b x y)).

(** [self.convert('RGB')]: the alpha channel is dropped; a three-band
    pixel is kept as an opaque one. *)
Definition convert_RGB (self : Image) : Image :=
  mkImage (width self) (height self)
    (fun x y => let p := getpixel self x y in
                RGBA (red p) (green p) (blue p) 255).

(** [round_aspect] of [Image.thumbnail]:
    [max(min(floor(number), ceil(number), key=key), 1)]. *)
Definition round_aspect (number : Q) (key : Z -> Q) : Z :=
  let lo := Qfloor number in
  let hi := Qceiling number in
  Z.max (if Qle_bool (key lo) (key hi) then lo else hi) 1.

(** [preserve_aspect_ratio] of [Image.thumbnail].  The outer [None] is a
    division by zero; the inner [None] is the function returning [None]
    (the image fits the requested size already).  The quotients are
    taken exactly. *)
Definition preserve_aspect_ratio (self : Image) (provided_size : Z * Z)
  : option (option (Z * Z)) :=
  let '(x, y) := provided_size in
  if (x >=? width self) && (y >=? height self) then Some None
  else if height self =? 0 then None
  else
    let aspect := (inject_Z (width self) / inject_Z (height self))%Q in
    if y =? 0 then None
    else if Qle_bool aspect (inject_Z x / inject_Z y)
    then Some (Some (round_aspect (inject_Z y * aspect)
                       (fun n => Qabs (aspect - inject_Z n / inject_Z y)), y))
    else if width self =? 0 then None
    else Some (Some (x, round_aspect (inject_Z x / aspect)
                       (fun n => if n =? 0 then 0%Q
                                 else Qabs (aspect - inject_Z x / inject_Z n)))).

Section Resampling.
(** The resampling filter: the pixels of an image resized to a size. *)
Variable filter : Image -> Z * Z -> Z -> Z -> pixel.

(** [self.resize(size, filter)]; a size with an empty side is
    rejected. *)
Definition resize (self : Image) (size : Z * Z) : option Image :=
  if (fst size <? 1) || (snd size <? 1) then None
  else Some (mkImage (fst size) (snd size) (filter self size)).

(** [self.thumbnail(size, filter)], as the image [self] becomes;
    [None] when it raises. *)
Definition thumbnail (self : Image) (requested : Z * Z) : option Image :=
  match preserve_aspect_ratio self requested with
  | None => None
  | Some None => Some self
  | Some (Some new_size) =>
      if (fst new_size =? width self) && (snd new_size =? height self)
      then Some self
      else resize self new_size
  end.
End Resampling.

End PIL.

(* ===================================================================== *)
(** * The collaborators of the handlers *)
(* ===================================================================== *)

Definition bytes := string.

Inductive format := PNG | JPEG (quality : Z).

(** What the handlers consume and do not implement: the codec, the font
    renderer, the resampling filter, the QR encoder, werkzeug's
    [secure_filename], the HTTP client and the process environment. *)
Class Collaborators := {
  font : Type;
  (** [ImageFont.truetype(candidate, size)] of the first usable candidate,
      else the default font. *)
  load_font : Z -> font;
  (** [draw.textbbox((0, 0), text, font=font)]. *)
  textbbox : string -> font -> Z * Z * Z * Z;
  (** [draw.text(xy, text, font=font, fill=(0, 0, 0, 255))]: the pixels of
      the image drawn on, [None] when rendering raises. *)
  draw_text : PIL.Image -> Z * Z -> string -> font -> option (Z -> Z -> PIL.pixel);
  (** [Image.LANCZOS]. *)
  LANCZOS : PIL.Image -> Z * Z -> Z -> Z -> PIL.pixel;
  (** [Image.open(data)], then [ImageOps.exif_transpose] when the flag is
      set, then [convert('RGBA')]; [None] when one of them raises. *)
  image_open : bool -> bytes -> option PIL.Image;
  (** [im.save(target, format, quality=...)]. *)
  image_save : format -> PIL.Image -> option bytes;
  (** [qrcode.QRCode(...)], [add_data], [make], [make_image]. *)
  make_qr : string -> option PIL.Image;
  secure_filename : string -> string;
  (** [requests.get(url)]: the content of a response of status 200. *)
  requests_get : string -> option bytes;
  (** [requests.put] to the blob store: the [url] of a response of status
      200. *)
  requests_put : string -> string -> bytes -> option string;
  IS_VERCEL : bool;
  BLOB_READ_WRITE_TOKEN : string
}.

(* ===================================================================== *)
(** * State and exceptions *)
(* ===================================================================== *)

(** What a handler does to the outside: requests sent and files written
    or removed. *)
Inductive Event :=
| EvGet (url : string)
| EvBlobPut (filename content_type : string) (content : bytes)
| EvFileWrite (path : string) (content : bytes)
| EvFileRemove (path : string).

(** Pillow images are objects: a variable holds a reference into [heap],
    and [thumbnail], [putalpha], [paste] and drawing change the object in
    place.  [files] is the file system, [trace] the effects so far, the
    latest last. *)
Record World := mkWorld {
  heap : list PIL.Image;
  files : gmap string bytes;
  trace : list Event
}.

Abbreviation ref := nat.

Inductive Result (A : Type) :=
| Ok (a : A)
| Raise (msg : string).
Arguments Ok {A} a.
Arguments Raise {A} msg.

(** A computation that reads and changes the world and returns or
    raises; what it changed before raising stays changed. *)
Definition M (A : Type) : Type := World -> Result A * World.

Definition ret {A} (a : A) : M A := fun w => (Ok a, w).

Definition bind {A B} (m : M A) (k : A -> M B) : M B :=
  fun w => match m w with
           | (Ok a, w') => k a w'
           | (Raise e, w') => (Raise e, w')
           end.

Definition raise {A} (msg : string) : M A := fun w => (Raise msg, w).

(** [try: m  except Exception as e: handler(e)]. *)
Definition try_except {A} (m : M A) (handler : string -> M A) : M A :=
  fun w => match m w with
           | (Ok a, w') => (Ok a, w')
           | (Raise e, w') => handler e w'
           end.

Notation "x <- m ;; k" := (bind m (fun x => k))
  (at level 100, m at next level, right associativity).
Notation "m ;; k" := (bind m (fun _ => k))
  (at level 100, right associativity).

(** An operation of a collaborator that returns or raises. *)
Definition expect {A} (o : option A) (msg : string) : M A :=
  match o with Some a => ret a | None => raise msg end.

Definition emit (ev : Event) : M unit :=
  fun w => (Ok tt, mkWorld (heap w) (files w) (trace w ++ [ev])).

(** ** Image objects *)

Definition alloc (im : PIL.Image) : M ref :=
  fun w => (Ok (length (heap w)),
            mkWorld (heap w ++ [im]) (files w) (trace w)).

Definition deref (r : ref) : M PIL.Image :=
  fun w => match heap w !! r with
           | Some im => (Ok im, w)
           | None => (Raise "dangling image reference", w)
           end.

Definition assign (r : ref) (im : PIL.Image) : M unit :=
  fun w => (Ok tt, mkWorld (<[r := im]> (heap w)) (files w) (trace w)).

(** [Image.new('RGBA', size, color)]. *)
Definition Image_new (size : Z * Z) (color : PIL.pixel) : M ref :=
  alloc (PIL.new size color).

(** [im.copy()]: a new object with the same raster. *)
Definition Image_copy (r : ref) : M ref :=
  im <- deref r ;; alloc im.

(** [self.paste(im, box, mask)], in place on [self]. *)
Definition Image_paste (self im : ref) (box : Z * Z) (mask : ref) : M unit :=
  s <- deref self ;;
  i <- deref im ;;
  m <- deref mask ;;
  assign self (PIL.paste s i box m).

(** [self.putalpha(b)], in place. *)
Definition Image_putalpha (self : ref) (b : PIL.band) : M unit :=
  s <- deref self ;; assign self (PIL.putalpha s b).

(** ** Files *)

(** [os.path.exists(path)]. *)
Definition path_exists (path : string) : M bool :=
  fun w => (Ok (bool_decide (is_Some (files w !! path))), w).

(** Writing [content] to [path]. *)
Definition file_write (path : string) (content : bytes) : M unit :=
  fun w => (Ok tt, mkWorld (heap w) (<[path := content]> (files w))
                           (trace w ++ [EvFileWrite path content])).

(** [os.remove(path)]. *)
Definition os_remove (path : string) : M unit :=
  fun w => match files w !! path with
           | Some _ => (Ok tt, mkWorld (heap w) (delete path (files w))
                                       (trace w ++ [EvFileRemove path]))
           | None => (Raise "No such file or directory", w)
           end.

Definition file_read (path : string) : M bytes :=
  fun w => match files w !! path with
           | Some c => (Ok c, w)
           | None => (Raise "No such file or directory", w)
           end.

(* ===================================================================== *)
(** * The canvas composer *)
(* ===================================================================== *)

(** [footer_height = max(int(img.height * 0.15), 120)]. *)
Definition footer_height (img_height : Z) : Z :=
  Z.max (Py.int_mul img_height 0.15) 120.

(** [side_padding = int(img.width * 0.02)]. *)
Definition side_padding (img_width : Z) : Z := Py.int_mul img_width 0.02.

Definition target_element_height : Z := 360.

(** The bounding box of the logo: [(int(img.width * 0.3),
    target_element_height)]. *)
Definition logo_box (img_width : Z) : Z * Z :=
  (Py.int_mul img_width 0.3, target_element_height).

(** The bounding box of the QR code. *)
Definition qr_box : Z * Z := (target_element_height, target_element_height).

(** [lambda p: int(p * 0.5)]. *)
Definition half_alpha (p : Z) : Z := Py.int_mul p 0.5.

(** The constants of the caption, in which the two files differ: the
    factor and floor of [font_size_base], the factor of the font of the
    secondary lines, the factor of the line spacing. *)
Record Caption := {
  base_factor : float;
  base_floor : Z;
  sub_factor : float;
  spacing_factor : float
}.

(** [src/app.py]. *)
Definition blob_caption : Caption :=
  {| base_factor := 0.18; base_floor := 24; sub_factor := 0.9;
     spacing_factor := 0.3 |}.

(** [src/CascadeProjects/windsurf-project/app.py]. *)
Definition folder_caption : Caption :=
  {| base_factor := 0.2; base_floor := 16; sub_factor := 0.8;
     spacing_factor := 0.2 |}.

(** [font_size_base = max(int(footer_height * factor), floor)]. *)
Definition font_size_base (c : Caption) (footer_height : Z) : Z :=
  Z.max (Py.int_mul footer_height (base_factor c)) (base_floor c).

(** [branding_lines]: the practice name, then the plus code, each when
    non-empty. *)
Definition branding_lines (practice_name plus_code : string) : list string :=
  (if Py.truthy practice_name then [practice_name] else [])
  ++ (if Py.truthy plus_code then [plus_code] else []).

Section Composer.
Context `{Collaborators}.

(** [self.thumbnail(size, Image.LANCZOS)], in place. *)
Definition Image_thumbnail (self : ref) (size : Z * Z) : M unit :=
  s <- deref self ;;
  s' <- expect (PIL.thumbnail LANCZOS s size) "thumbnail failed" ;;
  assign self s'.

(** [Image.open(data)] and the conversion to RGBA, as a new object. *)
Definition Image_open (transpose : bool) (data : bytes) : M ref :=
  im <- expect (image_open transpose data) "cannot identify image file" ;;
  alloc im.

(** [draw.text(xy, text, font=font, fill=(0, 0, 0, 255))] for
    [draw = ImageDraw.Draw(im)]: drawn on [im] in place. *)
Definition Draw_text (im : ref) (xy : Z * Z) (text : string) (f : font)
  : M unit :=
  s <- deref im ;;
  px <- expect (draw_text s xy text f) "cannot render text" ;;
  assign im (PIL.mkImage (PIL.width s) (PIL.height s) px).

Record line_datum := {
  ld_text : string;
  ld_font : font;
  ld_w : Z;
  ld_h : Z
}.

(** One round of the measuring loop of [draw_footer_text]. *)
Definition measure_line (font_main font_sub : font) (i : nat) (line : string)
  : line_datum :=
  let f := match i with O => font_main | S _ => font_sub end in
  let '(b0, b1, b2, b3) := textbbox line f in
  {| ld_text := line; ld_font := f; ld_w := b2 - b0; ld_h := b3 - b1 |}.

(** [total_text_height]: every line adds its height, and every line but
    the last adds the spacing. *)
Fixpoint total_text_height (line_spacing : Z) (line_data : list line_datum)
  : Z :=
  match line_data with
  | [] => 0
  | data :: rest =>
      ld_h data + (match rest with [] => 0 | _ => line_spacing end)
      + total_text_height line_spacing rest
  end.

(** The drawing loop of [draw_footer_text]. *)
Fixpoint draw_lines (draw : ref) (footer_center_x line_spacing current_y : Z)
    (line_data : list line_datum) : M unit :=
  match line_data with
  | [] => ret tt
  | data :: rest =>
      let x := footer_center_x - ld_w data / 2 in
      Draw_text draw (x, current_y) (ld_text data) (ld_font data) ;;
      draw_lines draw footer_center_x line_spacing
                 (current_y + ld_h data + line_spacing) rest
  end.

Definition draw_footer_text (c : Caption) (draw : ref) (lines : list string)
    (footer_rect : Z * Z * Z * Z) (font_size_base : Z) : M unit :=
  match lines with
  | [] => ret tt
  | _ =>
      let font_main := load_font font_size_base in
      let font_sub := load_font (Py.int_mul font_size_base (sub_factor c)) in
      let line_spacing := Py.int_mul font_size_base (spacing_factor c) in
      let line_data := imap (measure_line font_main font_sub) lines in
      let text_height := total_text_height line_spacing line_data in
      let '(r0, r1, r2, r3) := footer_rect in
      let footer_center_x := (r0 + r2) / 2 in
      let current_y := (r1 + r3) / 2 - text_height / 2 in
      draw_lines draw footer_center_x line_spacing current_y line_data
  end.

(** Where an overlay comes from: whether the handler has one for this
    photo, and the object each photo works on ([logo_img.copy()] in
    [process_photos], [Image.open(logo)] in [upload]). *)
Record overlay_source := {
  provided : M bool;
  acquire : M ref
}.

(** The logo block and the QR block of the loop body: the overlay is
    scaled into [bound], its alpha is halved, and it is pasted on
    [clean_img] through its own alpha; a failure is printed and the
    photo goes on without the overlay. *)
Definition place_overlay (src : overlay_source) (clean_img : ref)
    (bound : Z * Z) (position : Z -> Z * Z) : M unit :=
  p <- provided src ;;
  if p : bool then
    try_except
      (copy <- acquire src ;;
       Image_thumbnail copy bound ;;
       scaled <- deref copy ;;
       let alpha := PIL.getalpha scaled in
       let alpha := PIL.point alpha half_alpha in
       Image_putalpha copy alpha ;;
       faded <- deref copy ;;
       Image_paste clean_img copy (position (PIL.width faded)) copy)
      (fun _ => ret tt)
  else ret tt.

(** The body of the loop from the RGBA photo [img] to the finished
    [clean_img]. *)
Definition compose (c : Caption) (logo qr : overlay_source)
    (practice_name plus_code : string) (img : ref) : M ref :=
  im <- deref img ;;
  let img_width := PIL.width im in
  let img_height := PIL.height im in
  (* Clear metadata by creating a new image *)
  clean_img <- Image_new (PIL.size im) PIL.white ;;
  Image_paste clean_img img (0, 0) img ;;
  let footer_height := footer_height img_height in
  let new_size := (img_width, img_height + footer_height) in
  (* Create new white canvas *)
  clean_img <- Image_new new_size PIL.white ;;
  Image_paste clean_img img (0, 0) img ;;
  let footer_y_start := img_height in
  let side_padding := side_padding img_width in
  (* Process logo if provided (Top Left) *)
  place_overlay logo clean_img (logo_box img_width)
                (fun _ => (side_padding, side_padding)) ;;
  (* Process QR code if provided (Top Right) *)
  place_overlay qr clean_img qr_box
                (fun qr_width => (img_width - qr_width - side_padding,
                                  side_padding)) ;;
  let lines := branding_lines practice_name plus_code in
  match lines with
  | [] => ret tt
  | _ =>
      let font_size_base := font_size_base c footer_height in
      let footer_rect :=
        (0, footer_y_start, img_width, img_height + footer_height) in
      draw_footer_text c clean_img lines footer_rect font_size_base
  end ;;
  ret clean_img.

End Composer.

(* ===================================================================== *)
(** * The QR payload and the responses *)
(* ===================================================================== *)

Definition maps_domains : list string :=
  ["google.com/maps"; "maps.google.com"; "maps.app.goo.gl"].

(** The cleaning of the QR payload: a Google Maps link loses what follows
    its first question mark. *)
Definition clean_qr_url (qr_url : string) : string :=
  let is_google_maps := Py.any_in maps_domains qr_url in
  if is_google_maps && Py.has_char "?" qr_url
  then Py.split_head "?" qr_url
  else qr_url.

(** [jsonify({'error': message}), status] or
    [jsonify({'success': True, 'files': files})]. *)
Inductive Response (A : Type) :=
| Error (message : string) (status : Z)
| Success (files : list A).
Arguments Error {A} message status.
Arguments Success {A} files.

(** Truth value of [data.get(key)]: present and non-empty. *)
Definition given (o : option string) : option string :=
  match o with
  | Some s => if Py.truthy s then Some s else None
  | None => None
  end.

(* ===================================================================== *)
(** * [process_photos] of [src/app.py] *)
(* ===================================================================== *)

(** The JSON body of a request to [/process]. *)
Record ProcessRequest := {
  photo_urls : list string;
  logo_url : option string;
  qr_url : option string;
  practice_name : string;
  plus_code : string;
  file_names : list string
}.

Section ProcessPhotos.
Context `{Collaborators}.

Definition download_from_url (url : string) : M bytes :=
  emit (EvGet url) ;;
  expect (requests_get url) "Failed to download from URL".

Definition upload_to_blob (file_content : bytes)
    (filename content_type : string) : M string :=
  if negb (Py.truthy BLOB_READ_WRITE_TOKEN)
  then raise "BLOB_READ_WRITE_TOKEN not configured"
  else
    emit (EvBlobPut filename content_type file_content) ;;
    expect (requests_put filename content_type file_content)
           "Failed to upload to Blob".

(** An overlay held as an image object: each photo works on a copy. *)
Definition copy_of (overlay : option ref) : overlay_source :=
  {| provided := ret (bool_decide (is_Some overlay));
     acquire := match overlay with
                | Some r => Image_copy r
                | None => raise "no overlay"
                end |}.

(** The name of the [i]-th output: the cleaned [file_names[i]] when
    there is a non-empty one, else [photo_{i+1}], with [.jpg]. *)
Definition blob_output_name (file_names : list string) (i : nat) : string :=
  let base_name :=
    match file_names !! i with
    | Some name =>
        if Py.truthy name
        then secure_filename (fst (Py.splitext name))
        else "photo_" +:+ pretty (i + 1)%nat
    | None => "photo_" +:+ pretty (i + 1)%nat
    end in
  base_name +:+ ".jpg".

(** The body of the [try] of the loop, for the [i]-th photo. *)
Definition process_photo (logo_img qr_img : option ref)
    (practice_name plus_code : string) (file_names : list string)
    (i : nat) (photo_url : string) : M (string * string) :=
  photo_data <- download_from_url photo_url ;;
  img <- Image_open true photo_data ;;
  clean_img <- compose blob_caption (copy_of logo_img) (copy_of qr_img)
                       practice_name plus_code img ;;
  let output_name := blob_output_name file_names i in
  canvas <- deref clean_img ;;
  let rgb_img := PIL.convert_RGB canvas in
  content <- expect (image_save (JPEG 95) rgb_img) "cannot write image" ;;
  processed_url <- upload_to_blob content output_name "image/jpeg" ;;
  ret (processed_url, output_name).

(** [for i, photo_url in enumerate(photo_urls)], from index [i] on. *)
Fixpoint process_loop (logo_img qr_img : option ref)
    (practice_name plus_code : string) (file_names : list string)
    (i : nat) (photo_urls : list string)
    (processed_urls : list (string * string))
  : M (list (string * string)) :=
  match photo_urls with
  | [] => ret processed_urls
  | photo_url :: rest =>
      processed_urls <-
        try_except
          (entry <- process_photo logo_img qr_img practice_name plus_code
                                  file_names i photo_url ;;
           ret (processed_urls ++ [entry])%list)
          (fun _ => ret processed_urls) ;;
      process_loop logo_img qr_img practice_name plus_code file_names
                   (S i) rest processed_urls
  end.

(** The logo: downloaded and decoded, [None] when absent or failing. *)
Definition load_logo (logo_url : option string) : M (option ref) :=
  match given logo_url with
  | Some url =>
      try_except
        (logo_data <- download_from_url url ;;
         logo_img <- Image_open false logo_data ;;
         ret (Some logo_img))
        (fun _ => ret None)
  | None => ret None
  end.

(** The QR code: generated from the cleaned link. *)
Definition generate_qr (qr_url : option string) : M (option ref) :=
  match given qr_url with
  | Some url =>
      try_except
        (let url := clean_qr_url url in
         qr <- expect (make_qr url) "cannot make QR code" ;;
         qr_img <- alloc qr ;;
         ret (Some qr_img))
        (fun _ => ret None)
  | None => ret None
  end.

(** The body of the handler inside its [try]; [data] is [None] for a
    body that is missing or empty. *)
Definition process_photos_body (data : option ProcessRequest)
  : M (Response (string * string)) :=
  match data with
  | None => ret (Error "No data provided" 400)
  | Some data =>
      let practice_name := Py.strip (practice_name data) in
      let plus_code := Py.strip (plus_code data) in
      match photo_urls data with
      | [] => ret (Error "No photos provided" 400)
      | _ =>
          logo_img <- load_logo (logo_url data) ;;
          qr_img <- generate_qr (qr_url data) ;;
          processed_urls <-
            process_loop logo_img qr_img practice_name plus_code
                         (file_names data) 0 (photo_urls data) [] ;;
          match processed_urls with
          | [] => ret (Error "Failed to process any photos" 500)
          | _ => ret (Success processed_urls)
          end
      end
  end.

Definition process_photos (data : option ProcessRequest) (w : World)
  : Response (string * string) * World :=
  match process_photos_body data w with
  | (Ok response, w') => (response, w')
  | (Raise e, w') => (Error ("An error occurred: " +:+ e) 500, w')
  end.

End ProcessPhotos.

(* ===================================================================== *)
(** * [upload] of [src/CascadeProjects/windsurf-project/app.py] *)
(* ===================================================================== *)

(** An uploaded file of the form. *)
Record FileStorage := {
  filename : string;
  stream : bytes
}.

(** The form of a request to [/upload]: [request.files.get('logo')],
    [request.files.getlist('photos')] (empty when the key is absent) and
    the text fields. *)
Record UploadRequest := {
  logo_file : option FileStorage;
  photos : list FileStorage;
  form_qr_url : string;
  form_practice_name : string;
  form_plus_code : string;
  form_file_names : list string
}.

Definition ALLOWED_EXTENSIONS : list string := ["png"; "jpg"; "jpeg"; "gif"].

Definition allowed_file (filename : string) : bool :=
  Py.has_char "." filename
  && bool_decide (Py.lower (Py.after_last_dot filename) ∈ ALLOWED_EXTENSIONS).

(** The extension of the output: that of the uploaded photo in lower
    case, [.png] when it has none or an unknown one. *)
Definition output_extension (photo_filename : string) : string :=
  let original_ext := Py.lower (snd (Py.splitext photo_filename)) in
  if negb (Py.truthy original_ext)
     || negb (bool_decide (original_ext ∈ [".png"; ".jpg"; ".jpeg"; ".gif"]))
  then ".png"
  else original_ext.

(** The format [upload] saves an output name in. *)
Definition output_format (output_name : string) : format :=
  if Py.endswith (Py.lower output_name) ".png" then PNG else JPEG 95.

(** The raster handed to the encoder: as it is for PNG,
    [clean_img.convert('RGB')] for JPEG. *)
Definition encoded_raster (f : format) (clean_img : PIL.Image) : PIL.Image :=
  match f with
  | PNG => clean_img
  | JPEG _ => PIL.convert_RGB clean_img
  end.

Section Upload.
Context `{Collaborators}.

Definition UPLOAD_FOLDER : string :=
  if IS_VERCEL then "/tmp/uploads/" else "uploads/".

Definition PROCESSED_FOLDER : string :=
  if IS_VERCEL then "/tmp/processed/" else "processed/".

(** [os.path.join(folder, name)] for a folder that ends in a slash and
    a name made by [secure_filename], which has no slash. *)
Definition os_path_join (folder name : string) : string := folder +:+ name.

(** An overlay held as a file: each photo opens it again. *)
Definition file_of (path : option string) : overlay_source :=
  {| provided := match path with
                 | Some p => path_exists p
                 | None => ret false
                 end;
     acquire := match path with
                | Some p => data <- file_read p ;; Image_open false data
                | None => raise "no overlay"
                end |}.

Definition count_files : M nat := fun w => (Ok (size (files w)), w).

(** [f"{base_name}_{counter}{original_ext}"]. *)
Definition suffixed (base_name original_ext : string) (counter : nat)
  : string :=
  base_name +:+ "_" +:+ pretty counter +:+ original_ext.

(** The [while os.path.exists(output_path)] loop.  [fuel] bounds the
    rounds; the number of files is enough. *)
Fixpoint unique_output_name (fuel : nat) (base_name original_ext : string)
    (counter : nat) (output_name : string) : M string :=
  taken <- path_exists (os_path_join PROCESSED_FOLDER output_name) ;;
  if taken : bool then
    match fuel with
    | O => raise "out of fuel"
    | S fuel' =>
        unique_output_name fuel' base_name original_ext (S counter)
          (suffixed base_name original_ext counter)
    end
  else ret output_name.

(** Where an uploaded photo is saved: under its cleaned name in the
    upload folder. *)
Definition upload_path (photo : FileStorage) : string :=
  os_path_join UPLOAD_FOLDER (secure_filename (filename photo)).

(** The base name of the [i]-th output: [file_names[i]], or [photo_{i+1}]
    when there is none, without its extension and cleaned. *)
Definition folder_base_name (file_names : list string) (i : nat) : string :=
  let base_name := match file_names !! i with
                   | Some name => name
                   | None => "photo_" +:+ pretty (i + 1)%nat
                   end in
  let base_name := fst (Py.splitext base_name) in
  secure_filename base_name.

(** The body of the [try] of the loop up to the saved output: the
    output path, the output name and the path of the uploaded photo. *)
Definition upload_photo (logo qr_code : option string)
    (practice_name plus_code : string) (file_names : list string)
    (i : nat) (photo : FileStorage) : M (string * string * string) :=
  let file_path := upload_path photo in
  file_write file_path (stream photo) ;;
  data <- file_read file_path ;;
  img <- Image_open true data ;;
  clean_img <- compose folder_caption (file_of logo) (file_of qr_code)
                       practice_name plus_code img ;;
  let original_ext := output_extension (filename photo) in
  let base_name := folder_base_name file_names i in
  let output_name := base_name +:+ original_ext in
  fuel <- count_files ;;
  output_name <- unique_output_name fuel base_name original_ext 1 output_name ;;
  let output_path := os_path_join PROCESSED_FOLDER output_name in
  canvas <- deref clean_img ;;
  let f := output_format output_name in
  content <- expect (image_save f (encoded_raster f canvas))
                    "cannot write image" ;;
  file_write output_path content ;;
  ret (output_path, output_name, file_path).

(** [for i, photo in enumerate(valid_photos)], from index [i] on.  The
    two appends come before [os.remove(file_path)] in the [try]: a
    failing removal keeps the entry. *)
Fixpoint upload_loop (logo qr_code : option string)
    (practice_name plus_code : string) (file_names : list string)
    (i : nat) (valid_photos : list FileStorage)
    (processed_files output_filenames : list string)
  : M (list string * list string) :=
  match valid_photos with
  | [] => ret (processed_files, output_filenames)
  | photo :: rest =>
      saved <-
        try_except
          (out <- upload_photo logo qr_code practice_name plus_code
                               file_names i photo ;;
           ret (Some out))
          (fun _ => ret None) ;;
      match saved with
      | Some (output_path, output_name, file_path) =>
          try_except (os_remove file_path) (fun _ => ret tt) ;;
          upload_loop logo qr_code practice_name plus_code file_names
                      (S i) rest
                      (processed_files ++ [output_path])%list
                      (output_filenames ++ [output_name])%list
      | None =>
          upload_loop logo qr_code practice_name plus_code file_names
                      (S i) rest processed_files output_filenames
      end
  end.

(** The temporary files of the logo and of the generated QR code. *)
Definition logo_path : string := os_path_join UPLOAD_FOLDER "temp_logo.png".
Definition qr_path : string := os_path_join UPLOAD_FOLDER "generated_qr.png".

(** [if path and os.path.exists(path): os.remove(path)]. *)
Definition remove_if_exists (path : option string) : M unit :=
  match path with
  | Some p => e <- path_exists p ;; if e : bool then os_remove p else ret tt
  | None => ret tt
  end.

(** Clean up temporary files. *)
Definition cleanup (logo qr_code : option string) : M unit :=
  remove_if_exists logo ;; remove_if_exists qr_code.

(** The outer [except]: it cleans up with the variables as they are
    where the exception arose. *)
Definition on_exception (logo qr_code : option string) (e : string)
  : M (Response string) :=
  cleanup logo qr_code ;;
  ret (Error ("An error occurred during processing: " +:+ e) 500).

(** From the check of the photos to the end. *)
Definition upload_photos (request : UploadRequest)
    (logo qr_code : option string) (practice_name plus_code : string)
  : M (Response string) :=
  if negb (existsb (fun f => Py.truthy (filename f)) (photos request))
  then cleanup logo qr_code ;; ret (Error "No photos uploaded" 400)
  else
    let valid_photos :=
      List.filter (fun photo => Py.truthy (filename photo)
                                && allowed_file (filename photo))
                  (photos request) in
    match valid_photos with
    | [] =>
        cleanup logo qr_code ;;
        ret (Error "No valid photos uploaded. Supported formats: png, jpg, jpeg, gif" 400)
    | _ =>
        let file_names := form_file_names request in
        let file_names :=
          match file_names with
          | [] => map (fun photo => fst (Py.splitext (filename photo)))
                      valid_photos
          | _ => if (length file_names =? length valid_photos)%nat
                 then file_names
                 else map (fun photo => fst (Py.splitext (filename photo)))
                          valid_photos
          end in
        lists <-
          upload_loop logo qr_code practice_name plus_code file_names
                      0 valid_photos [] [] ;;
        let '(processed_files, output_filenames) := lists in
        cleanup logo qr_code ;;
        match processed_files with
        | [] => ret (Error "Failed to process any photos" 500)
        | _ => ret (Success output_filenames)
        end
    end.

(** From the QR code on, with the logo saved. *)
Definition upload_from_qr (request : UploadRequest) (logo : option string)
  : M (Response string) :=
  let qr_url := Py.strip (form_qr_url request) in
  let practice_name := Py.strip (form_practice_name request) in
  let plus_code := Py.strip (form_plus_code request) in
  if Py.truthy qr_url then
    let qr_url := clean_qr_url qr_url in
    made <-
      try_except
        (qr_img <- expect (make_qr qr_url) "cannot make QR code" ;;
         data <- expect (image_save PNG qr_img) "cannot write image" ;;
         file_write qr_path data ;;
         ret (inr qr_path))
        (fun e =>
           match logo with
           | Some p =>
               present <- path_exists p ;;
               if present : bool then os_remove p else ret tt
           | None => raise "stat: path should be string, bytes, os.PathLike or integer, not NoneType"
           end ;;
           ret (inl (Error ("Error generating QR code: " +:+ e) 400))) ;;
    match made with
    | inl response => ret response
    | inr qr_path =>
        try_except
          (upload_photos request logo (Some qr_path) practice_name plus_code)
          (on_exception logo (Some qr_path))
    end
  else
    try_except (upload_photos request logo None practice_name plus_code)
               (on_exception logo None).

(** The body of the handler inside its [try]. *)
Definition upload_body (request : UploadRequest) : M (Response string) :=
  match logo_file request with
  | Some logo_file =>
      if Py.truthy (filename logo_file) then
        if negb (allowed_file (filename logo_file))
        then ret (Error "Invalid logo file type. Allowed types: png, jpg, jpeg, gif" 400)
        else
          file_write logo_path (stream logo_file) ;;
          try_except (upload_from_qr request (Some logo_path))
                     (on_exception (Some logo_path) None)
      else try_except (upload_from_qr request None) (on_exception None None)
  | None => try_except (upload_from_qr request None) (on_exception None None)
  end.

(** The handler; an exception that leaves it is Flask's internal server
    error. *)
Definition upload (request : UploadRequest) (w : World)
  : Response string * World :=
  match upload_body request w with
  | (Ok response, w') => (response, w')
  | (Raise e, w') => (Error "Internal Server Error" 500, w')
  end.

End Upload.

(** The removal of a temporary file: it is gone afterwards, and the
    removal is an effect when it was there. *)
Definition removal (fs : gmap string bytes) (path : option string)
  : list Event :=
  match path with
  | Some p => match fs !! p with
              | Some _ => [EvFileRemove p]
              | None => []
              end
  | None => []
  end.

Definition without (fs : gmap string bytes) (path : option string)
  : gmap string bytes :=
  match path with
  | Some p => delete p fs
  | None => fs
  end.

(* ===================================================================== *)
(** * Checking a range of integers *)
(* ===================================================================== *)

(** Whether [p] holds of the [2^k] integers from [base] on. *)
Fixpoint all_below (k : nat) (base : Z) (p : Z -> bool) : bool :=
  match k with
  | O => p base
  | S k' => all_below k' base p && all_below k' (base + 2 ^ Z.of_nat k') p
  end.

(** The sides of the rasters the arithmetic on binary64 is checked for. *)
Definition dimension_bits : nat := 16.
Definition max_dimension : Z := 2 ^ Z.of_nat dimension_bits.

(** A maps link: one of the three patterns occurs in it. *)
Definition maps_link (url : string) : Prop :=
  exists d pre post, d ∈ maps_domains /\ url = pre +:+ d +:+ post.


(** The footer height in the words of the specification:
    [max(round(0.15 * H), 120)]. *)
Definition spec_footer_height (img_height : Z) : Z :=
  Z.max (Py.round ((15 # 100) * inject_Z img_height)) 120.

(* ===================================================================== *)
(** * A small instance of the collaborators *)
(* ===================================================================== *)

Module Demo.

(** A raster of one colour. *)
Definition plain (w h : Z) (p : PIL.pixel) : PIL.Image :=
  PIL.mkImage w h (fun _ _ => p).

(** The codec knows four files. *)
Definition decode (data : bytes) : option PIL.Image :=
  if String.eqb data "photo-1000x800" then Some (plain 1000 800 (PIL.RGBA 10 20 30 255))
  else if String.eqb data "photo-640x804" then Some (plain 640 804 (PIL.RGBA 0 0 0 0))
  else if String.eqb data "logo-800x200" then Some (plain 800 200 (PIL.RGBA 200 0 0 255))
  else if String.eqb data "qr-330x330" then Some (plain 330 330 (PIL.RGBA 0 0 0 255))
  else None.

Definition encode (f : format) (im : PIL.Image) : option bytes :=
  Some (match f with PNG => "PNG " | JPEG _ => "JPEG " end
        +:+ pretty (PIL.width im) +:+ "x" +:+ pretty (PIL.height im)).

(** Nearest-neighbour sampling stands for the filter. *)
Definition nearest (im : PIL.Image) (size : Z * Z) (x y : Z) : PIL.pixel :=
  PIL.getpixel im (x * PIL.width im / fst size) (y * PIL.height im / snd size).

(** Text drawn as a black box of its bounding size. *)
Definition bbox (text : string) (f : Z) : Z * Z * Z * Z :=
  (0, 0, f * Z.of_nat (String.length text) / 2, f).

Definition draw (im : PIL.Image) (xy : Z * Z) (text : string) (f : Z)
  : option (Z -> Z -> PIL.pixel) :=
  Some (fun x y =>
          if PIL.in_rect (fst xy) (snd xy)
               (f * Z.of_nat (String.length text) / 2) f x y
          then PIL.RGBA 0 0 0 255
          else PIL.getpixel im x y).

(** Spaces become underscores and slashes are dropped. *)
Fixpoint secure (s : string) : string :=
  match s with
  | EmptyString => EmptyString
  | String c s' =>
      if Ascii.eqb c " " then String "_" (secure s')
      else if Ascii.eqb c "/" then secure s'
      else String c (secure s')
  end.

Definition get (url : string) : option bytes :=
  if String.eqb url "https://blob/a.jpg" then Some "photo-1000x800"
  else if String.eqb url "https://blob/b.png" then Some "photo-640x804"
  else if String.eqb url "https://blob/corrupt.jpg" then Some "not an image"
  else if String.eqb url "https://blob/logo.png" then Some "logo-800x200"
  else None.

#[export] Instance collaborators : Collaborators := {|
  font := Z;
  load_font := fun size => size;
  textbbox := bbox;
  draw_text := draw;
  LANCZOS := nearest;
  image_open := fun _ => decode;
  image_save := encode;
  make_qr := fun _ => Some (plain 330 330 (PIL.RGBA 0 0 0 255));
  secure_filename := secure;
  requests_get := get;
  requests_put := fun name _ _ => Some ("https://store/" +:+ name);
  IS_VERCEL := false;
  BLOB_READ_WRITE_TOKEN := "token"
|}.

Definition empty_world : World := mkWorld [] ∅ [].

Definition request : ProcessRequest :=
  {| photo_urls := ["https://blob/a.jpg"; "https://blob/corrupt.jpg";
                    "https://blob/b.png"];
     logo_url := Some "https://blob/logo.png";
     qr_url := Some "https://maps.google.com/maps?cid=123&extra=1";
     practice_name := "Acme Dental";
     plus_code := "PLUS-4W9";
     file_names := ["x"; "x"; "x"] |}.

(** Two photos that are given the same name. *)
Definition twins : ProcessRequest :=
  {| photo_urls := ["https://blob/a.jpg"; "https://blob/b.png"];
     logo_url := None;
     qr_url := None;
     practice_name := "";
     plus_code := "";
     file_names := ["x"; "x"] |}.



(** An upload of two photos that are given the same name. *)
Definition twin_upload : UploadRequest :=
  {| logo_file := None;
     photos := [ {| filename := "a.jpg"; stream := "photo-1000x800" |};
                 {| filename := "b.jpg"; stream := "photo-640x804" |} ];
     form_qr_url := "";
     form_practice_name := "";
     form_plus_code := "";
     form_file_names := ["x"; "x"] |}.

End Demo.


(* ===================================================================== *)
(** * The canvas as a function of the rasters *)
(* ===================================================================== *)

(** What the loop body computes, on raster values.  The theorems below
    show that the handlers, which work on image objects in place, produce
    these canvases. *)
Section Canvas.
Context `{Collaborators}.

(** [clean_img] after the photo is pasted on the white canvas. *)
Definition base_canvas (im : PIL.Image) : PIL.Image :=
  PIL.paste
    (PIL.new (PIL.width im, PIL.height im + footer_height (PIL.height im))
             PIL.white)
    im (0, 0) im.

(** The opacity adjustment of an overlay. *)
Definition fade (scaled : PIL.Image) : PIL.Image :=
  PIL.putalpha scaled (PIL.point (PIL.getalpha scaled) half_alpha).

(** The overlay as it is pasted: scaled into [bound], then faded;
    [None] when there is no overlay or the scaling raises. *)
Definition prepared (overlay : option PIL.Image) (bound : Z * Z)
  : option PIL.Image :=
  match overlay with
  | Some o => fade <$> PIL.thumbnail LANCZOS o bound
  | None => None
  end.

Definition overlay_on (overlay : option PIL.Image) (bound : Z * Z)
    (position : Z -> Z * Z) (canvas : PIL.Image) : PIL.Image :=
  match prepared overlay bound with
  | Some faded => PIL.paste canvas faded (position (PIL.width faded)) faded
  | None => canvas
  end.

Fixpoint lines_on (footer_center_x line_spacing current_y : Z)
    (line_data : list line_datum) (canvas : PIL.Image) : option PIL.Image :=
  match line_data with
  | [] => Some canvas
  | data :: rest =>
      let x := footer_center_x - ld_w data / 2 in
      match draw_text canvas (x, current_y) (ld_text data) (ld_font data) with
      | Some px =>
          lines_on footer_center_x line_spacing
                   (current_y + ld_h data + line_spacing) rest
                   (PIL.mkImage (PIL.width canvas) (PIL.height canvas) px)
      | None => None
      end
  end.

Definition caption_on (c : Caption) (lines : list string)
    (footer_rect : Z * Z * Z * Z) (font_size_base : Z) (canvas : PIL.Image)
  : option PIL.Image :=
  match lines with
  | [] => Some canvas
  | _ =>
      let font_main := load_font font_size_base in
      let font_sub := load_font (Py.int_mul font_size_base (sub_factor c)) in
      let line_spacing := Py.int_mul font_size_base (spacing_factor c) in
      let line_data := imap (measure_line font_main font_sub) lines in
      let text_height := total_text_height line_spacing line_data in
      let '(r0, r1, r2, r3) := footer_rect in
      lines_on ((r0 + r2) / 2) line_spacing
               ((r1 + r3) / 2 - text_height / 2) line_data canvas
  end.

(** The canvas with its overlays, before the caption. *)
Definition overlaid (logo qr : option PIL.Image) (im : PIL.Image)
  : PIL.Image :=
  let img_width := PIL.width im in
  let pad := side_padding img_width in
  overlay_on qr qr_box (fun qr_width => (img_width - qr_width - pad, pad))
    (overlay_on logo (logo_box img_width) (fun _ => (pad, pad))
       (base_canvas im)).

(** The finished canvas of a photo; [None] when the caption cannot be
    rendered. *)
Definition canvas_of (c : Caption) (logo qr : option PIL.Image)
    (practice_name plus_code : string) (im : PIL.Image)
  : option PIL.Image :=
  let fh := footer_height (PIL.height im) in
  caption_on c (branding_lines practice_name plus_code)
             (0, PIL.height im, PIL.width im, PIL.height im + fh)
             (font_size_base c fh) (overlaid logo qr im).

(** The rectangle an overlay covers on the canvas. *)
Definition covers (faded : option PIL.Image) (position : Z -> Z * Z)
    (x y : Z) : bool :=
  match faded with
  | Some f =>
      let '(x0, y0) := position (PIL.width f) in
      PIL.in_rect x0 y0 (PIL.width f) (PIL.height f) x y
  | None => false
  end.

(** An overlay of a handler: an image object ([process_photos]) or a
    file ([upload]). *)
Inductive overlay_input :=
| Held (overlay : option ref)
| Stored (path : option string).

Definition source_of (i : overlay_input) : overlay_source :=
  match i with
  | Held o => copy_of o
  | Stored p => file_of p
  end.

(** The raster of the overlay in a world. *)
Definition overlay_image (i : overlay_input) (w : World)
  : option PIL.Image :=
  match i with
  | Held o => r ← o; heap w !! r
  | Stored p => path ← p; data ← files w !! path; image_open false data
  end.

(** A held overlay refers to an object of the heap. *)
Definition valid_input (i : overlay_input) (w : World) : Prop :=
  match i with
  | Held (Some r) => (r < length (heap w))%nat
  | _ => True
  end.

(** What a source gives in a world: an overlay, held by a new object,
    or none (not provided, or not acquired). *)
Definition yields (src : overlay_source) (w : World)
    (overlay : option PIL.Image) : Prop :=
  match overlay with
  | Some o =>
      provided src w = (Ok true, w)
      /\ acquire src w = (Ok (length (heap w)),
                          mkWorld (heap w ++ [o]) (files w) (trace w))
  | None =>
      provided src w = (Ok false, w)
      \/ (provided src w = (Ok true, w)
          /\ exists e, acquire src w = (Raise e, w))
  end.

(** ** [process_photos] on values *)

(** The outcome of one photo and what it does to the outside. *)
Definition blob_photo (logo qr : option PIL.Image)
    (practice_name plus_code : string) (file_names : list string)
    (i : nat) (photo_url : string)
  : option (string * string) * list Event :=
  let output_name := blob_output_name file_names i in
  let content :=
    photo_data ← requests_get photo_url;
    im ← image_open true photo_data;
    canvas ← canvas_of blob_caption logo qr practice_name plus_code im;
    image_save (JPEG 95) (PIL.convert_RGB canvas) in
  match content with
  | Some content =>
      if Py.truthy BLOB_READ_WRITE_TOKEN then
        ((fun url => (url, output_name))
           <$> requests_put output_name "image/jpeg" content,
         [EvGet photo_url; EvBlobPut output_name "image/jpeg" content])
      else (None, [EvGet photo_url])
  | None => (None, [EvGet photo_url])
  end.

(** The outcomes of the photos from index [i] on. *)
Fixpoint blob_batch (logo qr : option PIL.Image)
    (practice_name plus_code : string) (file_names : list string)
    (i : nat) (photo_urls : list string)
  : list (string * string) * list Event :=
  match photo_urls with
  | [] => ([], [])
  | photo_url :: rest =>
      let '(entry, events) :=
        blob_photo logo qr practice_name plus_code file_names i photo_url in
      let '(entries, later) :=
        blob_batch logo qr practice_name plus_code file_names (S i) rest in
      (match entry with Some e => e :: entries | None => entries end,
       (events ++ later)%list)
  end.

(** The logo and the QR code of a request. *)
Definition logo_of (data : ProcessRequest) : option PIL.Image :=
  url ← given (logo_url data);
  logo_data ← requests_get url;
  image_open false logo_data.

Definition qr_of (data : ProcessRequest) : option PIL.Image :=
  url ← given (qr_url data); make_qr (clean_qr_url url).

(** ** [upload] on values *)

(** The raster of an overlay held as a file. *)
Definition stored_overlay (fs : gmap string bytes) (path : option string)
  : option PIL.Image :=
  p ← path; data ← fs !! p; image_open false data.

(** The canvas of an uploaded photo, for the overlays in the files
    [fs]. *)
Definition folder_canvas (fs : gmap string bytes) (logo qr_code : option string)
    (practice_name plus_code : string) (photo : FileStorage)
  : option PIL.Image :=
  im ← image_open true (stream photo);
  canvas_of folder_caption (stored_overlay fs logo) (stored_overlay fs qr_code)
            practice_name plus_code im.

(** An uploaded photo the codec can read. *)
Definition decodable (photo : FileStorage) : bool :=
  match image_open true (stream photo) with
  | Some _ => true
  | None => false
  end.

(** A renderer and an encoder that never raise. *)
Definition renders_all : Prop :=
  forall im xy text f, is_Some (draw_text im xy text f).

Definition encodes_all : Prop :=
  forall f im, is_Some (image_save f im).

(** The request for the logo. *)
Definition logo_events (data : ProcessRequest) : list Event :=
  match given (logo_url data) with
  | Some url => [EvGet url]
  | None => []
  end.

(** The entries and the events of the photos of a request. *)
Definition batch_of (data : ProcessRequest)
  : list (string * string) * list Event :=
  blob_batch (logo_of data) (qr_of data) (Py.strip (practice_name data))
             (Py.strip (plus_code data)) (file_names data) 0 (photo_urls data).


End Canvas.

(* ===================================================================== *)
(** * The calls of the caption *)
(* ===================================================================== *)

Section FooterCalls.
Context `{Collaborators}.

(** A call [draw.text(xy, text, font=font, fill=(0, 0, 0, 255))]. *)
Record text_call := {
  tc_xy : Z * Z;
  tc_text : string;
  tc_font : font
}.

(** The calls of the drawing loop of [draw_footer_text], in order. *)
Fixpoint text_calls (footer_center_x line_spacing current_y : Z)
    (line_data : list line_datum) : list text_call :=
  match line_data with
  | [] => []
  | data :: rest =>
      let x := footer_center_x - ld_w data / 2 in
      {| tc_xy := (x, current_y); tc_text := ld_text data;
         tc_font := ld_font data |}
      :: text_calls footer_center_x line_spacing
                    (current_y + ld_h data + line_spacing) rest
  end.

(** The calls made one after the other on [draw]. *)
Fixpoint draw_all (draw : ref) (calls : list text_call) : M unit :=
  match calls with
  | [] => ret tt
  | call :: rest =>
      Draw_text draw (tc_xy call) (tc_text call) (tc_font call) ;;
      draw_all draw rest
  end.

End FooterCalls.

(* ===================================================================== *)
(** * Reading a trace *)
(* ===================================================================== *)

(** The URL of a request for a download. *)
Definition requested (ev : Event) : option string :=
  match ev with
  | EvGet url => Some url
  | _ => None
  end.

(** The entry of an upload the blob store answers with status 200: its
    URL and the name it was sent under. *)
Definition stored `{Collaborators} (ev : Event) : option (string * string) :=
  match ev with
  | EvBlobPut filename content_type content =>
      (fun url => (url, filename))
        <$> requests_put filename content_type content
  | _ => None
  end.

(** An upload. *)
Definition is_put (ev : Event) : bool :=
  match ev with
  | EvBlobPut _ _ _ => true
  | _ => false
  end.

(* ===================================================================== *)
(** * Collaborators that fail *)
(* ===================================================================== *)

(** The small instance in a deployment that has no token for the blob
    store and whose QR encoder raises. *)
Module Unconfigured.

Definition collaborators : Collaborators := {|
  font := Z;
  load_font := fun size => size;
  textbbox := Demo.bbox;
  draw_text := Demo.draw;
  LANCZOS := Demo.nearest;
  image_open := fun _ => Demo.decode;
  image_save := Demo.encode;
  make_qr := fun _ => None;
  secure_filename := Demo.secure;
  requests_get := Demo.get;
  requests_put := fun name _ _ => Some ("https://store/" +:+ name);
  IS_VERCEL := false;
  BLOB_READ_WRITE_TOKEN := ""
|}.

End Unconfigured.

(* ===================================================================== *)
(** * What a step of [upload] may do *)
(* ===================================================================== *)

Section LocalWork.
Context `{Collaborators}.

(** A path of the upload folder, a path of the processed folder. *)
Definition in_uploads (path : string) : Prop :=
  exists name, path = os_path_join UPLOAD_FOLDER name.

Definition in_processed (path : string) : Prop :=
  exists name, path = os_path_join PROCESSED_FOLDER name.

(** A temporary file of the request, if any, lies in the upload folder. *)
Definition temporary (path : option string) : Prop :=
  forall p, path = Some p -> in_uploads p.

(** An effect on the two folders: a file written in one of them, or a
    file of the upload folder removed. *)
Definition local_event (ev : Event) : Prop :=
  match ev with
  | EvFileWrite path _ => in_uploads path \/ in_processed path
  | EvFileRemove path => in_uploads path
  | _ => False
  end.

(** From [w] to [w']: every file of the processed folder is still there
    with its content, and what happened between the two is local. *)
Definition works_locally (w w' : World) : Prop :=
  (forall path content,
      in_processed path -> files w !! path = Some content ->
      files w' !! path = Some content)
  /\ exists events, trace w' = trace w ++ events /\ Forall local_event events.

(** A computation that works locally from every world, whether it
    returns or raises. *)
Definition keeps {A} (m : M A) : Prop :=
  forall w, works_locally w (snd (m w)).

(** A computation that returns, from every world. *)
Definition answers {A} (m : M A) : Prop :=
  forall w, exists a w', m w = (Ok a, w').

End LocalWork.

(* ===================================================================== *)
(** * [generate_image] of [src/app.py] *)
(* ===================================================================== *)

(** The JSON body of a request to [/api/generate-image]: the prompt, a
    string when present, and the count, an integer when present. *)
Record GenerateRequest := {
  prompt : option string;
  count : option Z
}.

(** What [generate_image] consumes besides the blob store: the key, the
    image model and the clock.  The model is called once in every round of
    the loop: [generate_content prompt i] is what the call of round [i]
    returns, the parts of each candidate with the bytes of their inline
    data if they have some, or [None] when the call raises.
    [time_time i] is [int(time.time())] in round [i]. *)
Class Generator := {
  GOOGLE_API_KEY : string;
  generate_content : string -> nat -> option (list (list (option bytes)));
  time_time : nat -> Z
}.

(** [next((part for part in parts if part.inline_data), None)], as the
    data of that part. *)
Fixpoint first_inline_data (parts : list (option bytes)) : option bytes :=
  match parts with
  | [] => None
  | Some data :: _ => Some data
  | None :: rest => first_inline_data rest
  end.

(** [count = min(max(int(data.get('count', 1)), 1), 10)]. *)
Definition clamp_count (count : option Z) : Z :=
  Z.min (Z.max (match count with Some c => c | None => 1 end) 1) 10.

Section GenerateImage.
Context `{Collaborators} `{Generator}.

(** [f"generated_{secure_filename(prompt[:20])}_{ts}_{i}.jpg"]. *)
Definition generated_name (prompt : string) (ts : Z) (i : nat) : string :=
  "generated_" +:+ secure_filename (String.substring 0 20 prompt)
  +:+ "_" +:+ pretty ts +:+ "_" +:+ pretty i +:+ ".jpg".

(** [for i in range(count)], over the rounds that are left. *)
Fixpoint generate_loop (prompt : string) (rounds : list nat)
    (generated_files : list (string * string))
  : M (list (string * string)) :=
  match rounds with
  | [] => ret generated_files
  | i :: rest =>
      response <- expect (generate_content prompt i)
                         "generate_content failed" ;;
      match response with
      | [] => generate_loop prompt rest generated_files
      | parts :: _ =>
          match first_inline_data parts with
          | None => generate_loop prompt rest generated_files
          | Some image_bytes =>
              let ts := time_time i in
              let filename := generated_name prompt ts i in
              blob_url <- upload_to_blob image_bytes filename "image/jpeg" ;;
              generate_loop prompt rest
                            (generated_files ++ [(blob_url, filename)])
          end
      end
  end.

(** The body of the handler inside its [try]. *)
Definition generate_image_body (data : option GenerateRequest)
  : M (Response (string * string)) :=
  if negb (Py.truthy GOOGLE_API_KEY)
  then ret (Error "GOOGLE_API_KEY not configured" 500)
  else
    match data ≫= (fun d => given (prompt d)) with
    | None => ret (Error "No prompt provided" 400)
    | Some prompt =>
        let count := clamp_count (data ≫= count) in
        generated_files <-
          generate_loop prompt (seq 0 (Z.to_nat count)) [] ;;
        match generated_files with
        | [] => ret (Error "Failed to generate any images. Check your prompt safety or API quota." 500)
        | _ => ret (Success generated_files)
        end
    end.

(** The handler: an exception is answered with its text and 500. *)
Definition generate_image (data : option GenerateRequest) (w : World)
  : Response (string * string) * World :=
  match generate_image_body data w with
  | (Ok response, w') => (response, w')
  | (Raise e, w') => (Error e 500, w')
  end.

End GenerateImage.

(** A model that gives one image in every round, at a clock that stands
    still. *)
Module Studio.

Definition generator : Generator := {|
  GOOGLE_API_KEY := "key";
  generate_content := fun _ _ => Some [[None; Some "image"]];
  time_time := fun _ => 1700000000
|}.

End Studio.

(* ===================================================================== *)
(** * [load_font] *)
(* ===================================================================== *)

Module Fonts.

(** What [ImageFont.truetype(candidate, size)] does with a file: a font,
    an [OSError], or another exception. *)
Inductive opened (font : Type) :=
| Opened (f : font)
| OSError
| OtherError (msg : string).
Arguments Opened {font} f.
Arguments OSError {font}.
Arguments OtherError {font} msg.

Section Loader.
Context `{Collaborators}.
(** The directory of [app.py], without a slash at its end. *)
Variable app_dir : string.
Variable truetype : bytes -> Z -> opened font.
Variable load_default : font.

Definition font_candidates : list string :=
  [ app_dir +:+ "/templates/fonts/Outfit-SemiBold.ttf";
    "/usr/share/fonts/truetype/dejavu/DejaVuSans.ttf";
    "/usr/share/fonts/truetype/liberation/LiberationSans-Regular.ttf";
    "/usr/share/fonts/truetype/freefont/FreeSans.ttf" ].

(** [for candidate in font_candidates], over the candidates that are
    left, then [ImageFont.load_default()]. *)
Fixpoint try_candidates (candidates : list string) (size : Z) : M font :=
  match candidates with
  | [] => ret load_default
  | candidate :: rest =>
      present <- path_exists candidate ;;
      if present : bool then
        data <- file_read candidate ;;
        match truetype data size with
        | Opened f => ret f
        | OSError => try_candidates rest size
        | OtherError msg => raise msg
        end
      else try_candidates rest size
  end.

Definition load_font (size : Z) : M font :=
  try_candidates font_candidates size.

(** A candidate that is skipped: no such file, or a file that
    [truetype] cannot open. *)
Definition skipped (w : World) (size : Z) (candidate : string) : Prop :=
  files w !! candidate = None
  \/ exists data, files w !! candidate = Some data
                  /\ truetype data size = OSError.

End Loader.

End Fonts.

(* ===================================================================== *)
(** * Arithmetic of the handlers *)
(* ===================================================================== *)

Lemma all_below_correct (k : nat) :
  forall base p, all_below k base p = true ->
  forall n, base <= n < base + 2 ^ Z.of_nat k -> p n = true.
Proof.
  induction k as [|k IH]; intros base p Hall n Hn.
  - simpl in Hn. assert (n = base) by lia. subst. exact Hall.
  - simpl in Hall. apply andb_prop in Hall as [Hlo Hhi].
    rewrite Nat2Z.inj_succ, Z.pow_succ_r in Hn by lia.
    destruct (Z_lt_ge_dec n (base + 2 ^ Z.of_nat k)).
    + apply (IH base); [exact Hlo | lia].
    + apply (IH (base + 2 ^ Z.of_nat k)); [exact Hhi | lia].
Qed.

(** A property checked on every side up to [max_dimension]. *)
Lemma checked_below (p : Z -> bool) :
  all_below dimension_bits 0 p = true ->
  forall n, 0 <= n < max_dimension -> p n = true.
Proof.
  intros Hall n Hn. apply (all_below_correct dimension_bits 0 p Hall).
  unfold max_dimension in Hn. lia.
Qed.

(** [int(n * 0.15)] is the integer part of fifteen hundredths of [n]. *)
Lemma int_mul_015 (n : Z) :
  0 <= n < max_dimension -> Py.int_mul n 0.15 = 15 * n / 100.
Proof.
  intros Hn. apply Z.eqb_eq.
  apply (checked_below (fun n => Py.int_mul n 0.15 =? 15 * n / 100)); [|exact Hn].
  vm_compute. reflexivity.
Qed.


(** [int(p * 0.5)] on a channel value is its half, rounded down. *)
Lemma half_alpha_div2 (p : Z) : 0 <= p <= 255 -> half_alpha p = p / 2.
Proof.
  intros Hp. apply Z.eqb_eq.
  apply (all_below_correct 8 0 (fun p => half_alpha p =? p / 2)).
  - vm_compute. reflexivity.
  - simpl. lia.
Qed.

Lemma footer_height_floor (h : Z) :
  0 <= h < max_dimension -> footer_height h = Z.max (15 * h / 100) 120.
Proof. intros Hh. unfold footer_height. now rewrite int_mul_015. Qed.

Lemma footer_height_min (h : Z) : 120 <= footer_height h.
Proof. unfold footer_height. lia. Qed.

(* ===================================================================== *)
(** * Strings *)
(* ===================================================================== *)

Lemma prefix_app (sub s : string) :
  Py.startswith s sub = true <-> exists post, s = sub +:+ post.
Proof.
  revert s. induction sub as [|c sub IH]; intros s; simpl.
  - split; [intros _; now exists s | reflexivity].
  - destruct s as [|d s].
    + split; [discriminate | intros [post Hpost]; discriminate].
    + rewrite andb_true_iff, Ascii.eqb_eq, IH. split.
      * intros [-> [post ->]]. now exists post.
      * intros [post Hpost]. inversion Hpost. split; [reflexivity | now exists post].
Qed.

(** [sub in s] holds exactly when [sub] occurs in [s]. *)
Lemma contains_occurs (sub s : string) :
  Py.contains sub s = true <-> exists pre post, s = pre +:+ sub +:+ post.
Proof.
  induction s as [|d s IH]; simpl.
  - rewrite orb_false_r, prefix_app. split.
    + intros [post Hpost]. now exists "", post.
    + intros [pre [post Hs]]. destruct pre; [now exists post | discriminate].
  - rewrite orb_true_iff, prefix_app, IH. split.
    + intros [[post Hpost] | [pre [post Hs]]].
      * now exists "", post.
      * exists (String d pre), post. simpl. now rewrite Hs.
    + intros [pre [post Hs]]. destruct pre as [|e pre]; simpl in Hs.
      * left. now exists post.
      * right. inversion Hs. now exists pre, post.
Qed.

Lemma has_char_occurs (c : ascii) (s : string) :
  Py.has_char c s = true <-> exists a b, s = a +:+ String c b.
Proof.
  induction s as [|d s IH]; simpl.
  - split; [discriminate | intros [a [b Hs]]; destruct a; discriminate].
  - rewrite orb_true_iff, IH, Ascii.eqb_eq. split.
    + intros [-> | [a [b Hs]]].
      * now exists "", s.
      * exists (String d a), b. simpl. now rewrite Hs.
    + intros [a [b Hs]]. destruct a as [|e a]; simpl in Hs; inversion Hs.
      * now left.
      * right. now exists a, b.
Qed.

(** [s.split(c)[0]] is what precedes the first [c]. *)
Lemma split_head_first (c : ascii) (s : string) :
  Py.has_char c s = true ->
  exists rest, s = Py.split_head c s +:+ String c rest
               /\ Py.has_char c (Py.split_head c s) = false.
Proof.
  induction s as [|d s IH]; simpl; [discriminate|].
  destruct (Ascii.eqb d c) eqn:Hdc; simpl.
  - intros _. apply Ascii.eqb_eq in Hdc as ->. now exists s.
  - intros Hs. destruct (IH Hs) as [rest [Heq Hno]].
    exists rest. split.
    + change (String d s = String d (Py.split_head c s +:+ String c rest)).
      f_equal. exact Heq.
    + simpl. rewrite Hdc. exact Hno.
Qed.

Lemma any_in_occurs (domains : list string) (s : string) :
  Py.any_in domains s = true <->
  exists d pre post, d ∈ domains /\ s = pre +:+ d +:+ post.
Proof.
  unfold Py.any_in. rewrite existsb_exists. split.
  - intros [d [Hin Hd]]. apply contains_occurs in Hd as [pre [post Hs]].
    exists d, pre, post. split; [now apply list_elem_of_In | exact Hs].
  - intros [d [pre [post [Hin Hs]]]]. exists d.
    split; [now apply list_elem_of_In|]. apply contains_occurs. now exists pre, post.
Qed.

(** C4. A QR payload in which one of the patterns [google.com/maps],
    [maps.google.com], [maps.app.goo.gl] occurs and which has a question
    mark is cut at its first question mark before it is encoded; the
    payload ["https://maps.google.com/maps?cid=123&extra=1"] becomes
    ["https://maps.google.com/maps"]; a payload in which no pattern
    occurs is encoded as it is; and the QR code [process_photos] makes is
    the encoding of the cleaned payload. *)
Theorem qr_payload_cleaned `{Collaborators} :
  (forall url,
      (maps_link url -> (exists a b, url = a +:+ String "?" b) ->
       exists head rest, url = head +:+ String "?" rest
                         /\ Py.has_char "?" head = false
                         /\ clean_qr_url url = head)
      /\ (~ maps_link url -> clean_qr_url url = url))
  /\ clean_qr_url "https://maps.google.com/maps?cid=123&extra=1"
     = "https://maps.google.com/maps"
  /\ (forall url w, Py.truthy url = true ->
        generate_qr (Some url) w =
        match make_qr (clean_qr_url url) with
        | Some qr => (Ok (Some (length (heap w))),
                      mkWorld (heap w ++ [qr]) (files w) (trace w))
        | None => (Ok None, w)
        end).
Proof.
  split; [|split].
  - intros url. split.
    + intros Hmaps Hq. unfold clean_qr_url.
      apply any_in_occurs in Hmaps. rewrite Hmaps.
      apply has_char_occurs in Hq. rewrite Hq. simpl.
      destruct (split_head_first "?" url Hq) as [rest [Heq Hno]].
      now exists (Py.split_head "?" url), rest.
    + intros Hno. unfold clean_qr_url.
      destruct (Py.any_in maps_domains url) eqn:Hany; [|reflexivity].
      apply any_in_occurs in Hany. contradiction.
  - reflexivity.
  - intros url w Hurl. unfold generate_qr, given. rewrite Hurl.
    unfold try_except, bind, expect. destruct (make_qr (clean_qr_url url)); reflexivity.
Qed.

Lemma qr_payload_cleaned_witness :
  exists head rest,
    "https://maps.app.goo.gl/abc?g_st=ic" = head +:+ String "?" rest
    /\ Py.has_char "?" head = false
    /\ clean_qr_url "https://maps.app.goo.gl/abc?g_st=ic" = head.
Proof.
  apply (proj1 (proj1 (@qr_payload_cleaned Demo.collaborators)
                  "https://maps.app.goo.gl/abc?g_st=ic")).
  - exists "maps.app.goo.gl", "https://", "/abc?g_st=ic".
    split; [|reflexivity]. unfold maps_domains. set_solver.
  - now exists "https://maps.app.goo.gl/abc", "g_st=ic".
Defined.

(* ===================================================================== *)
(** * The size of a thumbnail *)
(* ===================================================================== *)

Section ThumbnailSize.









End ThumbnailSize.




(* ===================================================================== *)
(** * The opacity of an overlay *)
(* ===================================================================== *)

Lemma half_alpha_monotone (a b : Z) :
  0 <= a -> a <= b -> b <= 255 -> half_alpha a <= half_alpha b.
Proof.
  intros Ha Hab Hb. rewrite !half_alpha_div2 by lia.
  apply Z.div_le_mono; lia.
Qed.

(** C3, as the code has it.  The opacity adjustment of an overlay leaves
    its size and its colours and replaces every alpha value [a] by
    [int(a * 0.5)], the half of [a] rounded down: at most half of [a], less
    than half by at most half a step, exactly half where [a] is even, and
    127 where the overlay was fully opaque; a pixel that was no more
    opaque than another is no more opaque than it afterwards. *)
Theorem opacity_halved (scaled : PIL.Image) (x y : Z) :
  let before := PIL.getpixel scaled x y in
  let after := PIL.getpixel (fade scaled) x y in
  0 <= PIL.alpha before <= 255 ->
  PIL.alpha after = PIL.alpha before / 2
  /\ 2 * PIL.alpha after <= PIL.alpha before <= 2 * PIL.alpha after + 1
  /\ (Z.even (PIL.alpha before) = true -> 2 * PIL.alpha after = PIL.alpha before)
  /\ (PIL.alpha before = 255 -> PIL.alpha after = 127)
  /\ (forall x' y',
         0 <= PIL.alpha (PIL.getpixel scaled x' y') <= PIL.alpha before ->
         PIL.alpha (PIL.getpixel (fade scaled) x' y') <= PIL.alpha after)
  /\ PIL.red after = PIL.red before
  /\ PIL.green after = PIL.green before
  /\ PIL.blue after = PIL.blue before
  /\ PIL.size (fade scaled) = PIL.size scaled.
Proof.
  intros before after Ha. subst before after. unfold fade. simpl.
  unfold PIL.point, PIL.getalpha.
  set (a := PIL.alpha (PIL.getpixel scaled x y)) in *.
  rewrite (half_alpha_div2 a Ha).
  pose proof (Z.mul_div_le a 2 ltac:(lia)) as Hlo.
  pose proof (Z.mul_succ_div_gt a 2 ltac:(lia)) as Hhi.
  repeat split; try reflexivity; try lia.
  - intros Heven. apply Z.even_spec in Heven as [k Hk]. lia.
  - intros x' y' Hle. rewrite <- (half_alpha_div2 a Ha).
    apply half_alpha_monotone; lia.
Qed.

Lemma opacity_halved_witness :
  let scaled := Demo.plain 2 2 (PIL.RGBA 200 0 0 255) in
  PIL.alpha (PIL.getpixel (fade scaled) 1 1) = 255 / 2.
Proof.
  destruct (opacity_halved (Demo.plain 2 2 (PIL.RGBA 200 0 0 255)) 1 1)
    as [Hhalf _].
  - simpl. lia.
  - exact Hhalf.
Defined.

(** C3, as the specification states it, fails where the overlay is fully
    opaque: the adjusted alpha of 255 is 127, and twice 127 is not 255. *)
Lemma opaque_alpha_not_exactly_half :
  let scaled := Demo.plain 1 1 (PIL.RGBA 0 0 0 255) in
  PIL.alpha (PIL.getpixel scaled 0 0) = 255
  /\ PIL.alpha (PIL.getpixel (fade scaled) 0 0) = 127
  /\ 2 * PIL.alpha (PIL.getpixel (fade scaled) 0 0) <> 255.
Proof. vm_compute. repeat split; [reflexivity..|discriminate]. Qed.

(* ===================================================================== *)
(** * The composer on objects computes the canvas on values *)
(* ===================================================================== *)

Section Refinement.
Context `{Collaborators}.

Lemma lookup_snoc (h : list PIL.Image) (x : PIL.Image) :
  (h ++ [x]) !! length h = Some x.
Proof. now apply list_lookup_middle. Qed.

Lemma insert_snoc (h : list PIL.Image) (x y : PIL.Image) :
  <[length h := y]> (h ++ [x]) = h ++ [y].
Proof.
  rewrite insert_app_r_alt by lia. now rewrite Nat.sub_diag.
Qed.

Lemma source_yields (i : overlay_input) (w : World) :
  yields (source_of i) w (overlay_image i w).
Proof.
  destruct w as [h f t]. destruct i as [[r|]|[p|]]; simpl.
  - destruct (h !! r) as [o|] eqn:Hr; simpl;
      unfold Image_copy, bind, deref, alloc; simpl; rewrite Hr.
    + split; reflexivity.
    + right. split; [reflexivity|]. eauto.
  - now left.
  - destruct (f !! p) as [data|] eqn:Hp; simpl.
    + destruct (image_open false data) as [o|] eqn:Ho; simpl;
        unfold path_exists, file_read, Image_open, bind, expect, alloc;
        simpl; rewrite Hp, ?Ho; simpl.
      * split; reflexivity.
      * right. split; [reflexivity|]. eauto.
    + left. unfold path_exists. simpl. now rewrite Hp.
  - now left.
Qed.

Lemma place_overlay_spec (src : overlay_source) (w : World)
    (overlay : option PIL.Image) (clean : ref) (c : PIL.Image)
    (bound : Z * Z) (position : Z -> Z * Z) :
  yields src w overlay -> heap w !! clean = Some c ->
  exists extra,
    place_overlay src clean bound position w =
    (Ok tt, mkWorld (<[clean := overlay_on overlay bound position c]> (heap w)
                     ++ extra) (files w) (trace w)).
Proof.
  destruct w as [h f t]. simpl. intros Hy Hc.
  assert (clean < length h)%nat as Hlt by (eapply lookup_lt_Some; eauto).
  unfold place_overlay, overlay_on, prepared, bind.
  destruct overlay as [o|]; simpl in Hy.
  - destruct Hy as [Hp Ha]. rewrite Hp. unfold try_except, bind. rewrite Ha.
    unfold Image_thumbnail, bind, deref. simpl. rewrite lookup_snoc.
    destruct (PIL.thumbnail LANCZOS o bound) as [scaled|]; simpl.
    + unfold Image_putalpha, Image_paste, bind, deref, assign. simpl.
      repeat (rewrite ?insert_snoc, ?lookup_snoc; simpl).
      rewrite lookup_app_l by exact Hlt. rewrite Hc. simpl.
      repeat (rewrite ?insert_snoc, ?lookup_snoc; simpl).
      rewrite insert_app_l by exact Hlt.
      eexists. reflexivity.
    + exists [o]. now rewrite list_insert_id.
  - exists []. rewrite app_nil_r, list_insert_id by exact Hc.
    destruct Hy as [Hp | [Hp [e Ha]]]; rewrite Hp; [reflexivity|].
    unfold try_except, bind. now rewrite Ha.
Qed.

Lemma bind_ok {A B} (m : M A) (k : A -> M B) (w w' : World) (a : A) :
  m w = (Ok a, w') -> bind m k w = k a w'.
Proof. intros Hm. unfold bind. now rewrite Hm. Qed.

Lemma bind_raise {A B} (m : M A) (k : A -> M B) (w w' : World) (e : string) :
  m w = (Raise e, w') -> bind m k w = (Raise e, w').
Proof. intros Hm. unfold bind. now rewrite Hm. Qed.

Lemma deref_ok (w : World) (r : ref) (im : PIL.Image) :
  heap w !! r = Some im -> deref r w = (Ok im, w).
Proof. intros Hr. unfold deref. now rewrite Hr. Qed.

Lemma Image_paste_ok (w : World) (self im mask : ref) (s i m : PIL.Image)
    (box : Z * Z) :
  heap w !! self = Some s -> heap w !! im = Some i ->
  heap w !! mask = Some m ->
  Image_paste self im box mask w =
  (Ok tt, mkWorld (<[self := PIL.paste s i box m]> (heap w))
                  (files w) (trace w)).
Proof.
  intros Hs Hi Hm. unfold Image_paste.
  rewrite (bind_ok _ _ _ _ _ (deref_ok _ _ _ Hs)).
  rewrite (bind_ok _ _ _ _ _ (deref_ok _ _ _ Hi)).
  rewrite (bind_ok _ _ _ _ _ (deref_ok _ _ _ Hm)).
  reflexivity.
Qed.

(** An overlay is the same in a world that differs in new objects
    only. *)
Lemma overlay_image_stable (i : overlay_input) (w w' : World) :
  valid_input i w -> files w' = files w ->
  (forall r, (r < length (heap w))%nat -> heap w' !! r = heap w !! r) ->
  overlay_image i w' = overlay_image i w.
Proof.
  intros Hv Hf Hh. destruct i as [[r|]|[p|]]; simpl in *; try reflexivity.
  - now apply Hh.
  - now rewrite Hf.
Qed.

Lemma Draw_text_run (w : World) (im : ref) (s : PIL.Image) (xy : Z * Z)
    (text : string) (f : font) :
  heap w !! im = Some s ->
  Draw_text im xy text f w =
  match draw_text s xy text f with
  | Some px =>
      (Ok tt, mkWorld (<[im := PIL.mkImage (PIL.width s) (PIL.height s) px]>
                         (heap w)) (files w) (trace w))
  | None => (Raise "cannot render text", w)
  end.
Proof.
  intros Hs. unfold Draw_text.
  rewrite (bind_ok _ _ _ _ _ (deref_ok _ _ _ Hs)).
  destruct (draw_text s xy text f); reflexivity.
Qed.

Lemma draw_lines_spec (draw : ref) (xc sp : Z) (data : list line_datum) :
  forall (y : Z) (w : World) (canvas : PIL.Image),
    heap w !! draw = Some canvas ->
    exists c',
      draw_lines draw xc sp y data w =
      (match lines_on xc sp y data canvas with
       | Some _ => Ok tt
       | None => Raise "cannot render text"
       end,
       mkWorld (<[draw := c']> (heap w)) (files w) (trace w))
      /\ (forall final, lines_on xc sp y data canvas = Some final -> c' = final).
Proof.
  induction data as [|d rest IH]; intros y w canvas Hd;
    cbn [draw_lines lines_on].
  - exists canvas. rewrite list_insert_id by exact Hd.
    destruct w. split; [reflexivity | congruence].
  - unfold bind at 1. rewrite (Draw_text_run _ _ _ _ _ _ Hd).
    destruct (draw_text canvas (xc - ld_w d / 2, y) (ld_text d) (ld_font d))
      as [px|] eqn:Hpx.
    + set (im1 := PIL.mkImage (PIL.width canvas) (PIL.height canvas) px).
      set (w1 := mkWorld (<[draw := im1]> (heap w)) (files w) (trace w)).
      assert (heap w1 !! draw = Some im1) as Hd1.
      { simpl. apply list_lookup_insert_eq. eapply lookup_lt_Some; eauto. }
      destruct (IH (y + ld_h d + sp) w1 im1 Hd1) as [c' [Hrun Hfin]].
      exists c'. rewrite Hrun. simpl. rewrite list_insert_insert_eq.
      split; [reflexivity | exact Hfin].
    + exists canvas. rewrite list_insert_id by exact Hd.
      destruct w. split; [reflexivity | discriminate].
Qed.

Lemma draw_footer_text_spec (c : Caption) (draw : ref) (lines : list string)
    (rect : Z * Z * Z * Z) (fsb : Z) (w : World) (canvas : PIL.Image) :
  heap w !! draw = Some canvas ->
  exists c',
    draw_footer_text c draw lines rect fsb w =
    (match caption_on c lines rect fsb canvas with
     | Some _ => Ok tt
     | None => Raise "cannot render text"
     end,
     mkWorld (<[draw := c']> (heap w)) (files w) (trace w))
    /\ (forall final, caption_on c lines rect fsb canvas = Some final ->
                      c' = final).
Proof.
  intros Hd. unfold draw_footer_text, caption_on.
  destruct lines as [|l ls].
  - exists canvas. rewrite list_insert_id by exact Hd.
    destruct w. split; [reflexivity | congruence].
  - destruct rect as [[[r0 r1] r2] r3]. now apply draw_lines_spec.
Qed.

Lemma caption_step (c : Caption) (draw : ref) (lines : list string)
    (rect : Z * Z * Z * Z) (fsb : Z) :
  match lines with
  | [] => ret tt
  | _ => draw_footer_text c draw lines rect fsb
  end = draw_footer_text c draw lines rect fsb.
Proof. now destruct lines. Qed.

Lemma lookup_old (h l : list PIL.Image) (r : ref) :
  (r < length h)%nat -> (h ++ l) !! r = h !! r.
Proof. intros Hr. now apply lookup_app_l. Qed.

(** The composer returns the second object it makes, which holds the
    canvas of the photo and the overlays as they are in the world it
    starts in; it raises when the caption cannot be rendered; it only
    adds objects to the heap. *)
Lemma compose_spec (c : Caption) (logo qr : overlay_input)
    (pn pc : string) (img : ref) (im : PIL.Image) (w : World) :
  heap w !! img = Some im -> valid_input logo w -> valid_input qr w ->
  exists extra,
    compose c (source_of logo) (source_of qr) pn pc img w =
    (match canvas_of c (overlay_image logo w) (overlay_image qr w) pn pc im
     with
     | Some _ => Ok (S (length (heap w)))
     | None => Raise "cannot render text"
     end,
     mkWorld (heap w ++ extra) (files w) (trace w))
    /\ (forall canvas,
          canvas_of c (overlay_image logo w) (overlay_image qr w) pn pc im
          = Some canvas ->
          (heap w ++ extra) !! S (length (heap w)) = Some canvas).
Proof.
  intros Him Hvl Hvq.
  assert (img < length (heap w))%nat as Hlt by (eapply lookup_lt_Some; eauto).
  destruct w as [h f t]. cbn [heap files trace] in *.
  set (p0 := PIL.paste (PIL.new (PIL.size im) PIL.white) im (0, 0) im).
  set (h1 := h ++ [p0]).
  assert (length h1 = S (length h)) as Hlen1.
  { unfold h1. rewrite length_app. simpl. lia. }
  set (base := base_canvas im).
  unfold compose.
  rewrite (bind_ok _ _ _ _ _ (deref_ok (mkWorld h f t) _ _ Him)).
  erewrite bind_ok; [|reflexivity]. cbn [heap files trace].
  erewrite bind_ok;
    [|apply (Image_paste_ok _ _ _ _ (PIL.new (PIL.size im) PIL.white) im im);
      cbn [heap]; [apply lookup_snoc | now rewrite lookup_old
                                     | now rewrite lookup_old]].
  cbn [heap files trace]. rewrite insert_snoc. fold p0. fold h1.
  erewrite bind_ok; [|reflexivity]. cbn [heap files trace].
  erewrite bind_ok;
    [|apply (Image_paste_ok _ _ _ _
               (PIL.new (PIL.width im,
                         PIL.height im + footer_height (PIL.height im))
                        PIL.white) im im);
      cbn [heap];
      [apply lookup_snoc
      | rewrite lookup_old by lia; unfold h1; now rewrite lookup_old
      | rewrite lookup_old by lia; unfold h1; now rewrite lookup_old]].
  cbn [heap files trace]. rewrite insert_snoc. fold (base_canvas im). fold base.
  (* the logo *)
  set (w2 := mkWorld (h1 ++ [base]) f t).
  assert (forall r, (r < length h)%nat -> heap w2 !! r = h !! r) as Hold2.
  { intros r Hr. simpl. rewrite lookup_old by lia. unfold h1.
    now rewrite lookup_old. }
  pose proof (source_yields logo w2) as Hyl.
  rewrite (overlay_image_stable logo (mkWorld h f t) w2 Hvl eq_refl Hold2) in Hyl.
  destruct (place_overlay_spec _ w2 _ (length h1) base
              (logo_box (PIL.width im))
              (fun _ => (side_padding (PIL.width im),
                         side_padding (PIL.width im)))
              Hyl (lookup_snoc h1 base)) as [extra1 Hrun1].
  rewrite (bind_ok _ _ _ _ _ Hrun1). unfold w2. cbn [heap files trace].
  rewrite insert_snoc.
  set (c1 := overlay_on (overlay_image logo (mkWorld h f t)) (logo_box (PIL.width im)) _ base).
  (* the QR code *)
  set (w3 := mkWorld ((h1 ++ [c1]) ++ extra1) f t).
  assert (forall r, (r < length h)%nat -> heap w3 !! r = h !! r) as Hold3.
  { intros r Hr. simpl. rewrite lookup_old by (rewrite length_app; lia).
    rewrite lookup_old by lia. unfold h1. now rewrite lookup_old. }
  assert (heap w3 !! length h1 = Some c1) as Hc1.
  { simpl. rewrite lookup_old by (rewrite length_app; simpl; lia).
    apply lookup_snoc. }
  pose proof (source_yields qr w3) as Hyq.
  rewrite (overlay_image_stable qr (mkWorld h f t) w3 Hvq eq_refl Hold3) in Hyq.
  destruct (place_overlay_spec _ w3 _ (length h1) c1 qr_box
              (fun qr_width =>
                 (PIL.width im - qr_width - side_padding (PIL.width im),
                  side_padding (PIL.width im)))
              Hyq Hc1) as [extra2 Hrun2].
  rewrite (bind_ok _ _ _ _ _ Hrun2). unfold w3. cbn [heap files trace].
  rewrite insert_app_l by (rewrite length_app; simpl; lia).
  rewrite insert_snoc.
  set (c2 := overlay_on (overlay_image qr (mkWorld h f t)) qr_box _ c1).
  (* the caption *)
  rewrite caption_step.
  set (w4 := mkWorld (((h1 ++ [c2]) ++ extra1) ++ extra2) f t).
  assert (heap w4 !! length h1 = Some c2) as Hc2.
  { simpl. rewrite !lookup_old by (rewrite ?length_app; simpl; lia).
    apply lookup_snoc. }
  destruct (draw_footer_text_spec c (length h1)
              (branding_lines pn pc)
              (0, PIL.height im, PIL.width im,
               PIL.height im + footer_height (PIL.height im))
              (font_size_base c (footer_height (PIL.height im)))
              w4 c2 Hc2) as [c' [Hrun Hfin]].
  exists ([p0; c'] ++ extra1 ++ extra2).
  assert (<[length h1 := c']> (heap w4) = h ++ [p0; c'] ++ extra1 ++ extra2)
    as Hheap.
  { simpl. rewrite !insert_app_l by (rewrite ?length_app; simpl; lia).
    rewrite insert_snoc. unfold h1. now rewrite <- !app_assoc. }
  rewrite Hheap in Hrun.
  change (canvas_of c (overlay_image logo (mkWorld h f t)) (overlay_image qr (mkWorld h f t)) pn pc im)
    with (caption_on c (branding_lines pn pc)
            (0, PIL.height im, PIL.width im,
             PIL.height im + footer_height (PIL.height im))
            (font_size_base c (footer_height (PIL.height im))) c2).
  destruct (caption_on c (branding_lines pn pc) _ _ c2) as [final|] eqn:Hcap.
  - rewrite (bind_ok _ _ _ _ _ Hrun). unfold ret. rewrite Hlen1.
    split; [reflexivity|].
    intros canvas Hcanvas. injection Hcanvas as <-.
    rewrite (Hfin final eq_refl).
    rewrite lookup_app_r by lia.
    replace (S (length h) - length h)%nat with 1%nat by lia. reflexivity.
  - rewrite (bind_raise _ _ _ _ _ Hrun). split; [reflexivity | discriminate].
Qed.

End Refinement.

(* ===================================================================== *)
(** * The pixels of the canvas *)
(* ===================================================================== *)

Section Pixels.
Context `{Collaborators}.

Lemma DIV255_exact (c : Z) : 0 <= c <= 255 -> PIL.DIV255 (c * 255) = c.
Proof.
  intros Hc. apply Z.eqb_eq.
  apply (all_below_correct 8 0 (fun c => PIL.DIV255 (c * 255) =? c)).
  - vm_compute. reflexivity.
  - simpl. lia.
Qed.

(** A mask of 0 keeps the target. *)
Lemma BLEND8_transparent (out inp : Z) :
  0 <= out <= 255 -> PIL.BLEND8 0 out inp = out.
Proof.
  intros Ho. unfold PIL.BLEND8.
  replace (out * (255 - 0) + inp * 0) with (out * 255) by lia.
  now apply DIV255_exact.
Qed.

(** A mask of 255 takes the source. *)
Lemma BLEND8_opaque (out inp : Z) :
  0 <= inp <= 255 -> PIL.BLEND8 255 out inp = inp.
Proof.
  intros Hi. unfold PIL.BLEND8.
  replace (out * (255 - 255) + inp * 255) with (inp * 255) by lia.
  now apply DIV255_exact.
Qed.

Lemma blend_white_transparent (p : PIL.pixel) :
  PIL.blend_pixel 0 PIL.white p = PIL.white.
Proof.
  unfold PIL.blend_pixel, PIL.white. simpl.
  now rewrite !BLEND8_transparent by lia.
Qed.

(** A well-formed pixel: four channels of 8 bits. *)
Lemma blend_opaque (out p : PIL.pixel) :
  0 <= PIL.red p <= 255 -> 0 <= PIL.green p <= 255 ->
  0 <= PIL.blue p <= 255 -> PIL.alpha p = 255 ->
  PIL.blend_pixel 255 out p = p.
Proof.
  intros Hr Hg Hb Ha. unfold PIL.blend_pixel.
  rewrite !BLEND8_opaque by lia. now destruct p.
Qed.

Lemma base_canvas_size (im : PIL.Image) :
  PIL.width (base_canvas im) = PIL.width im
  /\ PIL.height (base_canvas im)
     = PIL.height im + footer_height (PIL.height im).
Proof. split; reflexivity. Qed.

(** The pixels of the canvas under the photo are those of the photo
    blended on white by its alpha; the others are white. *)
Lemma base_canvas_pixel (im : PIL.Image) (x y : Z) :
  PIL.getpixel (base_canvas im) x y =
  if PIL.in_rect 0 0 (PIL.width im) (PIL.height im) x y
  then PIL.blend_pixel (PIL.alpha (PIL.getpixel im x y)) PIL.white
                       (PIL.getpixel im x y)
  else PIL.white.
Proof.
  unfold base_canvas, PIL.paste, PIL.new. cbn [PIL.getpixel PIL.width PIL.height fst snd].
  rewrite !Z.sub_0_r.
  destruct (PIL.in_rect 0 0 (PIL.width im) (PIL.height im) x y) eqn:Hin;
    [|reflexivity].
  assert (PIL.in_rect 0 0 (PIL.width im)
            (PIL.height im + footer_height (PIL.height im)) x y = true) as ->.
  { pose proof (footer_height_min (PIL.height im)).
    unfold PIL.in_rect in *.
    repeat (apply andb_prop in Hin as [Hin ?]).
    repeat (apply andb_true_intro; split); try assumption. lia. }
  reflexivity.
Qed.

Lemma overlay_on_size (overlay : option PIL.Image) (bound : Z * Z)
    (position : Z -> Z * Z) (canvas : PIL.Image) :
  PIL.size (overlay_on overlay bound position canvas) = PIL.size canvas.
Proof.
  unfold overlay_on. destruct (prepared overlay bound) as [faded|];
    [|reflexivity].
  unfold PIL.paste. now destruct (position (PIL.width faded)).
Qed.

(** An overlay changes the canvas inside its rectangle only. *)
Lemma overlay_on_outside (overlay : option PIL.Image) (bound : Z * Z)
    (position : Z -> Z * Z) (canvas : PIL.Image) (x y : Z) :
  covers (prepared overlay bound) position x y = false ->
  PIL.getpixel (overlay_on overlay bound position canvas) x y
  = PIL.getpixel canvas x y.
Proof.
  unfold overlay_on, covers.
  destruct (prepared overlay bound) as [faded|]; [|reflexivity].
  unfold PIL.paste. destruct (position (PIL.width faded)) as [x0 y0].
  intros Hout. cbn [PIL.getpixel]. now rewrite Hout.
Qed.

Lemma lines_on_size (xc sp : Z) (data : list line_datum) :
  forall (y : Z) (canvas final : PIL.Image),
    lines_on xc sp y data canvas = Some final ->
    PIL.size final = PIL.size canvas.
Proof.
  induction data as [|d rest IH]; intros y canvas final; simpl.
  - now intros [= <-].
  - destruct (draw_text canvas _ _ _) as [px|]; [|discriminate].
    intros Hfinal. now rewrite (IH _ _ _ Hfinal).
Qed.

Lemma canvas_of_size (c : Caption) (logo qr : option PIL.Image)
    (pn pc : string) (im canvas : PIL.Image) :
  canvas_of c logo qr pn pc im = Some canvas ->
  PIL.width canvas = PIL.width im
  /\ PIL.height canvas = PIL.height im + footer_height (PIL.height im).
Proof.
  unfold canvas_of, caption_on, overlaid. intros Hc.
  assert (PIL.size canvas = PIL.size (base_canvas im)) as Hsize.
  { rewrite <- (overlay_on_size logo (logo_box (PIL.width im))
                  (fun _ => (side_padding (PIL.width im),
                             side_padding (PIL.width im))) (base_canvas im)).
    rewrite <- (overlay_on_size qr qr_box
                  (fun qr_width =>
                     (PIL.width im - qr_width - side_padding (PIL.width im),
                      side_padding (PIL.width im)))
                  (overlay_on logo _ _ (base_canvas im))).
    destruct (branding_lines pn pc).
    - now injection Hc as <-.
    - now apply lines_on_size in Hc. }
  unfold PIL.size in Hsize. injection Hsize as Hw Hh.
  now rewrite Hw, Hh.
Qed.

(** Without a caption the canvas is the photo with its overlays. *)
Lemma canvas_of_no_caption (c : Caption) (logo qr : option PIL.Image)
    (im : PIL.Image) :
  canvas_of c logo qr "" "" im = Some (overlaid logo qr im).
Proof. reflexivity. Qed.

(** Outside the overlays the canvas with overlays is the canvas with the
    photo only. *)
Lemma overlaid_outside (logo qr : option PIL.Image) (im : PIL.Image)
    (x y : Z) :
  let pad := side_padding (PIL.width im) in
  covers (prepared logo (logo_box (PIL.width im))) (fun _ => (pad, pad)) x y
  = false ->
  covers (prepared qr qr_box)
         (fun qr_width => (PIL.width im - qr_width - pad, pad)) x y
  = false ->
  PIL.getpixel (overlaid logo qr im) x y = PIL.getpixel (base_canvas im) x y.
Proof.
  intros pad Hl Hq. unfold overlaid.
  rewrite overlay_on_outside by exact Hq.
  now rewrite overlay_on_outside by exact Hl.
Qed.

End Pixels.

(* ===================================================================== *)
(** * The footer band *)
(* ===================================================================== *)

(** C1, as the code has it.  For a photo of width [W] and height [H]
    (below [max_dimension]) whose caption can be rendered, the composer of
    either handler returns a canvas of size [(W, H + footer_height)] with
    [footer_height = max(int(0.15 * H), 120)], the integer part of
    [0.15 * H] and not its rounding.  The canvas starts as the photo pasted
    at [(0, 0)] through its own alpha on opaque white: it is white below
    the photo and wherever the photo is transparent, and it is the photo
    wherever the photo is opaque; without a caption these are the pixels of
    the output wherever no overlay lies. *)
Theorem footer_band_added `{Collaborators} (c : Caption)
    (logo qr : overlay_input) (pn pc : string) (img : ref)
    (im canvas : PIL.Image) (w : World) :
  heap w !! img = Some im -> valid_input logo w -> valid_input qr w ->
  0 <= PIL.height im < max_dimension ->
  canvas_of c (overlay_image logo w) (overlay_image qr w) pn pc im
  = Some canvas ->
  let pad := side_padding (PIL.width im) in
  let logo_covers :=
    covers (prepared (overlay_image logo w) (logo_box (PIL.width im)))
           (fun _ => (pad, pad)) in
  let qr_covers :=
    covers (prepared (overlay_image qr w) qr_box)
           (fun qr_width => (PIL.width im - qr_width - pad, pad)) in
  exists w',
    compose c (source_of logo) (source_of qr) pn pc img w
    = (Ok (S (length (heap w))), w')
    /\ heap w' !! S (length (heap w)) = Some canvas
    /\ PIL.width canvas = PIL.width im
    /\ PIL.height canvas = PIL.height im + footer_height (PIL.height im)
    /\ footer_height (PIL.height im) = Z.max (15 * PIL.height im / 100) 120
    /\ (forall x y, PIL.height im <= y ->
          PIL.getpixel (base_canvas im) x y = PIL.white)
    /\ (forall x y, PIL.alpha (PIL.getpixel im x y) = 0 ->
          PIL.getpixel (base_canvas im) x y = PIL.white)
    /\ (forall x y,
          let p := PIL.getpixel im x y in
          0 <= x < PIL.width im -> 0 <= y < PIL.height im ->
          0 <= PIL.red p <= 255 -> 0 <= PIL.green p <= 255 ->
          0 <= PIL.blue p <= 255 -> PIL.alpha p = 255 ->
          PIL.getpixel (base_canvas im) x y = p)
    /\ (pn = "" -> pc = "" ->
        forall x y, logo_covers x y = false -> qr_covers x y = false ->
          PIL.getpixel canvas x y = PIL.getpixel (base_canvas im) x y).
Proof.
  intros Him Hvl Hvq Hh Hcanvas pad logo_covers qr_covers.
  destruct (compose_spec c logo qr pn pc img im w Him Hvl Hvq)
    as [extra [Hrun Hlook]].
  rewrite Hcanvas in Hrun.
  destruct (canvas_of_size _ _ _ _ _ _ _ Hcanvas) as [Hwidth Hheight].
  eexists. split; [exact Hrun|]. cbn [heap].
  split; [now apply Hlook|].
  split; [exact Hwidth|]. split; [exact Hheight|].
  split; [now apply footer_height_floor|].
  split; [|split; [|split]].
  - intros x y Hy. rewrite base_canvas_pixel.
    destruct (PIL.in_rect 0 0 (PIL.width im) (PIL.height im) x y) eqn:Hin;
      [|reflexivity].
    unfold PIL.in_rect in Hin. repeat (apply andb_prop in Hin as [Hin ?]). lia.
  - intros x y Ha. rewrite base_canvas_pixel, Ha.
    destruct (PIL.in_rect _ _ _ _ x y); [|reflexivity].
    apply blend_white_transparent.
  - intros x y Hx Hy Hr Hg Hb Ha. rewrite base_canvas_pixel.
    assert (PIL.in_rect 0 0 (PIL.width im) (PIL.height im) x y = true) as ->.
    { unfold PIL.in_rect. repeat (apply andb_true_intro; split); lia. }
    rewrite Ha. now apply blend_opaque.
  - intros -> -> x y Hl Hq. rewrite canvas_of_no_caption in Hcanvas.
    injection Hcanvas as <-. now apply overlaid_outside.
Qed.

Section FooterWitness.
#[local] Existing Instance Demo.collaborators.

Lemma footer_band_added_witness :
let im := Demo.plain 1000 800 (PIL.RGBA 10 20 30 255) in
let w := mkWorld [im] ∅ [] in
exists w',
  @compose Demo.collaborators blob_caption
     (source_of (Held None)) (source_of (Held None)) "" "" 0%nat w
  = (Ok 2%nat, w')
  /\ heap w' !! 2%nat = Some (overlaid None None im).
Proof.
intros im w.
destruct (@footer_band_added Demo.collaborators blob_caption
            (Held None) (Held None) "" "" 0%nat im
            (overlaid None None im) w)
  as (w' & Hrun & Hlook & _).
- reflexivity.
- exact I.
- exact I.
- unfold max_dimension, dimension_bits. simpl. lia.
- reflexivity.
- exists w'. split; [exact Hrun | exact Hlook].
Defined.

End FooterWitness.

(** C1, as the specification states it, fails: for a photo 804 pixels
    high the footer is 120 pixels, the integer part of 120.6, where the
    rounding of the specification gives 121. *)
Lemma footer_height_truncates :
  footer_height 804 = 120
  /\ spec_footer_height 804 = 121
  /\ footer_height 804 <> spec_footer_height 804.
Proof. vm_compute. repeat split; [reflexivity..|discriminate]. Qed.

(** C8. Drawing the caption of no lines does nothing.  When the practice
    name and the plus code are both empty the composer of either handler
    returns, nothing is drawn, and every pixel of the footer band that no
    overlay covers is plain white. *)
Theorem no_caption_footer_white `{Collaborators} (c : Caption)
    (logo qr : overlay_input) (img : ref) (im : PIL.Image) (w : World) :
  heap w !! img = Some im -> valid_input logo w -> valid_input qr w ->
  let pad := side_padding (PIL.width im) in
  let logo_covers :=
    covers (prepared (overlay_image logo w) (logo_box (PIL.width im)))
           (fun _ => (pad, pad)) in
  let qr_covers :=
    covers (prepared (overlay_image qr w) qr_box)
           (fun qr_width => (PIL.width im - qr_width - pad, pad)) in
  (forall draw rect size w1,
      draw_footer_text c draw [] rect size w1 = (Ok tt, w1))
  /\ branding_lines "" "" = []
  /\ exists w' canvas,
       compose c (source_of logo) (source_of qr) "" "" img w
       = (Ok (S (length (heap w))), w')
       /\ heap w' !! S (length (heap w)) = Some canvas
       /\ files w' = files w /\ trace w' = trace w
       /\ PIL.height canvas = PIL.height im + footer_height (PIL.height im)
       /\ forall x y,
            PIL.height im <= y ->
            logo_covers x y = false -> qr_covers x y = false ->
            PIL.getpixel canvas x y = PIL.white.
Proof.
  intros Him Hvl Hvq pad logo_covers qr_covers.
  split; [reflexivity|]. split; [reflexivity|].
  destruct (compose_spec c logo qr "" "" img im w Him Hvl Hvq)
    as [extra [Hrun Hlook]].
  rewrite canvas_of_no_caption in Hrun, Hlook.
  eexists. exists (overlaid (overlay_image logo w) (overlay_image qr w) im).
  split; [exact Hrun|]. cbn [heap files trace].
  split; [now apply Hlook|]. split; [reflexivity|]. split; [reflexivity|].
  split.
  - apply (canvas_of_size c (overlay_image logo w) (overlay_image qr w)
             "" "" im).
    apply canvas_of_no_caption.
  - intros x y Hy Hl Hq. rewrite overlaid_outside by assumption.
    rewrite base_canvas_pixel.
    destruct (PIL.in_rect 0 0 (PIL.width im) (PIL.height im) x y) eqn:Hin;
      [|reflexivity].
    unfold PIL.in_rect in Hin. repeat (apply andb_prop in Hin as [Hin ?]). lia.
Qed.

Section CaptionWitness.
#[local] Existing Instance Demo.collaborators.

Lemma no_caption_footer_white_witness :
let im := Demo.plain 1000 800 (PIL.RGBA 10 20 30 255) in
let logo := Demo.plain 800 200 (PIL.RGBA 200 0 0 255) in
let w := mkWorld [logo; im] ∅ [] in
exists w' canvas,
  @compose Demo.collaborators blob_caption
     (source_of (Held (Some 0%nat))) (source_of (Held None)) "" "" 1%nat w
  = (Ok 3%nat, w')
  /\ heap w' !! 3%nat = Some canvas
  /\ PIL.getpixel canvas 500 900 = PIL.white.
Proof.
intros im logo w.
destruct (@no_caption_footer_white Demo.collaborators blob_caption
            (Held (Some 0%nat)) (Held None) 1%nat im w)
  as (_ & _ & w' & canvas & Hrun & Hlook & _ & _ & _ & Hwhite).
- reflexivity.
- simpl. lia.
- exact I.
- exists w', canvas. split; [exact Hrun|]. split; [exact Hlook|].
  apply Hwhite.
  + simpl. lia.
  + vm_compute. reflexivity.
  + reflexivity.
Defined.

End CaptionWitness.

(* ===================================================================== *)
(** * [process_photos] computes the outcomes on values *)
(* ===================================================================== *)

Section BlobRefinement.
Context `{Collaborators}.

Lemma download_run (url : string) (w : World) :
  download_from_url url w =
  (match requests_get url with
   | Some data => Ok data
   | None => Raise "Failed to download from URL"
   end,
   mkWorld (heap w) (files w) (trace w ++ [EvGet url])).
Proof.
  unfold download_from_url, bind, emit, expect.
  destruct (requests_get url); reflexivity.
Qed.

Lemma Image_open_run (transpose : bool) (data : bytes) (w : World) :
  Image_open transpose data w =
  match image_open transpose data with
  | Some im => (Ok (length (heap w)),
                mkWorld (heap w ++ [im]) (files w) (trace w))
  | None => (Raise "cannot identify image file", w)
  end.
Proof.
  unfold Image_open, bind, expect. destruct (image_open transpose data);
    reflexivity.
Qed.

Lemma upload_to_blob_run (content : bytes) (name ct : string) (w : World) :
  upload_to_blob content name ct w =
  if Py.truthy BLOB_READ_WRITE_TOKEN
  then (match requests_put name ct content with
        | Some url => Ok url
        | None => Raise "Failed to upload to Blob"
        end,
        mkWorld (heap w) (files w) (trace w ++ [EvBlobPut name ct content]))
  else (Raise "BLOB_READ_WRITE_TOKEN not configured", w).
Proof.
  unfold upload_to_blob. destruct (Py.truthy BLOB_READ_WRITE_TOKEN); simpl;
    [|reflexivity].
  unfold bind, emit, expect. destruct (requests_put name ct content);
    reflexivity.
Qed.

(** One photo in the loop: the entry and the events of [blob_photo] for
    the overlays as they are in the heap; only new objects, and no file,
    are touched. *)
Lemma process_photo_spec (logo_img qr_img : option ref) (pn pc : string)
    (names : list string) (i : nat) (url : string) (w : World) :
  valid_input (Held logo_img) w -> valid_input (Held qr_img) w ->
  exists extra res,
    process_photo logo_img qr_img pn pc names i url w =
    (res,
     mkWorld (heap w ++ extra) (files w)
       (trace w ++ snd (blob_photo (overlay_image (Held logo_img) w)
                                   (overlay_image (Held qr_img) w)
                                   pn pc names i url)))
    /\ match fst (blob_photo (overlay_image (Held logo_img) w)
                            (overlay_image (Held qr_img) w)
                            pn pc names i url) with
       | Some entry => res = Ok entry
       | None => exists msg, res = Raise msg
       end.
Proof.
  intros Hvl Hvq. unfold process_photo, blob_photo.
  unfold bind at 1. rewrite download_run.
  destruct (requests_get url) as [data|]; cbn [mbind option_bind fst snd].
  2:{ exists [], (Raise "Failed to download from URL").
      rewrite app_nil_r. split; [reflexivity | eauto]. }
  unfold bind at 1. rewrite Image_open_run.
  destruct (image_open true data) as [im|]; cbn [mbind option_bind fst snd heap files trace].
  2:{ exists [], (Raise "cannot identify image file").
      rewrite app_nil_r. split; [reflexivity | eauto]. }
  set (w1 := mkWorld (heap w ++ [im]) (files w) (trace w ++ [EvGet url])).
  assert (forall r, (r < length (heap w))%nat -> heap w1 !! r = heap w !! r)
    as Hold by (intros r Hr; simpl; now rewrite lookup_old).
  assert (valid_input (Held logo_img) w1) as Hvl1.
  { destruct logo_img; simpl in *; [rewrite length_app; lia | exact I]. }
  assert (valid_input (Held qr_img) w1) as Hvq1.
  { destruct qr_img; simpl in *; [rewrite length_app; lia | exact I]. }
  destruct (compose_spec blob_caption (Held logo_img) (Held qr_img) pn pc
              (length (heap w)) im w1 (lookup_snoc (heap w) im) Hvl1 Hvq1)
    as [extra [Hrun Hlook]].
  rewrite (overlay_image_stable (Held logo_img) w w1 Hvl eq_refl Hold),
          (overlay_image_stable (Held qr_img) w w1 Hvq eq_refl Hold)
    in Hrun, Hlook.
  change (copy_of logo_img) with (source_of (Held logo_img)).
  change (copy_of qr_img) with (source_of (Held qr_img)).
  unfold bind at 1. rewrite Hrun.
  destruct (canvas_of blob_caption (overlay_image (Held logo_img) w)
              (overlay_image (Held qr_img) w) pn pc im) as [canvas|];
    cbn [mbind option_bind fst snd heap files trace].
  2:{ exists ([im] ++ extra), (Raise "cannot render text").
      unfold w1. cbn [heap files trace]. rewrite <- app_assoc.
      split; [reflexivity | eauto]. }
  rewrite (bind_ok _ _ _ _ _
             (deref_ok (mkWorld (heap w1 ++ extra) (files w1) (trace w1)) _ _
                       (Hlook canvas eq_refl))).
  unfold bind at 1. unfold expect at 1.
  destruct (image_save (JPEG 95) (PIL.convert_RGB canvas)) as [content|];
    cbn [mbind option_bind fst snd heap files trace].
  2:{ exists ([im] ++ extra), (Raise "cannot write image").
      unfold w1, raise. cbn [heap files trace]. rewrite <- app_assoc.
      split; [reflexivity | eauto]. }
  unfold ret at 1. unfold bind at 1. rewrite upload_to_blob_run.
  unfold w1. cbn [heap files trace]. rewrite <- !app_assoc.
  destruct (Py.truthy BLOB_READ_WRITE_TOKEN); cbn [fst snd].
  2:{ exists ([im] ++ extra), (Raise "BLOB_READ_WRITE_TOKEN not configured").
      split; [reflexivity | eauto]. }
  destruct (requests_put (blob_output_name names i) "image/jpeg" content)
    as [purl|]; cbn [fmap option_fmap option_map].
  - exists ([im] ++ extra), (Ok (purl, blob_output_name names i)).
    split; reflexivity.
  - exists ([im] ++ extra), (Raise "Failed to upload to Blob").
    split; [reflexivity | eauto].
Qed.

Lemma process_loop_spec (logo_img qr_img : option ref) (pn pc : string)
    (names : list string) (urls : list string) :
  forall (i : nat) (acc : list (string * string)) (w : World),
    valid_input (Held logo_img) w -> valid_input (Held qr_img) w ->
    exists extra,
      process_loop logo_img qr_img pn pc names i urls acc w =
      (Ok (acc ++ fst (blob_batch (overlay_image (Held logo_img) w)
                                  (overlay_image (Held qr_img) w)
                                  pn pc names i urls)),
       mkWorld (heap w ++ extra) (files w)
         (trace w ++ snd (blob_batch (overlay_image (Held logo_img) w)
                                     (overlay_image (Held qr_img) w)
                                     pn pc names i urls))).
Proof.
  induction urls as [|url rest IH]; intros i acc w Hvl Hvq.
  - exists []. cbn [process_loop blob_batch fst snd]. unfold ret.
    rewrite !app_nil_r. now destruct w.
  - cbn [process_loop blob_batch].
    destruct (process_photo_spec logo_img qr_img pn pc names i url w Hvl Hvq)
      as (extra & res & Hrun & Hres).
    set (L := overlay_image (Held logo_img) w) in *.
    set (Q := overlay_image (Held qr_img) w) in *.
    destruct (blob_photo L Q pn pc names i url) as [entry events] eqn:Hphoto.
    cbn [fst snd] in Hrun, Hres.
    set (w1 := mkWorld (heap w ++ extra) (files w) (trace w ++ events)) in *.
    assert (forall r, (r < length (heap w))%nat -> heap w1 !! r = heap w !! r)
      as Hold by (intros r Hr; simpl; now rewrite lookup_old).
    assert (valid_input (Held logo_img) w1) as Hvl1.
    { destruct logo_img; simpl in *; [rewrite length_app; lia | exact I]. }
    assert (valid_input (Held qr_img) w1) as Hvq1.
    { destruct qr_img; simpl in *; [rewrite length_app; lia | exact I]. }
    assert (exists acc',
               try_except
                 (entry <- process_photo logo_img qr_img pn pc names i url ;;
                  ret (acc ++ [entry]))
                 (fun _ => ret acc) w = (Ok acc', w1)
               /\ acc' = acc ++ match entry with Some e => [e] | None => [] end)
      as (acc' & Htry & Hacc).
    { unfold try_except, bind. rewrite Hrun. destruct entry as [e|].
      - rewrite Hres. eexists. split; reflexivity.
      - destruct Hres as [msg ->]. exists acc. rewrite app_nil_r.
        split; reflexivity. }
    rewrite (bind_ok _ _ _ _ _ Htry).
    destruct (IH (S i) acc' w1 Hvl1 Hvq1) as [extra' Hloop].
    rewrite (overlay_image_stable (Held logo_img) w w1 Hvl eq_refl Hold),
            (overlay_image_stable (Held qr_img) w w1 Hvq eq_refl Hold)
      in Hloop.
    fold L Q in Hloop. rewrite Hloop.
    destruct (blob_batch L Q pn pc names (S i) rest) as [entries later].
    exists (extra ++ extra'). unfold w1. cbn [heap files trace fst snd].
    rewrite Hacc, <- !app_assoc. now destruct entry.
Qed.

Lemma load_logo_spec (data : ProcessRequest) (w : World) :
  exists logo_img extra,
    load_logo (logo_url data) w =
    (Ok logo_img,
     mkWorld (heap w ++ extra) (files w) (trace w ++ logo_events data))
    /\ valid_input (Held logo_img)
         (mkWorld (heap w ++ extra) (files w) (trace w ++ logo_events data))
    /\ logo_img ≫= (fun r => (heap w ++ extra) !! r) = logo_of data.
Proof.
  unfold load_logo, logo_events, logo_of.
  destruct (given (logo_url data)) as [url|]; cbn [mbind option_bind].
  2:{ exists None, []. rewrite !app_nil_r. destruct w.
      repeat split; reflexivity. }
  unfold try_except. unfold bind at 1. rewrite download_run.
  destruct (requests_get url) as [logo_data|]; cbn [mbind option_bind].
  2:{ exists None, []. rewrite !app_nil_r. repeat split; reflexivity. }
  unfold bind at 1. rewrite Image_open_run.
  destruct (image_open false logo_data) as [o|]; cbn [heap files trace].
  - exists (Some (length (heap w))), [o]. split; [reflexivity|]. split.
    + simpl. rewrite length_app. simpl. lia.
    + simpl. apply lookup_snoc.
  - exists None, []. rewrite !app_nil_r. repeat split; reflexivity.
Qed.

Lemma generate_qr_spec (data : ProcessRequest) (w : World) :
  exists qr_img extra,
    generate_qr (qr_url data) w =
    (Ok qr_img, mkWorld (heap w ++ extra) (files w) (trace w))
    /\ valid_input (Held qr_img)
         (mkWorld (heap w ++ extra) (files w) (trace w))
    /\ qr_img ≫= (fun r => (heap w ++ extra) !! r) = qr_of data.
Proof.
  unfold generate_qr, qr_of.
  destruct (given (qr_url data)) as [url|]; cbn [mbind option_bind].
  2:{ exists None, []. rewrite !app_nil_r. destruct w.
      repeat split; reflexivity. }
  unfold try_except, bind, expect.
  destruct (make_qr (clean_qr_url url)) as [qr|]; cbn [heap files trace].
  - exists (Some (length (heap w))), [qr]. split; [reflexivity|]. split.
    + simpl. rewrite length_app. simpl. lia.
    + simpl. apply lookup_snoc.
  - exists None, []. rewrite !app_nil_r. destruct w. repeat split; reflexivity.
Qed.

(** The handler on a request with photos: the entries of the photos that
    succeed, or the error when there is none; the requests for the logo
    and the photos and the uploads of the outputs are all it does. *)
Lemma process_photos_spec (data : ProcessRequest) (w : World) :
  photo_urls data <> [] ->
  exists extra,
    process_photos (Some data) w =
    (match fst (batch_of data) with
     | [] => Error "Failed to process any photos" 500
     | _ => Success (fst (batch_of data))
     end,
     mkWorld (heap w ++ extra) (files w)
             (trace w ++ logo_events data ++ snd (batch_of data))).
Proof.
  intros Hphotos. unfold process_photos, process_photos_body.
  destruct (photo_urls data) as [|url0 urls0] eqn:Hurls; [contradiction|].
  rewrite <- Hurls.
  destruct (load_logo_spec data w) as (logo_img & extra1 & Hlogo & Hvl & HL).
  rewrite (bind_ok _ _ _ _ _ Hlogo).
  set (w1 := mkWorld (heap w ++ extra1) (files w) (trace w ++ logo_events data))
    in *.
  destruct (generate_qr_spec data w1) as (qr_img & extra2 & Hqr & Hvq & HQ).
  rewrite (bind_ok _ _ _ _ _ Hqr).
  set (w2 := mkWorld (heap w1 ++ extra2) (files w1) (trace w1)) in *.
  assert (forall r, (r < length (heap w1))%nat -> heap w2 !! r = heap w1 !! r)
    as Hold by (intros r Hr; simpl; now rewrite lookup_old).
  assert (valid_input (Held logo_img) w2) as Hvl2.
  { destruct logo_img; simpl in *; [rewrite !length_app in *; lia | exact I]. }
  destruct (process_loop_spec logo_img qr_img (Py.strip (practice_name data))
              (Py.strip (plus_code data)) (file_names data) (photo_urls data)
              0%nat [] w2 Hvl2 Hvq) as [extra3 Hloop].
  assert (overlay_image (Held logo_img) w2 = logo_of data) as HL2.
  { rewrite (overlay_image_stable (Held logo_img) w1 w2 Hvl eq_refl Hold).
    exact HL. }
  assert (overlay_image (Held qr_img) w2 = qr_of data) as HQ2 by exact HQ.
  rewrite HL2, HQ2 in Hloop. fold (batch_of data) in Hloop.
  rewrite (bind_ok _ _ _ _ _ Hloop). cbn [app].
  exists (extra1 ++ extra2 ++ extra3).
  unfold w2, w1. cbn [heap files trace]. rewrite <- !app_assoc.
  destruct (fst (batch_of data)); reflexivity.
Qed.

End BlobRefinement.

(* ===================================================================== *)
(** * Unique output names *)
(* ===================================================================== *)

Lemma length_append (a b : string) :
  String.length (a +:+ b) = (String.length a + String.length b)%nat.
Proof.
  induction a as [|c a IH]; [reflexivity|].
  change (S (String.length (a +:+ b)) = S (String.length a + String.length b)).
  now rewrite IH.
Qed.

Lemma append_inv_tail (a b c : string) : a +:+ c = b +:+ c -> a = b.
Proof.
  revert b. induction a as [|x a IH]; intros [|y b] Heq.
  - reflexivity.
  - apply (f_equal String.length) in Heq.
    change (String y b +:+ c) with (String y (b +:+ c)) in Heq.
    simpl in Heq. rewrite !length_append in Heq. simpl in Heq. lia.
  - apply (f_equal String.length) in Heq.
    change (String x a +:+ c) with (String x (a +:+ c)) in Heq.
    simpl in Heq. rewrite !length_append in Heq. simpl in Heq. lia.
  - change (String x (a +:+ c) = String y (b +:+ c)) in Heq.
    injection Heq as -> Heq. f_equal. now apply IH.
Qed.

(** The suffixed names of different counters differ, and differ from the
    name without suffix. *)
Lemma suffixed_inj (base ext : string) (j k : nat) :
  suffixed base ext j = suffixed base ext k -> j = k.
Proof.
  unfold suffixed. intros Heq.
  apply String.app_inj in Heq. apply String.app_inj in Heq.
  apply append_inv_tail in Heq. now apply pretty_nat_inj in Heq.
Qed.

Lemma suffixed_not_plain (base ext : string) (k : nat) :
  suffixed base ext k <> base +:+ ext.
Proof.
  unfold suffixed. intros Heq. apply String.app_inj in Heq.
  apply (f_equal String.length) in Heq.
  change ("_" +:+ pretty k +:+ ext) with (String "_" (pretty k +:+ ext)) in Heq.
  simpl in Heq. rewrite !length_append in Heq. simpl in Heq. lia.
Qed.

Section UniqueNames.
Context `{Collaborators}.

(** The loop finds a name that is free, within the fuel, when the fuel
    covers the files not seen so far. *)
Lemma unique_output_name_loop (base ext : string) (fuel : nat) :
  forall (counter : nat) (name : string) (seen : gset string) (w : World),
    seen ⊆ dom (files w) ->
    os_path_join PROCESSED_FOLDER name ∉ seen ->
    (forall k, (counter <= k)%nat ->
               (os_path_join PROCESSED_FOLDER (suffixed base ext k) ∉ seen)
               /\ suffixed base ext k <> name) ->
    (size (dom (files w)) <= fuel + size seen)%nat ->
    exists output_name,
      unique_output_name fuel base ext counter name w = (Ok output_name, w)
      /\ files w !! os_path_join PROCESSED_FOLDER output_name = None
      /\ (output_name = name
          \/ exists k, (counter <= k)%nat /\ output_name = suffixed base ext k).
Proof.
  induction fuel as [|fuel IH]; intros counter name seen w Hsub Hname Hnext Hsize.
  - cbn [unique_output_name]. unfold bind, path_exists.
    destruct (files w !! os_path_join PROCESSED_FOLDER name) as [c|] eqn:Hlook.
    + exfalso.
      assert (os_path_join PROCESSED_FOLDER name ∈ dom (files w)) as Hin
        by (apply elem_of_dom; eauto).
      assert (size ({[os_path_join PROCESSED_FOLDER name]} ∪ seen)
              <= size (dom (files w)))%nat as Hle
        by (apply subseteq_size; set_solver).
      rewrite size_union, size_singleton in Hle by set_solver. lia.
    + rewrite bool_decide_eq_false_2 by (intros [? ?]; discriminate).
      exists name. destruct w. repeat split; [exact Hlook | now left].
  - cbn [unique_output_name]. unfold bind, path_exists.
    destruct (files w !! os_path_join PROCESSED_FOLDER name) as [c|] eqn:Hlook.
    + rewrite bool_decide_eq_true_2 by eauto.
      assert (os_path_join PROCESSED_FOLDER name ∈ dom (files w)) as Hin
        by (apply elem_of_dom; eauto).
      destruct (IH (S counter) (suffixed base ext counter)
                  ({[os_path_join PROCESSED_FOLDER name]} ∪ seen) w)
        as (out & Hrun & Hfree & Hout).
      * set_solver.
      * destruct (Hnext counter ltac:(lia)) as [Hns Hne].
        unfold os_path_join in *. intros Hin'.
        apply elem_of_union in Hin' as [Hin'|Hin']; [|contradiction].
        apply elem_of_singleton in Hin'. apply String.app_inj in Hin'.
        contradiction.
      * intros k Hk. destruct (Hnext k ltac:(lia)) as [Hns Hne]. split.
        -- unfold os_path_join in *. intros Hin'.
           apply elem_of_union in Hin' as [Hin'|Hin']; [|contradiction].
           apply elem_of_singleton in Hin'. apply String.app_inj in Hin'.
           contradiction.
        -- intros Heq. apply suffixed_inj in Heq. lia.
      * rewrite size_union, size_singleton by set_solver. lia.
      * exists out. split; [exact Hrun|]. split; [exact Hfree|].
        right. destruct Hout as [-> | (k & Hk & ->)].
        -- exists counter. split; [lia | reflexivity].
        -- exists k. split; [lia | reflexivity].
    + rewrite bool_decide_eq_false_2 by (intros [? ?]; discriminate).
      exists name. destruct w. repeat split; [exact Hlook | now left].
Qed.

(** With the number of files as fuel the loop of [upload] returns a name
    that no file of the processed folder has: the plain name or a
    suffixed one. *)
Lemma unique_output_name_fresh (base ext : string) (w : World) :
  exists output_name,
    unique_output_name (size (files w)) base ext 1 (base +:+ ext) w
    = (Ok output_name, w)
    /\ files w !! os_path_join PROCESSED_FOLDER output_name = None
    /\ (output_name = base +:+ ext
        \/ exists k, (1 <= k)%nat /\ output_name = suffixed base ext k).
Proof.
  apply (unique_output_name_loop base ext (size (files w)) 1 (base +:+ ext) ∅).
  - set_solver.
  - set_solver.
  - intros k _. split; [set_solver | apply suffixed_not_plain].
  - rewrite size_dom, size_empty. lia.
Qed.

End UniqueNames.

(* ===================================================================== *)
(** * [upload] saves the canvas on values *)
(* ===================================================================== *)

Section FolderRefinement.
Context `{Collaborators}.

(** One photo in the loop of [upload]: the photo is saved in the upload
    folder; when its canvas can be made, a name free in the processed
    folder is chosen, and the canvas is saved under it in the format of
    the name, or the body raises when the encoder does; it raises with
    nothing more written when the canvas cannot be made. *)
Lemma upload_photo_spec (logo qr_code : option string) (pn pc : string)
    (names : list string) (i : nat) (photo : FileStorage) (w : World) :
  let file_path := upload_path photo in
  let fs1 := <[file_path := stream photo]> (files w) in
  let saved := EvFileWrite file_path (stream photo) in
  let base := folder_base_name names i in
  let ext := output_extension (filename photo) in
  exists extra res w',
    upload_photo logo qr_code pn pc names i photo w = (res, w')
    /\ heap w' = heap w ++ extra
    /\ match folder_canvas fs1 logo qr_code pn pc photo with
       | Some canvas =>
           exists output_name,
             let output_path := os_path_join PROCESSED_FOLDER output_name in
             let f := output_format output_name in
             fs1 !! output_path = None
             /\ (output_name = base +:+ ext
                 \/ exists k, (1 <= k)%nat /\ output_name = suffixed base ext k)
             /\ match image_save f (encoded_raster f canvas) with
                | Some content =>
                    res = Ok (output_path, output_name, file_path)
                    /\ files w' = <[output_path := content]> fs1
                    /\ trace w' = trace w ++ [saved; EvFileWrite output_path content]
                | None =>
                    (exists msg, res = Raise msg)
                    /\ files w' = fs1 /\ trace w' = trace w ++ [saved]
                end
       | None =>
           (exists msg, res = Raise msg)
           /\ files w' = fs1 /\ trace w' = trace w ++ [saved]
       end.
Proof.
  intros file_path fs1 saved base ext. unfold upload_photo, folder_canvas.
  fold file_path base ext.
  unfold bind at 1. unfold file_write at 1. cbn [heap files trace].
  fold fs1 saved.
  set (w1 := mkWorld (heap w) fs1 (trace w ++ [saved])).
  assert (file_read file_path w1 = (Ok (stream photo), w1)) as Hread.
  { unfold file_read, w1, fs1. cbn [files]. now rewrite lookup_insert_eq. }
  rewrite (bind_ok _ _ _ _ _ Hread).
  unfold bind at 1. rewrite Image_open_run.
  destruct (image_open true (stream photo)) as [im|];
    cbn [mbind option_bind].
  2:{ exists [], (Raise "cannot identify image file"), w1.
      rewrite app_nil_r. repeat split; eauto. }
  set (w2 := mkWorld (heap w1 ++ [im]) (files w1) (trace w1)).
  destruct (compose_spec folder_caption (Stored logo) (Stored qr_code) pn pc
              (length (heap w1)) im w2 (lookup_snoc (heap w1) im) I I)
    as [extra [Hrun Hlook]].
  change (source_of (Stored logo)) with (file_of logo) in Hrun.
  change (source_of (Stored qr_code)) with (file_of qr_code) in Hrun.
  change (overlay_image (Stored logo) w2) with (stored_overlay fs1 logo)
    in Hrun, Hlook.
  change (overlay_image (Stored qr_code) w2) with (stored_overlay fs1 qr_code)
    in Hrun, Hlook.
  unfold bind at 1. rewrite Hrun.
  destruct (canvas_of folder_caption (stored_overlay fs1 logo)
              (stored_overlay fs1 qr_code) pn pc im) as [canvas|].
  2:{ exists ([im] ++ extra), (Raise "cannot render text"). eexists.
      split; [reflexivity|]. unfold w2, w1. cbn [heap files trace].
      rewrite <- app_assoc. repeat split; eauto. }
  set (w3 := mkWorld (heap w2 ++ extra) (files w2) (trace w2)).
  unfold bind at 1. unfold count_files at 1.
  destruct (unique_output_name_fresh base ext w3)
    as (output_name & Hname & Hfree & Hshape).
  unfold bind at 1. change (size (files w3)) with (size fs1) in Hname |- *.
  rewrite Hname.
  rewrite (bind_ok _ _ _ _ _
             (deref_ok w3 _ _ (Hlook canvas eq_refl))).
  unfold bind at 1. unfold expect at 1.
  destruct (image_save (output_format output_name)
              (encoded_raster (output_format output_name) canvas))
    as [content|] eqn:Hsave.
  - exists ([im] ++ extra). eexists. eexists.
    split; [reflexivity|]. unfold w3, w2, w1. cbn [heap files trace].
    rewrite <- app_assoc.
    split; [reflexivity|]. exists output_name. cbn zeta.
    split; [exact Hfree|]. split; [exact Hshape|]. rewrite Hsave.
    rewrite <- app_assoc. repeat split; reflexivity.
  - exists ([im] ++ extra). eexists. eexists.
    split; [reflexivity|]. unfold w3, w2, w1. cbn [heap files trace].
    rewrite <- app_assoc.
    split; [reflexivity|]. exists output_name. cbn zeta.
    split; [exact Hfree|]. split; [exact Hshape|]. rewrite Hsave.
    repeat split; eauto.
Qed.

Lemma folders_disjoint (a b : string) :
  os_path_join UPLOAD_FOLDER a <> os_path_join PROCESSED_FOLDER b.
Proof.
  unfold os_path_join, UPLOAD_FOLDER, PROCESSED_FOLDER.
  destruct IS_VERCEL; intros Heq; cbv [String.append] in Heq; congruence.
Qed.

Lemma lines_on_total (xc sp : Z) (data : list line_datum) :
  renders_all ->
  forall y canvas, is_Some (lines_on xc sp y data canvas).
Proof.
  intros Hall. induction data as [|d rest IH]; intros y canvas; simpl.
  - eauto.
  - destruct (Hall canvas (xc - ld_w d / 2, y) (ld_text d) (ld_font d))
      as [px ->]. apply IH.
Qed.

Lemma canvas_of_total (c : Caption) (logo qr : option PIL.Image)
    (pn pc : string) (im : PIL.Image) :
  renders_all -> is_Some (canvas_of c logo qr pn pc im).
Proof.
  intros Hall. unfold canvas_of, caption_on.
  destruct (branding_lines pn pc); [eauto|]. now apply lines_on_total.
Qed.

(** The loop of [upload] never raises.  The names it adds are pairwise
    different names that were free in the processed folder and are files
    of it afterwards; the files of the processed folder stay; with a
    renderer and an encoder that never raise there is one name for every
    photo the codec can read. *)
Lemma upload_loop_spec (logo qr_code : option string) (pn pc : string)
    (names : list string) (valid_photos : list FileStorage) :
  forall (i : nat) (processed_files output_filenames : list string)
         (w : World),
  exists new_names w',
    upload_loop logo qr_code pn pc names i valid_photos
                processed_files output_filenames w
    = (Ok (processed_files
             ++ map (os_path_join PROCESSED_FOLDER) new_names,
           output_filenames ++ new_names), w')
    /\ NoDup new_names
    /\ (forall n, n ∈ new_names ->
          files w !! os_path_join PROCESSED_FOLDER n = None
          /\ is_Some (files w' !! os_path_join PROCESSED_FOLDER n))
    /\ (forall n, is_Some (files w !! os_path_join PROCESSED_FOLDER n) ->
                  is_Some (files w' !! os_path_join PROCESSED_FOLDER n))
    /\ (length new_names <= length valid_photos)%nat
    /\ (renders_all -> encodes_all ->
        length new_names = length (List.filter decodable valid_photos)).
Proof.
  induction valid_photos as [|photo rest IH];
    intros i processed_files output_filenames w.
  - exists [], w. cbn [upload_loop map List.filter length]. unfold ret.
    rewrite !app_nil_r. split; [reflexivity|]. split; [constructor|].
    split; [intros n Hn; inversion Hn|]. repeat split; eauto.
  - cbn [upload_loop].
    destruct (upload_photo_spec logo qr_code pn pc names i photo w)
      as (extra & res & w0 & Hrun & Hheap & Hspec).
    cbv zeta in Hspec.
    set (fp := upload_path photo) in *.
    set (fs1 := <[fp := stream photo]> (files w)) in *.
    assert (forall n, os_path_join PROCESSED_FOLDER n <> fp) as Hfp.
    { intros n Heq. symmetry in Heq. now apply folders_disjoint in Heq. }
    assert (forall n, fs1 !! os_path_join PROCESSED_FOLDER n
                      = files w !! os_path_join PROCESSED_FOLDER n) as Hfs1.
    { intros n. unfold fs1. rewrite lookup_insert_ne; [reflexivity|].
      intros Heq. now apply (Hfp n). }
    unfold bind at 1. unfold try_except at 1. unfold bind at 1. rewrite Hrun.
    (* the two outcomes of the body *)
    assert ((exists output_name content,
               res = Ok (os_path_join PROCESSED_FOLDER output_name,
                         output_name, fp)
               /\ fs1 !! os_path_join PROCESSED_FOLDER output_name = None
               /\ files w0
                  = <[os_path_join PROCESSED_FOLDER output_name := content]> fs1)
            \/ ((exists msg, res = Raise msg) /\ files w0 = fs1
                /\ (renders_all -> encodes_all -> decodable photo = false)))
      as [(output_name & content & -> & Hfree & Hfiles) | ([msg ->] & Hfiles & Hbad)].
    { unfold folder_canvas, decodable in *.
      destruct (image_open true (stream photo)) as [im|]; cbn [mbind option_bind] in Hspec.
      - destruct (canvas_of folder_caption _ _ pn pc im) as [canvas|] eqn:Hcanvas.
        + destruct Hspec as (output_name & Hfree & _ & Hsave).
          destruct (image_save _ _) as [content|] eqn:Hs.
          * left. exists output_name, content.
            destruct Hsave as (-> & Hf & _). eauto.
          * right. destruct Hsave as (Hmsg & Hf & _).
            split; [exact Hmsg|]. split; [exact Hf|].
            intros _ Henc. specialize (Henc (output_format output_name)
              (encoded_raster (output_format output_name) canvas)).
            rewrite Hs in Henc. now destruct Henc.
        + right. destruct Hspec as (Hmsg & Hf & _).
          split; [exact Hmsg|]. split; [exact Hf|].
          intros Hren _.
          pose proof (canvas_of_total folder_caption
                        (stored_overlay fs1 logo) (stored_overlay fs1 qr_code)
                        pn pc im Hren) as Hsome.
          rewrite Hcanvas in Hsome. now destruct Hsome.
      - right. destruct Hspec as (Hmsg & Hf & _). eauto. }
    + (* the photo is saved *)
      unfold ret at 1.
      assert (files w0 !! fp = Some (stream photo)) as Hphoto.
      { rewrite Hfiles, lookup_insert_ne by (apply Hfp).
        unfold fs1. apply lookup_insert_eq. }
      assert (try_except (os_remove fp) (fun _ => ret tt) w0
              = (Ok tt, mkWorld (heap w0) (delete fp (files w0))
                                (trace w0 ++ [EvFileRemove fp]))) as Hrm.
      { unfold try_except, os_remove. now rewrite Hphoto. }
      rewrite (bind_ok _ _ _ _ _ Hrm).
      set (w1 := mkWorld (heap w0) (delete fp (files w0))
                         (trace w0 ++ [EvFileRemove fp])).
      destruct (IH (S i)
                  (processed_files ++ [os_path_join PROCESSED_FOLDER output_name])
                  (output_filenames ++ [output_name]) w1)
        as (new_names & w' & Hloop & Hnodup & Hnew & Hkeep & Hlen & Hcount).
      assert (forall n, files w1 !! os_path_join PROCESSED_FOLDER n
                = <[os_path_join PROCESSED_FOLDER output_name := content]>
                    (files w) !! os_path_join PROCESSED_FOLDER n) as Hw1.
      { intros n. unfold w1. cbn [files].
        rewrite lookup_delete_ne by (intros Heq; now apply (Hfp n)).
        rewrite Hfiles.
        destruct (decide (os_path_join PROCESSED_FOLDER output_name
                          = os_path_join PROCESSED_FOLDER n)) as [->|Hne].
        - now rewrite !lookup_insert_eq.
        - rewrite !lookup_insert_ne by exact Hne. apply Hfs1. }
      exists (output_name :: new_names), w'.
      split.
      { rewrite Hloop. cbn [map]. now rewrite <- !app_assoc. }
      split.
      { constructor; [|exact Hnodup]. intros Hin.
        destruct (Hnew _ Hin) as [Hnone _].
        rewrite Hw1, lookup_insert_eq in Hnone. discriminate. }
      split.
      { intros n Hn. apply elem_of_cons in Hn as [->|Hn].
        - split; [now rewrite <- Hfs1|].
          apply Hkeep. rewrite Hw1, lookup_insert_eq. eauto.
        - destruct (Hnew _ Hn) as [Hnone Hsome]. split; [|exact Hsome].
          rewrite Hw1 in Hnone.
          destruct (decide (os_path_join PROCESSED_FOLDER output_name
                            = os_path_join PROCESSED_FOLDER n)) as [Heq|Hne].
          + rewrite Heq, lookup_insert_eq in Hnone. discriminate.
          + now rewrite lookup_insert_ne in Hnone by exact Hne. }
      split.
      { intros n Hn. apply Hkeep. rewrite Hw1.
        destruct (decide (os_path_join PROCESSED_FOLDER output_name
                          = os_path_join PROCESSED_FOLDER n)) as [Heq|Hne].
        - rewrite Heq, lookup_insert_eq. eauto.
        - now rewrite lookup_insert_ne by exact Hne. }
      split.
      { cbn [length]. lia. }
      { intros Hren Henc. cbn [List.filter length].
        assert (decodable photo = true) as ->.
        { unfold decodable, folder_canvas in *.
          destruct (image_open true (stream photo)); [reflexivity|].
          cbn [mbind option_bind] in Hspec.
          destruct Hspec as ([msg Hmsg] & _). discriminate. }
        cbn [length]. now rewrite (Hcount Hren Henc). }
    + (* the body raised *)
      unfold ret at 1.
      destruct (IH (S i) processed_files output_filenames w0)
        as (new_names & w' & Hloop & Hnodup & Hnew & Hkeep & Hlen & Hcount).
      assert (forall n, files w0 !! os_path_join PROCESSED_FOLDER n
                = files w !! os_path_join PROCESSED_FOLDER n) as Hw0.
      { intros n. rewrite Hfiles. apply Hfs1. }
      exists new_names, w'. split; [exact Hloop|]. split; [exact Hnodup|].
      split.
      { intros n Hn. destruct (Hnew _ Hn) as [Hnone Hsome].
        split; [now rewrite <- Hw0 | exact Hsome]. }
      split.
      { intros n Hn. apply Hkeep. now rewrite Hw0. }
      split.
      { cbn [length]. lia. }
      { intros Hren Henc. cbn [List.filter].
        rewrite (Hbad Hren Henc). now apply Hcount. }
Qed.

End FolderRefinement.

(* ===================================================================== *)
(** * The end of [upload] *)
(* ===================================================================== *)

Section FolderHandler.
Context `{Collaborators}.

Lemma remove_if_exists_run (path : option string) (w : World) :
  remove_if_exists path w =
  (Ok tt, mkWorld (heap w) (without (files w) path)
                  (trace w ++ removal (files w) path)).
Proof.
  destruct w as [h f t]. unfold remove_if_exists, removal, without.
  destruct path as [p|]; cbn [heap files trace].
  - unfold bind, path_exists, os_remove. cbn [files heap trace].
    destruct (f !! p) as [c|] eqn:Hp.
    + rewrite bool_decide_eq_true_2 by eauto. cbn [files heap trace].
      now rewrite Hp.
    + rewrite bool_decide_eq_false_2 by (intros [? ?]; discriminate).
      unfold ret. rewrite app_nil_r. now rewrite delete_id.
  - unfold ret. now rewrite app_nil_r.
Qed.

Lemma cleanup_run (logo qr_code : option string) (w : World) :
  cleanup logo qr_code w =
  (Ok tt,
   mkWorld (heap w) (without (without (files w) logo) qr_code)
     (trace w ++ removal (files w) logo
              ++ removal (without (files w) logo) qr_code)).
Proof.
  unfold cleanup. unfold bind at 1. rewrite remove_if_exists_run.
  rewrite remove_if_exists_run. cbn [heap files trace].
  now rewrite <- app_assoc.
Qed.


(** With a valid photo [upload] runs its loop, cleans up, and answers
    with the names of the outputs, or with the error 500 when there is
    none: it never raises. *)
Lemma upload_photos_batch (request : UploadRequest)
    (logo qr_code : option string) (pn pc : string) (w : World) :
  let valid_photos :=
    List.filter (fun photo => Py.truthy (filename photo)
                              && allowed_file (filename photo))
                (photos request) in
  valid_photos <> [] ->
  exists output_filenames w',
    upload_photos request logo qr_code pn pc w =
    (Ok (match output_filenames with
         | [] => Error "Failed to process any photos" 500
         | _ => Success output_filenames
         end), w')
    /\ NoDup output_filenames
    /\ (forall n, n ∈ output_filenames ->
          files w !! os_path_join PROCESSED_FOLDER n = None)
    /\ (length output_filenames <= length valid_photos)%nat
    /\ (renders_all -> encodes_all ->
        length output_filenames = length (List.filter decodable valid_photos)).
Proof.
  intros valid_photos Hvalid. unfold upload_photos.
  assert (existsb (fun f => Py.truthy (filename f)) (photos request) = true)
    as ->.
  { destruct valid_photos as [|photo rest] eqn:Hv; [contradiction|].
    apply existsb_exists. exists photo.
    assert (In photo valid_photos) as Hin by (rewrite Hv; now left).
    apply filter_In in Hin as [Hin Hok].
    apply andb_prop in Hok as [Hname _]. eauto. }
  cbn [negb]. fold valid_photos.
  destruct valid_photos as [|photo rest] eqn:Hv; [contradiction|].
  rewrite <- Hv.
  match goal with
  | |- context [upload_loop logo qr_code pn pc ?names 0 valid_photos [] []] =>
      destruct (upload_loop_spec logo qr_code pn pc names valid_photos
                  0%nat [] [] w)
        as (new_names & w1 & Hloop & Hnodup & Hnew & _ & Hlen & Hcount)
  end.
  cbn [app] in Hloop. rewrite (bind_ok _ _ _ _ _ Hloop).
  unfold bind. rewrite cleanup_run. unfold ret.
  exists new_names. eexists. split.
  - destruct new_names; reflexivity.
  - repeat split; try assumption. intros n Hn. now apply Hnew.
Qed.

End FolderHandler.

(* ===================================================================== *)
(** * A request without photos *)
(* ===================================================================== *)

Section EmptyBatch.
Context `{Collaborators}.



End EmptyBatch.

Section EmptyBatchWitness.
#[local] Existing Instance Demo.collaborators.



End EmptyBatchWitness.

(* ===================================================================== *)
(** * Output names *)
(* ===================================================================== *)

(** C2 fails in [process_photos]: two photos that are given the same name
    get the same output name, whatever the collaborators, and both
    outputs are uploaded under it. *)
Theorem blob_output_names_collide :
  (forall (C : Collaborators),
      blob_output_name ["x"; "x"] 0 = blob_output_name ["x"; "x"] 1)
  /\ (let r := @process_photos Demo.collaborators (Some Demo.twins)
                               Demo.empty_world in
      fst r = Success [("https://store/x.jpg", "x.jpg");
                       ("https://store/x.jpg", "x.jpg")]
      /\ trace (snd r) = [EvGet "https://blob/a.jpg";
                          EvBlobPut "x.jpg" "image/jpeg" "JPEG 1000x920";
                          EvGet "https://blob/b.png";
                          EvBlobPut "x.jpg" "image/jpeg" "JPEG 640x924"]).
Proof.
  split.
  - intros C. reflexivity.
  - vm_compute. split; reflexivity.
Qed.

(** The sibling handler [upload] does make the names unique: the names of
    a batch are pairwise different and were free in the processed folder. *)
Lemma upload_names_distinct `{Collaborators} (request : UploadRequest)
    (logo qr_code : option string) (pn pc : string) (w : World) :
  List.filter (fun photo => Py.truthy (filename photo)
                            && allowed_file (filename photo))
              (photos request) <> [] ->
  exists output_filenames w',
    upload_photos request logo qr_code pn pc w =
    (Ok (match output_filenames with
         | [] => Error "Failed to process any photos" 500
         | _ => Success output_filenames
         end), w')
    /\ NoDup output_filenames
    /\ (forall n, n ∈ output_filenames ->
          files w !! os_path_join PROCESSED_FOLDER n = None).
Proof.
  intros Hvalid.
  destruct (upload_photos_batch request logo qr_code pn pc w Hvalid)
    as (names & w' & Hrun & Hnodup & Hfree & _).
  exists names, w'. auto.
Qed.

Example upload_names_suffixed :
  fst (@upload Demo.collaborators Demo.twin_upload Demo.empty_world)
  = Success ["x.jpg"; "x_1.jpg"].
Proof. vm_compute. reflexivity. Qed.

(* ===================================================================== *)
(** * Failures of single photos *)
(* ===================================================================== *)

Section Failures.
Context `{Collaborators}.






End Failures.

Section FailuresWitness.
#[local] Existing Instance Demo.collaborators.


End FailuresWitness.

(* ===================================================================== *)
(** * The overlays of a batch *)
(* ===================================================================== *)

(** C9. The loop of [process_photos] scales and fades a copy of the logo
    and of the QR code for each photo and leaves the objects it was given
    as they are: after the batch every object that existed before it holds
    the raster it held, the logo and the QR code among them; every photo
    is composited with the overlays made from the rasters the logo and the
    QR code hold at the start, which are scaled to the box of the photo
    and faded once, their alpha halved a single time. *)
Theorem overlays_not_mutated `{Collaborators} (logo_img qr_img : option ref)
    (pn pc : string) (names urls : list string) (i : nat)
    (acc : list (string * string)) (w : World) :
  valid_input (Held logo_img) w -> valid_input (Held qr_img) w ->
  let logo := overlay_image (Held logo_img) w in
  let qr := overlay_image (Held qr_img) w in
  let batch := blob_batch logo qr pn pc names i urls in
  exists w',
    process_loop logo_img qr_img pn pc names i urls acc w
    = (Ok (acc ++ fst batch), w')
    /\ trace w' = trace w ++ snd batch
    /\ (forall r, (r < length (heap w))%nat -> heap w' !! r = heap w !! r)
    /\ overlay_image (Held logo_img) w' = logo
    /\ overlay_image (Held qr_img) w' = qr
    /\ (forall overlay bound faded,
          prepared overlay bound = Some faded ->
          exists original scaled,
            overlay = Some original
            /\ PIL.thumbnail LANCZOS original bound = Some scaled
            /\ PIL.size faded = PIL.size scaled
            /\ forall x y,
                 PIL.alpha (PIL.getpixel faded x y)
                 = half_alpha (PIL.alpha (PIL.getpixel scaled x y))).
Proof.
  intros Hvl Hvq logo qr batch.
  destruct (process_loop_spec logo_img qr_img pn pc names urls i acc w Hvl Hvq)
    as [extra Hloop].
  fold logo qr batch in Hloop.
  assert (forall r, (r < length (heap w))%nat ->
                    (heap w ++ extra) !! r = heap w !! r) as Hold
    by (intros r Hr; now apply lookup_old).
  eexists. split; [exact Hloop|]. cbn [heap files trace].
  split; [reflexivity|]. split; [exact Hold|]. split; [|split].
  - now apply (overlay_image_stable (Held logo_img) w
                 (mkWorld (heap w ++ extra) (files w) (trace w ++ snd batch))).
  - now apply (overlay_image_stable (Held qr_img) w
                 (mkWorld (heap w ++ extra) (files w) (trace w ++ snd batch))).
  - intros overlay bound faded Hprep. unfold prepared in Hprep.
    destruct overlay as [original|]; [|discriminate].
    destruct (PIL.thumbnail LANCZOS original bound) as [scaled|] eqn:Hscaled;
      [|discriminate].
    injection Hprep as <-. exists original, scaled.
    split; [reflexivity|]. split; [exact Hscaled|]. split; reflexivity.
Qed.

Section OverlaysWitness.
#[local] Existing Instance Demo.collaborators.

Lemma overlays_not_mutated_witness :
  let logo := Demo.plain 800 200 (PIL.RGBA 200 0 0 255) in
  let w := mkWorld [logo] ∅ [] in
  exists w',
    process_loop (Some 0%nat) None "" "" []
                 0 ["https://blob/a.jpg"; "https://blob/b.png"] [] w
    = (Ok [("https://store/photo_1.jpg", "photo_1.jpg");
           ("https://store/photo_2.jpg", "photo_2.jpg")], w')
    /\ heap w' !! 0%nat = Some logo.
Proof.
  intros logo w.
  destruct (overlays_not_mutated (Some 0%nat) None "" "" []
              ["https://blob/a.jpg"; "https://blob/b.png"] 0 [] w)
    as (w' & Hrun & _ & Hold & _).
  - simpl. lia.
  - exact I.
  - exists w'. split; [exact Hrun|]. apply Hold. simpl. lia.
Defined.

End OverlaysWitness.

(* ===================================================================== *)
(** * The encoding of the output *)
(* ===================================================================== *)

Lemma lower_append (a b : string) :
  Py.lower (a +:+ b) = Py.lower a +:+ Py.lower b.
Proof.
  induction a as [|c a IH]; [reflexivity|].
  change (String (Py.lower_char c) (Py.lower (a +:+ b))
          = String (Py.lower_char c) (Py.lower a +:+ Py.lower b)).
  now rewrite IH.
Qed.

Lemma substring_all (b : string) : String.substring 0 (String.length b) b = b.
Proof. induction b as [|c b IH]; [reflexivity|]. simpl. now rewrite IH. Qed.





Lemma append_assoc (a b c : string) : (a +:+ b) +:+ c = a +:+ (b +:+ c).
Proof.
  induction a as [|x a IH]; [reflexivity|].
  change (String x ((a +:+ b) +:+ c) = String x (a +:+ (b +:+ c))).
  now rewrite IH.
Qed.



Section EncodingWitness.
#[local] Existing Instance Demo.collaborators.


End EncodingWitness.
(* ===================================================================== *)
(** * File names and extensions *)
(* ===================================================================== *)

Lemma has_char_append (c : ascii) (a b : string) :
  Py.has_char c (a +:+ b) = Py.has_char c a || Py.has_char c b.
Proof.
  induction a as [|x a IH]; [reflexivity|].
  change (Py.has_char c (String x (a +:+ b))
          = Py.has_char c (String x a) || Py.has_char c b).
  simpl. rewrite IH. now rewrite orb_assoc.
Qed.

Lemma rfind_none (c : ascii) (s : string) :
  Py.rfind c s = None <-> Py.has_char c s = false.
Proof.
  induction s as [|a s IH]; simpl; [tauto|].
  destruct (Py.rfind c s) as [i|].
  - split; [discriminate|]. intros Hc. apply orb_false_elim in Hc as [_ Hc].
    apply IH in Hc. discriminate.
  - destruct (Ascii.eqb a c); simpl.
    + split; discriminate.
    + split; [intros _; now apply IH | reflexivity].
Qed.

(** The last occurrence: [rfind] finds the [c] after which there is no
    other. *)
Lemma rfind_last (c : ascii) (a b : string) :
  Py.has_char c b = false ->
  Py.rfind c (a +:+ String c b) = Some (String.length a).
Proof.
  intros Hb. induction a as [|x a IH].
  - change (Py.rfind c (String c b) = Some O). simpl.
    apply rfind_none in Hb. rewrite Hb. now rewrite Ascii.eqb_refl.
  - change (Py.rfind c (String x (a +:+ String c b))
            = Some (S (String.length a))).
    simpl. now rewrite IH.
Qed.

Lemma rfind_split (c : ascii) (s : string) (i : nat) :
  Py.rfind c s = Some i ->
  exists a b, s = a +:+ String c b /\ String.length a = i
              /\ Py.has_char c b = false.
Proof.
  revert i. induction s as [|x s IH]; intros i; simpl; [discriminate|].
  destruct (Py.rfind c s) as [j|] eqn:Hj.
  - intros [= <-]. destruct (IH j eq_refl) as (a & b & -> & Hlen & Hb).
    exists (String x a), b. repeat split; [simpl; now rewrite Hlen | exact Hb].
  - destruct (Ascii.eqb x c) eqn:Hx; [|discriminate].
    intros [= <-]. apply Ascii.eqb_eq in Hx as ->.
    exists "", s. repeat split. now apply rfind_none.
Qed.

Lemma substring_skip (a b : string) (n : nat) :
  String.substring (String.length a) n (a +:+ b) = String.substring 0 n b.
Proof.
  induction a as [|x a IH]; [reflexivity|].
  change (String.substring (S (String.length a)) n (String x (a +:+ b))
          = String.substring 0 n b).
  simpl. exact IH.
Qed.

Lemma substring_head (a b : string) :
  String.substring 0 (String.length a) (a +:+ b) = a.
Proof.
  induction a as [|x a IH]; [now destruct b|].
  change (String.substring 0 (S (String.length a)) (String x (a +:+ b))
          = String x a).
  simpl. now rewrite IH.
Qed.

(** [s.rsplit('.', 1)[1]] of a name with a dot is what follows its last
    dot. *)
Lemma after_last_dot_app (stem ext : string) :
  Py.has_char "." ext = false ->
  Py.after_last_dot (stem +:+ "." +:+ ext) = ext.
Proof.
  intros Hext. unfold Py.after_last_dot.
  change (stem +:+ "." +:+ ext) with (stem +:+ String "." ext).
  rewrite (rfind_last "." stem ext Hext).
  rewrite length_append. cbn [String.length].
  replace (String.length stem + S (String.length ext) - S (String.length stem))%nat
    with (String.length ext) by lia.
  change (S (String.length stem)) with (String.length (String "." "") + String.length stem)%nat at 1.
  replace (String.length (String "." "") + String.length stem)%nat
    with (String.length (stem +:+ ".")) by (rewrite length_append; simpl; lia).
  replace (stem +:+ String "." ext) with ((stem +:+ ".") +:+ ext)
    by (rewrite append_assoc; reflexivity).
  rewrite substring_skip. apply substring_all.
Qed.

(** X1. [allowed_file] accepts exactly the names that have a dot and whose
    part after the last dot is, in any case of the letters, one of [png],
    [jpg], [jpeg], [gif]. *)
Theorem allowed_file_iff (filename : string) :
  allowed_file filename = true <->
  exists stem ext,
    filename = stem +:+ "." +:+ ext
    /\ Py.has_char "." ext = false
    /\ Py.lower ext ∈ ALLOWED_EXTENSIONS.
Proof.
  unfold allowed_file. rewrite andb_true_iff, bool_decide_eq_true. split.
  - intros [Hdot Hin].
    destruct (Py.rfind "." filename) as [i|] eqn:Hi.
    + destruct (rfind_split _ _ _ Hi) as (stem & ext & -> & _ & Hext).
      exists stem, ext. split; [reflexivity|]. split; [exact Hext|].
      change (stem +:+ String "." ext) with (stem +:+ "." +:+ ext) in Hin.
      now rewrite after_last_dot_app in Hin.
    + apply rfind_none in Hi. congruence.
  - intros (stem & ext & -> & Hext & Hin). split.
    + rewrite has_char_append. apply orb_true_intro. right. reflexivity.
    + now rewrite after_last_dot_app.
Qed.

Lemma non_dot_between_skip (a b : string) (n : nat) :
  Py.non_dot_between (a +:+ b) (String.length a) (String.length a + n)
  = Py.non_dot_between b 0 n.
Proof.
  induction a as [|x a IH]; [reflexivity|].
  change (Py.non_dot_between (String x (a +:+ b)) (S (String.length a))
            (S (String.length a + n)) = Py.non_dot_between b 0 n).
  simpl. exact IH.
Qed.

Lemma non_dot_between_name (name rest : string) :
  Py.non_dot_between (name +:+ rest) 0 (String.length name) = true
  <-> exists c, Py.has_char c name = true /\ c <> "."%char.
Proof.
  induction name as [|x name IH].
  - simpl. split; [now destruct rest | intros (c & Hc & _); discriminate].
  - change (Py.non_dot_between (String x (name +:+ rest)) 0
              (S (String.length name)) = true
            <-> exists c, Py.has_char c (String x name) = true /\ c <> "."%char).
    simpl. rewrite orb_true_iff, IH, negb_true_iff. split.
    + intros [Hx | (c & Hc & Hne)].
      * exists x. rewrite Ascii.eqb_refl. split; [reflexivity|].
        intros ->. now rewrite Ascii.eqb_refl in Hx.
      * exists c. rewrite Hc, orb_true_r. now split.
    + intros (c & Hc & Hne). apply orb_true_iff in Hc as [Hc | Hc].
      * apply Ascii.eqb_eq in Hc as ->. left.
        now apply Ascii.eqb_neq.
      * right. now exists c.
Qed.

(** [os.path.splitext] of a name [dir + name + "." + ext], where [dir] is
    empty or ends in a slash and neither [name] nor [ext] has one: the
    extension is [.ext] when [name] has a character other than the dot,
    and empty when it has none. *)
Lemma splitext_name (dir name ext : string) :
  (dir = "" \/ exists d, dir = d +:+ "/") ->
  Py.has_char "/" name = false -> Py.has_char "/" ext = false ->
  Py.has_char "." ext = false ->
  Py.splitext (dir +:+ name +:+ "." +:+ ext)
  = if Py.non_dot_between (name +:+ "." +:+ ext) 0 (String.length name)
    then (dir +:+ name, "." +:+ ext)
    else (dir +:+ name +:+ "." +:+ ext, "").
Proof.
  intros Hdir Hname Hext Hdot. unfold Py.splitext.
  assert (dir +:+ name +:+ "." +:+ ext = (dir +:+ name) +:+ String "." ext)
    as Hp by (now rewrite append_assoc).
  assert (Py.rfind "." (dir +:+ name +:+ "." +:+ ext)
          = Some (String.length (dir +:+ name))) as ->
    by (rewrite Hp; now apply rfind_last).
  assert (match Py.rfind "/" (dir +:+ name +:+ "." +:+ ext) with
          | Some i => S i
          | None => O
          end = String.length dir) as ->.
  { assert (Py.has_char "/" (name +:+ "." +:+ ext) = false) as Htail.
    { rewrite has_char_append, Hname.
      change ("." +:+ ext) with (String "." ext). simpl. exact Hext. }
    destruct Hdir as [-> | [d ->]].
    - change ("" +:+ name +:+ "." +:+ ext) with (name +:+ "." +:+ ext).
      apply rfind_none in Htail. now rewrite Htail.
    - rewrite append_assoc.
      change ("/" +:+ name +:+ "." +:+ ext)
        with (String "/" (name +:+ "." +:+ ext)).
      rewrite (rfind_last "/" d _ Htail), length_append. simpl. lia. }
  rewrite (length_append dir name).
  destruct (Nat.leb_spec (String.length dir)
              (String.length dir + String.length name)) as [_|]; [|lia].
  cbn [andb]. rewrite non_dot_between_skip.
  destruct (Py.non_dot_between _ 0 _); [|reflexivity].
  rewrite Hp. rewrite <- (length_append dir name).
  rewrite substring_head, substring_skip, length_append.
  replace (String.length (dir +:+ name) + String.length (String "." ext)
           - String.length (dir +:+ name))%nat
    with (String.length (String "." ext)) by lia.
  now rewrite substring_all.
Qed.

Lemma dotted_extension (e : string) :
  "." +:+ e ∈ [".png"; ".jpg"; ".jpeg"; ".gif"] <-> e ∈ ALLOWED_EXTENSIONS.
Proof.
  unfold ALLOWED_EXTENSIONS. rewrite !elem_of_cons, !elem_of_nil.
  change ("." +:+ e) with (String "." e).
  split; intros H; repeat (destruct H as [H|H]); try contradiction.
  all: first [ injection H as -> | subst e ]; tauto.
Qed.

(** X2. The extension [upload] gives the output of a photo named
    [dir + name + "." + ext]: when [name] has a character other than the
    dot it is [.ext] in lower case if [allowed_file] accepts it and [.png]
    if not; when [name] is empty or all dots, as in [".jpg"], the name has
    no extension for [os.path.splitext] and the output is [.png] even for
    a name [allowed_file] accepts as a JPEG. *)
Theorem output_extension_of_name (dir name ext : string) :
  (dir = "" \/ exists d, dir = d +:+ "/") ->
  Py.has_char "/" name = false -> Py.has_char "/" ext = false ->
  Py.has_char "." ext = false ->
  let photo_filename := dir +:+ name +:+ "." +:+ ext in
  allowed_file photo_filename
  = bool_decide (Py.lower ext ∈ ALLOWED_EXTENSIONS)
  /\ ((exists c, Py.has_char c name = true /\ c <> "."%char) ->
      output_extension photo_filename
      = if allowed_file photo_filename then "." +:+ Py.lower ext else ".png")
  /\ ((forall c, Py.has_char c name = true -> c = "."%char) ->
      output_extension photo_filename = ".png").
Proof.
  intros Hdir Hname Hext Hdot photo_filename.
  assert (allowed_file photo_filename
          = bool_decide (Py.lower ext ∈ ALLOWED_EXTENSIONS)) as Hallowed.
  { unfold allowed_file, photo_filename.
    replace (dir +:+ name +:+ "." +:+ ext)
      with ((dir +:+ name) +:+ "." +:+ ext) by (now rewrite append_assoc).
    rewrite after_last_dot_app by exact Hdot.
    rewrite has_char_append.
    change ("." +:+ ext) with (String "." ext). simpl.
    now rewrite orb_true_r. }
  split; [exact Hallowed|].
  unfold output_extension, photo_filename.
  rewrite splitext_name by assumption.
  split.
  - intros Hnon. apply (non_dot_between_name name ("." +:+ ext)) in Hnon.
    rewrite Hnon. cbn [snd]. rewrite lower_append.
    change (Py.lower ".") with ".".
    change (Py.truthy ("." +:+ Py.lower ext)) with true. cbn [negb orb].
    fold photo_filename. rewrite Hallowed.
    destruct (decide (Py.lower ext ∈ ALLOWED_EXTENSIONS)) as [Hin|Hout].
    + rewrite (bool_decide_eq_true_2 _ Hin).
      rewrite bool_decide_eq_true_2 by (now apply dotted_extension).
      reflexivity.
    + rewrite (bool_decide_eq_false_2 _ Hout).
      rewrite bool_decide_eq_false_2
        by (intros Hin; now apply dotted_extension in Hin).
      reflexivity.
  - intros Hall.
    destruct (Py.non_dot_between (name +:+ "." +:+ ext) 0 (String.length name))
      eqn:Hnon.
    + apply non_dot_between_name in Hnon as (c & Hc & Hne).
      now apply Hall in Hc.
    + reflexivity.
Qed.

Lemma output_extension_of_name_witness :
  output_extension "shots/IMG 1.JPeG" = ".jpeg"
  /\ allowed_file ".jpg" = true /\ output_extension ".jpg" = ".png".
Proof.
  destruct (output_extension_of_name "shots/" "IMG 1" "JPeG")
    as (Hallowed & Hnamed & _);
    [right; now exists "shots" | reflexivity..|].
  destruct (output_extension_of_name "" "" "jpg")
    as (Hhidden & _ & Hdots); [now left | reflexivity..|].
  split; [|split].
  - change "shots/IMG 1.JPeG" with ("shots/" +:+ "IMG 1" +:+ "." +:+ "JPeG").
    rewrite Hnamed; [reflexivity|].
    exists "I"%char. split; [reflexivity|discriminate].
  - exact Hhidden.
  - apply Hdots. intros c Hc. discriminate.
Defined.

(* ===================================================================== *)
(** * The layout of the caption *)
(* ===================================================================== *)

Section FooterLayout.
Context `{Collaborators}.

Lemma draw_lines_calls (draw : ref) (xc sp : Z) (data : list line_datum) :
  forall (y : Z) (w : World),
    draw_lines draw xc sp y data w = draw_all draw (text_calls xc sp y data) w.
Proof.
  induction data as [|d rest IH]; intros y w; [reflexivity|].
  cbn [draw_lines text_calls draw_all tc_xy tc_text tc_font]. unfold bind.
  destruct (Draw_text draw _ _ _ w) as [[[]|e] w1]; [apply IH | reflexivity].
Qed.

Lemma text_calls_texts (xc sp : Z) (data : list line_datum) :
  forall y, map tc_text (text_calls xc sp y data) = map ld_text data.
Proof.
  induction data as [|d rest IH]; intros y; [reflexivity|].
  cbn [text_calls map tc_text]. now rewrite IH.
Qed.

Lemma text_calls_lookup (xc sp : Z) (data : list line_datum) :
  forall y i call,
    text_calls xc sp y data !! i = Some call ->
    exists d, data !! i = Some d
              /\ tc_text call = ld_text d /\ tc_font call = ld_font d
              /\ fst (tc_xy call) = xc - ld_w d / 2.
Proof.
  induction data as [|d rest IH]; intros y i call Hcall; [discriminate|].
  destruct i as [|i]; cbn [text_calls] in Hcall.
  - injection Hcall as <-. exists d. repeat split.
  - apply (IH _ i call Hcall).
Qed.

Lemma text_calls_stacked (xc sp : Z) (data : list line_datum) :
  forall y i a b d,
    text_calls xc sp y data !! i = Some a ->
    text_calls xc sp y data !! S i = Some b ->
    data !! i = Some d ->
    snd (tc_xy b) = snd (tc_xy a) + ld_h d + sp.
Proof.
  induction data as [|d0 rest IH]; intros y i a b d Ha Hb Hd; [discriminate|].
  destruct i as [|i]; cbn [text_calls] in Ha, Hb.
  - injection Ha as <-. injection Hd as <-.
    destruct rest as [|d1 rest]; [discriminate|].
    cbn [text_calls] in Hb. injection Hb as <-. reflexivity.
  - apply (IH _ i a b d Ha Hb Hd).
Qed.

Lemma text_calls_span (xc sp : Z) (data : list line_datum) :
  forall y, data <> [] ->
    exists first final d,
      text_calls xc sp y data !! 0%nat = Some first
      /\ last (text_calls xc sp y data) = Some final
      /\ last data = Some d
      /\ snd (tc_xy first) = y
      /\ snd (tc_xy final) + ld_h d = y + total_text_height sp data.
Proof.
  induction data as [|d0 rest IH]; intros y Hne; [contradiction|].
  destruct rest as [|d1 rest].
  - eexists _, _, d0. split; [reflexivity|]. split; [reflexivity|].
    split; [reflexivity|]. split; [reflexivity|].
    cbn [tc_xy snd total_text_height]. lia.
  - destruct (IH (y + ld_h d0 + sp) ltac:(discriminate))
      as (first & final & d & _ & Hlast & Hd & _ & Hspan).
    eexists _, final, d. split; [reflexivity|].
    split; [|split; [|split]].
    + cbn [text_calls] in Hlast |- *. exact Hlast.
    + exact Hd.
    + reflexivity.
    + rewrite Hspan. cbn [total_text_height]. lia.
Qed.

(** X3. The layout [draw_footer_text] gives the caption.  Its lines are
    drawn once each, in their order, the first in the main font and the
    others in the secondary one; every line is centred horizontally in
    the footer rectangle, to the pixel; each line starts below the line
    before it by the height of that line and the spacing; and the block
    of the lines, [total_text_height] high, is centred vertically in the
    rectangle, to the pixel. *)
Theorem footer_text_layout (c : Caption) (draw : ref) (lines : list string)
    (r0 r1 r2 r3 fsb : Z) :
  lines <> [] ->
  let font_main := load_font fsb in
  let font_sub := load_font (Py.int_mul fsb (sub_factor c)) in
  let line_spacing := Py.int_mul fsb (spacing_factor c) in
  let line_data := imap (measure_line font_main font_sub) lines in
  let height := total_text_height line_spacing line_data in
  let calls := text_calls ((r0 + r2) / 2) line_spacing
                          ((r1 + r3) / 2 - height / 2) line_data in
  (forall w, draw_footer_text c draw lines (r0, r1, r2, r3) fsb w
             = draw_all draw calls w)
  /\ map tc_text calls = lines
  /\ (forall i call, calls !! i = Some call ->
        tc_font call = match i with O => font_main | S _ => font_sub end)
  /\ (forall i call d, calls !! i = Some call -> line_data !! i = Some d ->
        let left := fst (tc_xy call) - r0 in
        let right := r2 - (fst (tc_xy call) + ld_w d) in
        -1 <= left - right <= 1)
  /\ (forall i a b d,
        calls !! i = Some a -> calls !! S i = Some b ->
        line_data !! i = Some d ->
        snd (tc_xy b) = snd (tc_xy a) + ld_h d + line_spacing)
  /\ exists first final d,
       calls !! 0%nat = Some first /\ last calls = Some final
       /\ last line_data = Some d
       /\ let top := snd (tc_xy first) in
          let bottom := snd (tc_xy final) + ld_h d in
          bottom - top = height
          /\ -1 <= (top - r1) - (r3 - bottom) <= 1.
Proof.
  intros Hlines font_main font_sub line_spacing line_data height calls.
  assert (forall i d, line_data !! i = Some d ->
            exists line, lines !! i = Some line
                         /\ d = measure_line font_main font_sub i line)
    as Hdata.
  { intros i d Hd. unfold line_data in Hd. rewrite list_lookup_imap in Hd.
    destruct (lines !! i) as [line|]; [|discriminate].
    injection Hd as <-. now exists line. }
  split; [|split; [|split; [|split; [|split]]]].
  - intros w. unfold draw_footer_text.
    destruct lines as [|l ls]; [contradiction|]. apply draw_lines_calls.
  - unfold calls. rewrite text_calls_texts. apply list_eq. intros i.
    unfold line_data. rewrite list_lookup_fmap, list_lookup_imap.
    destruct (lines !! i) as [line|]; [|reflexivity]. cbn. f_equal.
    unfold measure_line. now destruct (textbbox line _) as [[[b0 b1] b2] b3].
  - intros i call Hcall.
    destruct (text_calls_lookup _ _ _ _ _ _ Hcall) as (d & Hd & _ & -> & _).
    destruct (Hdata i d Hd) as (line & _ & ->).
    unfold measure_line. destruct (textbbox line _) as [[[b0 b1] b2] b3].
    reflexivity.
  - intros i call d Hcall Hd.
    destruct (text_calls_lookup _ _ _ _ _ _ Hcall) as (d' & Hd' & _ & _ & Hx).
    rewrite Hd in Hd'. injection Hd' as <-. cbv zeta. rewrite Hx.
    pose proof (Z.div_mod (r0 + r2) 2 ltac:(lia)).
    pose proof (Z.mod_pos_bound (r0 + r2) 2 ltac:(lia)).
    pose proof (Z.div_mod (ld_w d) 2 ltac:(lia)).
    pose proof (Z.mod_pos_bound (ld_w d) 2 ltac:(lia)).
    lia.
  - intros i a b d. apply text_calls_stacked.
  - assert (line_data <> []) as Hne.
    { unfold line_data. destruct lines; [contradiction | discriminate]. }
    destruct (text_calls_span ((r0 + r2) / 2) line_spacing line_data
                ((r1 + r3) / 2 - height / 2) Hne)
      as (first & final & d & Hfirst & Hlast & Hd & Htop & Hspan).
    exists first, final, d. split; [exact Hfirst|]. split; [exact Hlast|].
    split; [exact Hd|]. cbv zeta. rewrite Htop.
    fold height in Hspan.
    pose proof (Z.div_mod (r1 + r3) 2 ltac:(lia)).
    pose proof (Z.mod_pos_bound (r1 + r3) 2 ltac:(lia)).
    pose proof (Z.div_mod height 2 ltac:(lia)).
    pose proof (Z.mod_pos_bound height 2 ltac:(lia)).
    lia.
Qed.

End FooterLayout.

Section FooterLayoutWitness.
#[local] Existing Instance Demo.collaborators.

Lemma footer_text_layout_witness :
  let w := mkWorld [Demo.plain 1000 920 PIL.white] ∅ [] in
  draw_footer_text blob_caption 0%nat ["Acme Dental"; "PLUS-4W9"]
                   (0, 800, 1000, 920) 24 w
  = draw_all 0%nat
      [ {| tc_xy := (434, 834); tc_text := "Acme Dental"; tc_font := 24 |};
        {| tc_xy := (458, 865); tc_text := "PLUS-4W9"; tc_font := 21 |} ] w.
Proof.
  intros w.
  exact (proj1 (footer_text_layout blob_caption 0%nat
                 ["Acme Dental"; "PLUS-4W9"] 0 800 1000 920 24
                 ltac:(discriminate)) w).
Defined.

End FooterLayoutWitness.

(* ===================================================================== *)
(** * What [process_photos] does to the outside *)
(* ===================================================================== *)

Section BlobEffects.
Context `{Collaborators}.

(** The events of a photo: its download, then at most the upload of its
    JPEG; its entry is that of the upload when the store accepts it. *)
Lemma blob_photo_events (L Q : option PIL.Image) (pn pc : string)
    (names : list string) (i : nat) (url : string) :
  let r := blob_photo L Q pn pc names i url in
  omap requested (snd r) = [url]
  /\ omap stored (snd r) = match fst r with Some e => [e] | None => [] end
  /\ Forall (fun ev =>
               match ev with
               | EvGet _ => True
               | EvBlobPut name ct _ =>
                   ct = "image/jpeg" /\ name = blob_output_name names i
               | _ => False
               end) (snd r).
Proof.
  unfold blob_photo.
  destruct (requests_get url ≫= _) as [content|]; cbn [fst snd].
  - destruct (Py.truthy BLOB_READ_WRITE_TOKEN); cbn [fst snd].
    + split; [reflexivity|]. split.
      * cbn. now destruct (requests_put _ _ content).
      * repeat constructor.
    + repeat split. repeat constructor.
  - repeat split. repeat constructor.
Qed.

Lemma blob_batch_events (L Q : option PIL.Image) (pn pc : string)
    (names : list string) (urls : list string) :
  forall i,
    let r := blob_batch L Q pn pc names i urls in
    omap requested (snd r) = urls
    /\ omap stored (snd r) = fst r
    /\ Forall (fun ev =>
                 match ev with
                 | EvGet _ => True
                 | EvBlobPut name ct _ =>
                     ct = "image/jpeg"
                     /\ exists j, (i <= j < i + length urls)%nat
                                  /\ name = blob_output_name names j
                 | _ => False
                 end) (snd r).
Proof.
  induction urls as [|url rest IH]; intros i.
  - cbn. repeat split. constructor.
  - cbn [blob_batch].
    destruct (blob_photo_events L Q pn pc names i url) as (Hget & Hput & Hall).
    destruct (blob_photo L Q pn pc names i url) as [entry events].
    destruct (IH (S i)) as (Hgets & Hputs & Halls).
    destruct (blob_batch L Q pn pc names (S i) rest) as [entries later].
    cbn [fst snd] in *. rewrite !omap_app, Hget, Hgets, Hput, Hputs.
    split; [reflexivity|]. split; [now destruct entry|].
    cbn [length]. apply Forall_app. split.
    + eapply Forall_impl; [exact Hall|]. intros [] Hev; try exact Hev.
      destruct Hev as [-> ->]. split; [reflexivity|]. exists i.
      split; [lia | reflexivity].
    + eapply Forall_impl; [exact Halls|]. intros [] Hev; try exact Hev.
      destruct Hev as [-> (j & Hj & ->)]. split; [reflexivity|]. exists j.
      split; [lia | reflexivity].
Qed.

(** X4. What [process_photos] does for a request with photos.  It writes
    no file and changes no image object it did not make.  After the
    download of the logo, if one is asked for, it downloads every photo
    once, in the order of the request; all it sends besides are uploads
    of type [image/jpeg] under the output name of a photo of the request;
    and the response lists the uploads the store accepted, in their
    order, or is the error 500 when there is none. *)
Theorem process_photos_effects (data : ProcessRequest) (w : World) :
  photo_urls data <> [] ->
  let r := process_photos (Some data) w in
  files (snd r) = files w
  /\ (forall i, (i < length (heap w))%nat -> heap (snd r) !! i = heap w !! i)
  /\ exists events,
       trace (snd r) = trace w ++ logo_events data ++ events
       /\ omap requested events = photo_urls data
       /\ Forall (fun ev =>
                    match ev with
                    | EvGet _ => True
                    | EvBlobPut name ct _ =>
                        ct = "image/jpeg"
                        /\ exists i, (i < length (photo_urls data))%nat
                                     /\ name = blob_output_name
                                                 (file_names data) i
                    | _ => False
                    end) events
       /\ fst r = match omap stored events with
                  | [] => Error "Failed to process any photos" 500
                  | entries => Success entries
                  end.
Proof.
  intros Hphotos r. destruct (process_photos_spec data w Hphotos) as [extra Hrun].
  unfold r. rewrite Hrun. cbn [fst snd heap files trace].
  split; [reflexivity|]. split; [intros i Hi; now apply lookup_app_l|].
  exists (snd (batch_of data)). split; [reflexivity|].
  destruct (blob_batch_events (logo_of data) (qr_of data)
              (Py.strip (practice_name data)) (Py.strip (plus_code data))
              (file_names data) (photo_urls data) 0%nat)
    as (Hgets & Hputs & Hall).
  fold (batch_of data) in Hgets, Hputs, Hall.
  split; [exact Hgets|]. split.
  - eapply Forall_impl; [exact Hall|]. intros [] Hev; try exact Hev.
    destruct Hev as [-> (j & Hj & ->)]. split; [reflexivity|]. exists j.
    split; [lia | reflexivity].
  - rewrite Hputs. now destruct (fst (batch_of data)).
Qed.

End BlobEffects.

Section BlobEffectsWitness.
#[local] Existing Instance Demo.collaborators.

Lemma process_photos_effects_witness :
  let r := process_photos (Some Demo.request) Demo.empty_world in
  files (snd r) = ∅
  /\ omap requested (trace (snd r))
     = "https://blob/logo.png" :: photo_urls Demo.request.
Proof.
  intros r.
  destruct (process_photos_effects Demo.request Demo.empty_world
              ltac:(discriminate))
    as (Hfiles & _ & events & Htrace & Hgets & _).
  fold r in Hfiles, Htrace. split; [exact Hfiles|].
  rewrite Htrace. change (trace Demo.empty_world) with (@nil Event).
  rewrite app_nil_l, omap_app, Hgets. reflexivity.
Defined.

End BlobEffectsWitness.

(* ===================================================================== *)
(** * [process_photos] without a token, without an overlay, without names *)
(* ===================================================================== *)

Section BlobEdges.
Context `{Collaborators}.

Lemma blob_batch_without_token (L Q : option PIL.Image) (pn pc : string)
    (names : list string) (urls : list string) :
  Py.truthy BLOB_READ_WRITE_TOKEN = false ->
  forall i, blob_batch L Q pn pc names i urls = ([], map EvGet urls).
Proof.
  intros Htoken. induction urls as [|url rest IH]; intros i; [reflexivity|].
  cbn [blob_batch map]. rewrite (IH (S i)). unfold blob_photo. rewrite Htoken.
  now destruct (requests_get url ≫= _).
Qed.

(** X5. Without a token for the blob store [process_photos] still
    downloads the logo and every photo of the request, uploads nothing,
    and answers with the error 500 that no photo could be processed. *)
Theorem process_photos_without_token (data : ProcessRequest) (w : World) :
  Py.truthy BLOB_READ_WRITE_TOKEN = false ->
  photo_urls data <> [] ->
  let r := process_photos (Some data) w in
  fst r = Error "Failed to process any photos" 500
  /\ files (snd r) = files w
  /\ trace (snd r)
     = trace w ++ logo_events data ++ map EvGet (photo_urls data).
Proof.
  intros Htoken Hphotos r.
  destruct (process_photos_spec data w Hphotos) as [extra Hrun].
  unfold r. rewrite Hrun. unfold batch_of.
  rewrite (blob_batch_without_token _ _ _ _ _ _ Htoken).
  repeat split.
Qed.

(** X6. An overlay that cannot be had is as good as none.  When the logo
    of a request cannot be downloaded or decoded, [process_photos] gives
    the response of the same request without a logo and does the same to
    the outside after the failed download; when the QR code cannot be
    made, it gives the response and the trace of the request without a QR
    link. *)
Theorem overlay_failure_is_absence (data : ProcessRequest) (w : World) :
  photo_urls data <> [] ->
  let r := process_photos (Some data) w in
  (logo_of data = None ->
   let r' := process_photos
               (Some {| photo_urls := photo_urls data; logo_url := None;
                        qr_url := qr_url data;
                        practice_name := practice_name data;
                        plus_code := plus_code data;
                        file_names := file_names data |}) w in
   fst r = fst r'
   /\ exists events, trace (snd r) = trace w ++ logo_events data ++ events
                     /\ trace (snd r') = trace w ++ events)
  /\ (qr_of data = None ->
      let r' := process_photos
                  (Some {| photo_urls := photo_urls data;
                           logo_url := logo_url data; qr_url := None;
                           practice_name := practice_name data;
                           plus_code := plus_code data;
                           file_names := file_names data |}) w in
      fst r = fst r' /\ trace (snd r) = trace (snd r')).
Proof.
  intros Hphotos r.
  destruct (process_photos_spec data w Hphotos) as [extra Hrun].
  split.
  - intros Hlogo r'.
    destruct (process_photos_spec
                {| photo_urls := photo_urls data; logo_url := None;
                   qr_url := qr_url data; practice_name := practice_name data;
                   plus_code := plus_code data;
                   file_names := file_names data |} w Hphotos)
      as [extra' Hrun'].
    unfold r, r'. rewrite Hrun, Hrun'.
    unfold batch_of, logo_events. cbn [photo_urls logo_url qr_url practice_name
                                      plus_code file_names given fst snd trace].
    rewrite Hlogo.
    change (qr_of {| photo_urls := photo_urls data; logo_url := None;
                     qr_url := qr_url data;
                     practice_name := practice_name data;
                     plus_code := plus_code data;
                     file_names := file_names data |}) with (qr_of data).
    change (logo_of {| photo_urls := photo_urls data; logo_url := None;
                       qr_url := qr_url data;
                       practice_name := practice_name data;
                       plus_code := plus_code data;
                       file_names := file_names data |}) with (@None PIL.Image).
    split; [reflexivity|]. eexists. split; reflexivity.
  - intros Hqr r'.
    destruct (process_photos_spec
                {| photo_urls := photo_urls data; logo_url := logo_url data;
                   qr_url := None; practice_name := practice_name data;
                   plus_code := plus_code data;
                   file_names := file_names data |} w Hphotos)
      as [extra' Hrun'].
    unfold r, r'. rewrite Hrun, Hrun'.
    unfold batch_of, logo_events. cbn [photo_urls logo_url qr_url practice_name
                                      plus_code file_names fst snd trace].
    rewrite Hqr.
    change (logo_of {| photo_urls := photo_urls data;
                       logo_url := logo_url data; qr_url := None;
                       practice_name := practice_name data;
                       plus_code := plus_code data;
                       file_names := file_names data |}) with (logo_of data).
    change (qr_of {| photo_urls := photo_urls data;
                     logo_url := logo_url data; qr_url := None;
                     practice_name := practice_name data;
                     plus_code := plus_code data;
                     file_names := file_names data |}) with (@None PIL.Image).
    split; reflexivity.
Qed.

Lemma default_name_inj (i j : nat) :
  blob_output_name [] i = blob_output_name [] j -> i = j.
Proof.
  unfold blob_output_name. rewrite !lookup_nil. intros Heq.
  apply append_inv_tail in Heq. apply String.app_inj in Heq.
  apply pretty_nat_inj in Heq. lia.
Qed.

Lemma blob_batch_names (L Q : option PIL.Image) (pn pc : string)
    (names : list string) (urls : list string) :
  forall i,
    map snd (fst (blob_batch L Q pn pc names i urls))
    `sublist_of` map (blob_output_name names) (seq i (length urls)).
Proof.
  induction urls as [|url rest IH]; intros i; [reflexivity|].
  cbn [blob_batch length seq map].
  assert (forall e, fst (blob_photo L Q pn pc names i url) = Some e ->
                    snd e = blob_output_name names i) as Hname.
  { unfold blob_photo. intros e.
    destruct (requests_get url ≫= _) as [content|]; [|discriminate].
    destruct (Py.truthy BLOB_READ_WRITE_TOKEN); [|discriminate].
    cbn [fst]. destruct (requests_put _ _ content); [|discriminate].
    now intros [= <-]. }
  destruct (blob_photo L Q pn pc names i url) as [[e|] events].
  - specialize (IH (S i)).
    destruct (blob_batch L Q pn pc names (S i) rest) as [entries later].
    cbn [fst map] in *. rewrite (Hname e eq_refl). now apply sublist_skip.
  - specialize (IH (S i)).
    destruct (blob_batch L Q pn pc names (S i) rest) as [entries later].
    cbn [fst] in *. now apply sublist_cons.
Qed.

(** X7. The names [process_photos] gives the outputs when the request
    gives none: the output of the photo at index [i] is [photo_{i+1}.jpg],
    so the names of a response are pairwise different and follow the
    order of the photos. *)
Theorem default_output_names_distinct (data : ProcessRequest) (w : World)
    (entries : list (string * string)) :
  photo_urls data <> [] -> file_names data = [] ->
  fst (process_photos (Some data) w) = Success entries ->
  NoDup (map snd entries)
  /\ map snd entries
     `sublist_of` map (fun i => "photo_" +:+ pretty (i + 1)%nat +:+ ".jpg")
                      (seq 0 (length (photo_urls data))).
Proof.
  intros Hphotos Hnames Hrun.
  destruct (process_photos_spec data w Hphotos) as [extra Hspec].
  rewrite Hspec in Hrun. cbn [fst] in Hrun.
  assert (entries = fst (batch_of data)) as ->.
  { destruct (fst (batch_of data)); [discriminate | now injection Hrun]. }
  pose proof (blob_batch_names (logo_of data) (qr_of data)
                (Py.strip (practice_name data)) (Py.strip (plus_code data))
                (file_names data) (photo_urls data) 0%nat) as Hsub.
  fold (batch_of data) in Hsub. rewrite Hnames in Hsub.
  split.
  - eapply sublist_NoDup; [|exact Hsub].
    apply NoDup_fmap_2_strong; [|apply NoDup_seq].
    intros i j _ _. apply default_name_inj.
  - exact Hsub.
Qed.

End BlobEdges.

Section BlobEdgesWitness.

Lemma process_photos_without_token_witness :
  fst (@process_photos Unconfigured.collaborators (Some Demo.twins)
                       Demo.empty_world)
  = Error "Failed to process any photos" 500.
Proof.
  exact (proj1 (@process_photos_without_token Unconfigured.collaborators
                  Demo.twins Demo.empty_world eq_refl ltac:(discriminate))).
Defined.

#[local] Existing Instance Demo.collaborators.

Lemma overlay_failure_is_absence_witness :
  let with_logo :=
    {| photo_urls := ["https://blob/a.jpg"];
       logo_url := Some "https://blob/corrupt.jpg"; qr_url := None;
       practice_name := ""; plus_code := ""; file_names := [] |} in
  let without_logo :=
    {| photo_urls := ["https://blob/a.jpg"];
       logo_url := None; qr_url := None;
       practice_name := ""; plus_code := ""; file_names := [] |} in
  fst (process_photos (Some with_logo) Demo.empty_world)
  = fst (process_photos (Some without_logo) Demo.empty_world).
Proof.
  intros with_logo without_logo.
  exact (proj1 (proj1 (overlay_failure_is_absence with_logo Demo.empty_world
                         ltac:(discriminate)) eq_refl)).
Defined.

Lemma default_output_names_distinct_witness :
  let data :=
    {| photo_urls := ["https://blob/a.jpg"; "https://blob/b.png"];
       logo_url := None; qr_url := None;
       practice_name := ""; plus_code := ""; file_names := [] |} in
  NoDup (map snd [("https://store/photo_1.jpg", "photo_1.jpg");
                  ("https://store/photo_2.jpg", "photo_2.jpg")]).
Proof.
  intros data.
  exact (proj1 (default_output_names_distinct data Demo.empty_world _
                  ltac:(discriminate) eq_refl eq_refl)).
Defined.

End BlobEdgesWitness.

(* ===================================================================== *)
(** * [upload] works on the two folders only *)
(* ===================================================================== *)

Section LocalWorkProofs.
Context `{Collaborators}.

Lemma works_locally_refl (w : World) : works_locally w w.
Proof.
  split; [auto|]. exists []. split; [now rewrite app_nil_r | constructor].
Qed.

Lemma works_locally_trans (w1 w2 w3 : World) :
  works_locally w1 w2 -> works_locally w2 w3 -> works_locally w1 w3.
Proof.
  intros [Hf12 (e12 & Ht12 & Hl12)] [Hf23 (e23 & Ht23 & Hl23)]. split.
  - intros path content Hp Hc. apply Hf23; [exact Hp|]. now apply Hf12.
  - exists (e12 ++ e23). split.
    + rewrite Ht23, Ht12. now rewrite <- app_assoc.
    + now apply Forall_app.
Qed.

Lemma keeps_ret {A} (a : A) : keeps (ret a).
Proof. intros w. apply works_locally_refl. Qed.

Lemma keeps_raise {A} (e : string) : keeps (@raise A e).
Proof. intros w. apply works_locally_refl. Qed.

Lemma keeps_expect {A} (o : option A) (e : string) : keeps (expect o e).
Proof. destruct o; [apply keeps_ret | apply keeps_raise]. Qed.

Lemma keeps_bind {A B} (m : M A) (k : A -> M B) :
  keeps m -> (forall a, keeps (k a)) -> keeps (bind m k).
Proof.
  intros Hm Hk w. unfold bind. specialize (Hm w).
  destruct (m w) as [[a|e] w1]; cbn [snd] in *; [|exact Hm].
  eapply works_locally_trans; [exact Hm | apply Hk].
Qed.

Lemma keeps_try_except {A} (m : M A) (handler : string -> M A) :
  keeps m -> (forall e, keeps (handler e)) -> keeps (try_except m handler).
Proof.
  intros Hm Hh w. unfold try_except. specialize (Hm w).
  destruct (m w) as [[a|e] w1]; cbn [snd] in *; [exact Hm|].
  eapply works_locally_trans; [exact Hm | apply Hh].
Qed.

Lemma processed_not_uploads (path : string) :
  in_processed path -> in_uploads path -> False.
Proof.
  intros [n ->] [a Heq]. symmetry in Heq. now apply folders_disjoint in Heq.
Qed.

Lemma keeps_path_exists (path : string) : keeps (path_exists path).
Proof. intros w. apply works_locally_refl. Qed.

Lemma keeps_file_read (path : string) : keeps (file_read path).
Proof.
  intros w. unfold file_read. destruct (files w !! path);
    apply works_locally_refl.
Qed.

(** Writing a file of the upload folder. *)
Lemma keeps_file_write (path : string) (content : bytes) :
  in_uploads path -> keeps (file_write path content).
Proof.
  intros Hpath w. unfold file_write. cbn [snd]. split; cbn [files trace].
  - intros p c Hp Hc. rewrite lookup_insert_ne; [exact Hc|].
    intros ->. exact (processed_not_uploads _ Hp Hpath).
  - exists [EvFileWrite path content]. split; [reflexivity|].
    constructor; [now left | constructor].
Qed.

Lemma keeps_os_remove (path : string) :
  in_uploads path -> keeps (os_remove path).
Proof.
  intros Hpath w. unfold os_remove.
  destruct (files w !! path) as [c|]; cbn [snd]; [|apply works_locally_refl].
  split; cbn [files trace].
  - intros p c' Hp Hc. rewrite lookup_delete_ne; [exact Hc|].
    intros ->. exact (processed_not_uploads _ Hp Hpath).
  - exists [EvFileRemove path]. split; [reflexivity|].
    constructor; [exact Hpath | constructor].
Qed.

Lemma keeps_remove_if_exists (path : option string) :
  temporary path -> keeps (remove_if_exists path).
Proof.
  intros Htemp. destruct path as [p|]; [|apply keeps_ret].
  apply keeps_bind; [apply keeps_path_exists|].
  intros [|]; [apply keeps_os_remove; now apply Htemp | apply keeps_ret].
Qed.

Lemma keeps_cleanup (logo qr_code : option string) :
  temporary logo -> temporary qr_code -> keeps (cleanup logo qr_code).
Proof.
  intros Hl Hq. apply keeps_bind; [now apply keeps_remove_if_exists|].
  intros _. now apply keeps_remove_if_exists.
Qed.

Lemma keeps_on_exception (logo qr_code : option string) (e : string) :
  temporary logo -> temporary qr_code -> keeps (on_exception logo qr_code e).
Proof.
  intros Hl Hq. apply keeps_bind; [now apply keeps_cleanup|].
  intros _. apply keeps_ret.
Qed.

(** One photo: its copy is written in the upload folder and its output
    under a name that was free in the processed folder. *)
Lemma keeps_upload_photo (logo qr_code : option string) (pn pc : string)
    (names : list string) (i : nat) (photo : FileStorage) :
  keeps (upload_photo logo qr_code pn pc names i photo).
Proof.
  intros w.
  destruct (upload_photo_spec logo qr_code pn pc names i photo w)
    as (extra & res & w' & Hrun & _ & Hspec).
  rewrite Hrun. cbn [snd]. cbv zeta in Hspec.
  assert (in_uploads (upload_path photo)) as Hup
    by (now exists (secure_filename (filename photo))).
  assert (forall path content,
             in_processed path -> files w !! path = Some content ->
             <[upload_path photo := stream photo]> (files w) !! path
             = Some content) as Hsaved.
  { intros p c Hp Hc. rewrite lookup_insert_ne; [exact Hc|].
    intros Heq. rewrite <- Heq in Hp. exact (processed_not_uploads _ Hp Hup). }
  assert (local_event (EvFileWrite (upload_path photo) (stream photo)))
    as Hev by (now left).
  destruct (folder_canvas _ logo qr_code pn pc photo) as [canvas|].
  - destruct Hspec as (output_name & Hfree & _ & Hsave).
    destruct (image_save _ _) as [content|].
    + destruct Hsave as (_ & Hfiles & Htrace). split.
      * intros p c Hp Hc. rewrite Hfiles.
        rewrite lookup_insert_ne; [now apply Hsaved|].
        intros Heq. rewrite <- Heq in Hc.
        apply Hsaved in Hc; [|now exists output_name]. congruence.
      * eexists. split; [exact Htrace|].
        constructor; [exact Hev|]. constructor; [|constructor].
        right. now exists output_name.
    + destruct Hsave as (_ & Hfiles & Htrace). split.
      * intros p c Hp Hc. rewrite Hfiles. now apply Hsaved.
      * eexists. split; [exact Htrace|]. constructor; [exact Hev|constructor].
  - destruct Hspec as (_ & Hfiles & Htrace). split.
    + intros p c Hp Hc. rewrite Hfiles. now apply Hsaved.
    + eexists. split; [exact Htrace|]. constructor; [exact Hev|constructor].
Qed.

(** The path [upload_photo] returns for removal is that of the copy. *)
Lemma upload_photo_returns (logo qr_code : option string) (pn pc : string)
    (names : list string) (i : nat) (photo : FileStorage) (w w' : World)
    (output_path output_name file_path : string) :
  upload_photo logo qr_code pn pc names i photo w
  = (Ok (output_path, output_name, file_path), w') ->
  file_path = upload_path photo
  /\ output_path = os_path_join PROCESSED_FOLDER output_name
  /\ files w' !! file_path = Some (stream photo)
  /\ is_Some (files w' !! output_path).
Proof.
  intros Hrun.
  destruct (upload_photo_spec logo qr_code pn pc names i photo w)
    as (extra & res & w1 & Hspec & _ & Hcases).
  rewrite Hrun in Hspec. injection Hspec as <- <-. cbv zeta in Hcases.
  destruct (folder_canvas _ logo qr_code pn pc photo) as [canvas|];
    [|now destruct Hcases as ([msg Hmsg] & _)].
  destruct Hcases as (name & Hfree & _ & Hsave).
  destruct (image_save _ _) as [content|];
    [|now destruct Hsave as ([msg Hmsg] & _)].
  destruct Hsave as (Hres & Hfiles & _). injection Hres as -> -> ->.
  split; [reflexivity|]. split; [reflexivity|]. rewrite Hfiles. split.
  - rewrite lookup_insert_ne by (intros Heq; symmetry in Heq;
                                 now apply folders_disjoint in Heq).
    apply lookup_insert_eq.
  - rewrite lookup_insert_eq. eauto.
Qed.

Lemma keeps_bind_ok {A B} (m : M A) (k : A -> M B) :
  keeps m ->
  (forall w a w', m w = (Ok a, w') -> works_locally w' (snd (k a w'))) ->
  keeps (bind m k).
Proof.
  intros Hm Hk w. unfold bind. specialize (Hm w).
  destruct (m w) as [[a|e] w1] eqn:Hrun; cbn [snd] in *; [|exact Hm].
  eapply works_locally_trans; [exact Hm | now apply (Hk w)].
Qed.

Lemma keeps_upload_loop (logo qr_code : option string) (pn pc : string)
    (names : list string) (valid_photos : list FileStorage) :
  forall i processed_files output_filenames,
    keeps (upload_loop logo qr_code pn pc names i valid_photos
                       processed_files output_filenames).
Proof.
  induction valid_photos as [|photo rest IH];
    intros i processed_files output_filenames; cbn [upload_loop].
  - apply keeps_ret.
  - apply keeps_bind_ok.
    + apply keeps_try_except; [|intros e; apply keeps_ret].
      apply keeps_bind; [apply keeps_upload_photo | intros out; apply keeps_ret].
    + intros w [[[output_path output_name] file_path]|] w' Hrun; [|apply IH].
      assert (file_path = upload_path photo) as ->.
      { unfold try_except, bind in Hrun.
        destruct (upload_photo logo qr_code pn pc names i photo w)
          as [[[[op on] fp]|e] w1] eqn:Hphoto; [|discriminate].
        injection Hrun as -> -> -> <-.
        now apply upload_photo_returns in Hphoto as [-> _]. }
      apply keeps_bind; [|intros _; apply IH].
      apply keeps_try_except; [|intros e; apply keeps_ret].
      apply keeps_os_remove. now exists (secure_filename (filename photo)).
Qed.

Lemma temporary_none : temporary None.
Proof. intros p Hp. discriminate. Qed.

Lemma temporary_logo : temporary (Some logo_path).
Proof. intros p [= <-]. now exists "temp_logo.png". Qed.

Lemma temporary_qr : temporary (Some qr_path).
Proof. intros p [= <-]. now exists "generated_qr.png". Qed.

Lemma keeps_upload_photos (request : UploadRequest)
    (logo qr_code : option string) (pn pc : string) :
  temporary logo -> temporary qr_code ->
  keeps (upload_photos request logo qr_code pn pc).
Proof.
  intros Hl Hq. unfold upload_photos.
  destruct (negb (existsb _ (photos request))).
  { apply keeps_bind; [now apply keeps_cleanup | intros _; apply keeps_ret]. }
  destruct (List.filter _ (photos request)) as [|photo rest].
  { apply keeps_bind; [now apply keeps_cleanup | intros _; apply keeps_ret]. }
  apply keeps_bind; [apply keeps_upload_loop|].
  intros [processed_files output_filenames].
  apply keeps_bind; [now apply keeps_cleanup|].
  intros _. destruct processed_files; apply keeps_ret.
Qed.

Lemma keeps_upload_from_qr (request : UploadRequest) (logo : option string) :
  temporary logo -> keeps (upload_from_qr request logo).
Proof.
  intros Hl. unfold upload_from_qr.
  destruct (Py.truthy (Py.strip (form_qr_url request))).
  - apply keeps_bind_ok.
    + apply keeps_try_except.
      * apply keeps_bind; [apply keeps_expect|]. intros qr_img.
        apply keeps_bind; [apply keeps_expect|]. intros data.
        apply keeps_bind; [|intros _; apply keeps_ret].
        apply keeps_file_write. now exists "generated_qr.png".
      * intros e. apply keeps_bind; [|intros _; apply keeps_ret].
        destruct logo as [p|]; [|apply keeps_raise].
        apply keeps_bind; [apply keeps_path_exists|].
        intros [|]; [apply keeps_os_remove; now apply Hl | apply keeps_ret].
    + intros w [response|path] w' Hrun; [apply keeps_ret|].
      assert (path = qr_path) as ->.
      { unfold try_except, bind, expect in Hrun.
        destruct (make_qr _) as [qr_img|]; cbn in Hrun.
        - destruct (image_save PNG qr_img) as [data|]; cbn in Hrun.
          + now injection Hrun as <- _.
          + destruct logo as [p|]; cbn in Hrun; [|discriminate].
            destruct (bool_decide _); cbn in Hrun.
            * unfold os_remove in Hrun.
              destruct (files w !! p); discriminate.
            * discriminate.
        - destruct logo as [p|]; cbn in Hrun; [|discriminate].
          destruct (bool_decide _); cbn in Hrun.
          + unfold os_remove in Hrun.
            destruct (files w !! p); discriminate.
          + discriminate. }
      apply keeps_try_except.
      * apply keeps_upload_photos; [exact Hl | apply temporary_qr].
      * intros e. apply keeps_on_exception; [exact Hl | apply temporary_qr].
  - apply keeps_try_except.
    + now apply keeps_upload_photos; [|apply temporary_none].
    + intros e. now apply keeps_on_exception; [|apply temporary_none].
Qed.

Lemma keeps_upload_body (request : UploadRequest) :
  keeps (upload_body request).
Proof.
  unfold upload_body.
  assert (keeps (try_except (upload_from_qr request None)
                            (on_exception None None))) as Hnone.
  { apply keeps_try_except.
    - apply keeps_upload_from_qr, temporary_none.
    - intros e. apply keeps_on_exception; apply temporary_none. }
  destruct (logo_file request) as [logo_file|]; [|exact Hnone].
  destruct (Py.truthy (filename logo_file)); [|exact Hnone].
  destruct (negb (allowed_file (filename logo_file))); [apply keeps_ret|].
  apply keeps_bind.
  - apply keeps_file_write. now exists "temp_logo.png".
  - intros _. apply keeps_try_except.
    + apply keeps_upload_from_qr, temporary_logo.
    + intros e. apply keeps_on_exception;
        [apply temporary_logo | apply temporary_none].
Qed.

(** X8. [upload] works on its two folders only.  Whatever the request,
    every file that was in the processed folder is there afterwards with
    the content it had: no earlier output is overwritten or removed.
    All [upload] does to the outside is to write files in the upload
    folder and the processed folder and to remove files of the upload
    folder; it sends no request. *)
Theorem upload_works_locally (request : UploadRequest) (w : World) :
  let w' := snd (upload request w) in
  (forall name content,
      files w !! os_path_join PROCESSED_FOLDER name = Some content ->
      files w' !! os_path_join PROCESSED_FOLDER name = Some content)
  /\ exists events,
       trace w' = trace w ++ events
       /\ Forall (fun ev =>
                    match ev with
                    | EvFileWrite path _ =>
                        (exists name, path = os_path_join UPLOAD_FOLDER name)
                        \/ (exists name,
                               path = os_path_join PROCESSED_FOLDER name)
                    | EvFileRemove path =>
                        exists name, path = os_path_join UPLOAD_FOLDER name
                    | _ => False
                    end) events.
Proof.
  intros w'.
  assert (works_locally w w') as [Hfiles Htrace].
  { unfold w', upload. pose proof (keeps_upload_body request w) as Hkeeps.
    now destruct (upload_body request w) as [[response|e] w1]. }
  split; [|exact Htrace].
  intros name content. apply Hfiles. now exists name.
Qed.

End LocalWorkProofs.

(* ===================================================================== *)
(** * [upload] cleans up and answers *)
(* ===================================================================== *)

Section CleanUp.
Context `{Collaborators}.

Lemma without_clean (fs : gmap string bytes) (logo qr_code : option string) :
  (forall p, logo = Some p -> without (without fs logo) qr_code !! p = None)
  /\ (forall p, qr_code = Some p ->
                without (without fs logo) qr_code !! p = None).
Proof.
  split; intros p ->.
  - destruct qr_code as [q|]; cbn [without].
    + destruct (decide (q = p)) as [->|Hne].
      * apply lookup_delete_eq.
      * rewrite lookup_delete_ne by exact Hne. apply lookup_delete_eq.
    + apply lookup_delete_eq.
  - cbn [without]. apply lookup_delete_eq.
Qed.

Lemma on_exception_clean (logo qr_code : option string) (e : string)
    (w : World) :
  exists response w',
    on_exception logo qr_code e w = (Ok response, w')
    /\ (forall p, logo = Some p -> files w' !! p = None)
    /\ (forall p, qr_code = Some p -> files w' !! p = None).
Proof.
  unfold on_exception, bind. rewrite cleanup_run. unfold ret.
  eexists _, _. split; [reflexivity|]. cbn [files]. apply without_clean.
Qed.

(** [upload_photos] returns, and the temporary files it was given are
    gone when it does. *)
Lemma upload_photos_clean (request : UploadRequest)
    (logo qr_code : option string) (pn pc : string) (w : World) :
  exists response w',
    upload_photos request logo qr_code pn pc w = (Ok response, w')
    /\ (forall p, logo = Some p -> files w' !! p = None)
    /\ (forall p, qr_code = Some p -> files w' !! p = None).
Proof.
  unfold upload_photos.
  destruct (negb (existsb _ (photos request))).
  { unfold bind. rewrite cleanup_run. unfold ret.
    eexists _, _. split; [reflexivity|]. cbn [files]. apply without_clean. }
  destruct (List.filter _ (photos request)) as [|photo rest] eqn:Hvalid.
  { unfold bind. rewrite cleanup_run. unfold ret.
    eexists _, _. split; [reflexivity|]. cbn [files]. apply without_clean. }
  rewrite <- Hvalid.
  match goal with
  | |- context [upload_loop logo qr_code pn pc ?names 0 ?photos [] []] =>
      destruct (upload_loop_spec logo qr_code pn pc names photos 0%nat [] [] w)
        as (new_names & w1 & Hloop & _)
  end.
  rewrite (bind_ok _ _ _ _ _ Hloop). unfold bind. rewrite cleanup_run.
  unfold ret. cbn [app].
  destruct (map (os_path_join PROCESSED_FOLDER) new_names);
    (eexists _, _; split; [reflexivity|]; cbn [files]; apply without_clean).
Qed.

Lemma guarded_upload_photos_clean (request : UploadRequest)
    (logo qr_code : option string) (pn pc : string) (w : World) :
  exists response w',
    try_except (upload_photos request logo qr_code pn pc)
               (on_exception logo qr_code) w = (Ok response, w')
    /\ (forall p, logo = Some p -> files w' !! p = None)
    /\ (forall p, qr_code = Some p -> files w' !! p = None).
Proof.
  destruct (upload_photos_clean request logo qr_code pn pc w)
    as (response & w' & Hrun & Hclean).
  exists response, w'. unfold try_except. now rewrite Hrun.
Qed.

(** With the logo saved, [upload_from_qr] returns with the logo removed,
    and with the QR code removed when it made one. *)
Lemma upload_from_qr_clean (request : UploadRequest) (logo : option string)
    (w : World) :
  let qr_url := Py.strip (form_qr_url request) in
  (forall p, logo = Some p ->
     exists response w',
       upload_from_qr request logo w = (Ok response, w')
       /\ files w' !! p = None)
  /\ (Py.truthy qr_url = true ->
      forall qr data,
        make_qr (clean_qr_url qr_url) = Some qr ->
        image_save PNG qr = Some data ->
        exists response w',
          upload_from_qr request logo w = (Ok response, w')
          /\ files w' !! qr_path = None).
Proof.
  intros qr_url. unfold upload_from_qr. fold qr_url.
  destruct (Py.truthy qr_url).
  - split.
    + intros p ->. unfold bind at 1. unfold try_except at 1.
      unfold bind at 1. unfold expect at 1.
      destruct (make_qr (clean_qr_url qr_url)) as [qr|]; cbn [ret raise].
      * unfold bind at 1. unfold expect at 1.
        destruct (image_save PNG qr) as [data|]; cbn [ret raise].
        -- unfold bind at 1. unfold file_write at 1. unfold ret at 1.
           destruct (guarded_upload_photos_clean request (Some p)
                       (Some qr_path) (Py.strip (form_practice_name request))
                       (Py.strip (form_plus_code request))
                       (mkWorld (heap w) (<[qr_path := data]> (files w))
                                (trace w ++ [EvFileWrite qr_path data])))
             as (response & w' & Hrun & Hlogo & _).
           exists response, w'. split; [exact Hrun | now apply Hlogo].
        -- unfold bind, path_exists, os_remove, ret.
           destruct (files w !! p) as [c|] eqn:Hp.
           ++ rewrite bool_decide_eq_true_2 by eauto. rewrite Hp.
              eexists _, _. split; [reflexivity|]. apply lookup_delete_eq.
           ++ rewrite bool_decide_eq_false_2 by (intros [? ?]; discriminate).
              eexists _, _. split; [reflexivity | exact Hp].
      * unfold bind, path_exists, os_remove, ret.
        destruct (files w !! p) as [c|] eqn:Hp.
        -- rewrite bool_decide_eq_true_2 by eauto. rewrite Hp.
           eexists _, _. split; [reflexivity|]. apply lookup_delete_eq.
        -- rewrite bool_decide_eq_false_2 by (intros [? ?]; discriminate).
           eexists _, _. split; [reflexivity | exact Hp].
    + intros _ qr data Hqr Hdata. unfold bind at 1. unfold try_except at 1.
      unfold bind at 1. unfold expect at 1. rewrite Hqr. cbn [ret].
      unfold bind at 1. unfold expect at 1. rewrite Hdata. cbn [ret].
      unfold bind at 1. unfold file_write at 1. unfold ret at 1.
      destruct (guarded_upload_photos_clean request logo
                  (Some qr_path) (Py.strip (form_practice_name request))
                  (Py.strip (form_plus_code request))
                  (mkWorld (heap w) (<[qr_path := data]> (files w))
                           (trace w ++ [EvFileWrite qr_path data])))
        as (response & w' & Hrun & _ & Hqrp).
      exists response, w'. split; [exact Hrun | now apply Hqrp].
  - split; [|discriminate]. intros p ->.
    destruct (guarded_upload_photos_clean request (Some p) None
                (Py.strip (form_practice_name request))
                (Py.strip (form_plus_code request)) w)
      as (response & w' & Hrun & Hlogo & _).
    exists response, w'. split; [exact Hrun | now apply Hlogo].
Qed.

(** X9. [upload] answers every request and leaves no temporary file.
    The body of the handler never raises: every exception inside it is
    turned into a response.  When the request has a logo of an allowed
    type, the temporary file of the logo is gone when [upload] answers;
    when it has a QR link, no logo of a type that is not allowed, and the
    QR code can be made and saved, the temporary file of the QR code is
    gone as well. *)
Theorem upload_leaves_no_temporary_file (request : UploadRequest)
    (w : World) :
  let w' := snd (upload request w) in
  let qr_url := Py.strip (form_qr_url request) in
  let named_logo :=
    match logo_file request with
    | Some f => if Py.truthy (filename f) then Some f else None
    | None => None
    end in
  (exists response, upload_body request w = (Ok response, w'))
  /\ (forall f, named_logo = Some f -> allowed_file (filename f) = true ->
        files w' !! logo_path = None)
  /\ (forall qr data,
        (forall f, named_logo = Some f -> allowed_file (filename f) = true) ->
        Py.truthy qr_url = true ->
        make_qr (clean_qr_url qr_url) = Some qr ->
        image_save PNG qr = Some data ->
        files w' !! qr_path = None).
Proof.
  intros w' qr_url named_logo.
  assert (forall logo w0,
             exists response w1,
               try_except (upload_from_qr request logo) (on_exception logo None)
                          w0 = (Ok response, w1)
               /\ (forall p, logo = Some p -> files w1 !! p = None)
               /\ (forall qr data,
                     Py.truthy qr_url = true ->
                     make_qr (clean_qr_url qr_url) = Some qr ->
                     image_save PNG qr = Some data ->
                     files w1 !! qr_path = None)) as Hguard.
  { intros logo w0. unfold try_except.
    destruct (upload_from_qr_clean request logo w0) as [Hlogo Hqr].
    fold qr_url in Hqr.
    destruct (upload_from_qr request logo w0) as [[response|e] w1] eqn:Hrun.
    - exists response, w1. split; [reflexivity|]. split.
      + intros p Hp. destruct (Hlogo p Hp) as (r & w2 & Heq & Hnone).
        now injection Heq as <- <-.
      + intros qr data Hurl Hmake Hsave.
        destruct (Hqr Hurl qr data Hmake Hsave) as (r & w2 & Heq & Hnone).
        now injection Heq as <- <-.
    - destruct (on_exception_clean logo None e w1)
        as (response & w2 & Hexc & Hl & _).
      exists response, w2. split; [exact Hexc|]. split; [exact Hl|].
      intros qr data Hurl Hmake Hsave.
      destruct (Hqr Hurl qr data Hmake Hsave) as (r & w3 & Heq & _).
      discriminate. }
  unfold w', upload, named_logo, upload_body.
  destruct (logo_file request) as [f|].
  2:{ destruct (Hguard None w) as (response & w1 & -> & _ & Hqr).
      cbn [snd]. split; [eauto|]. split; [discriminate|].
      intros qr data _. apply Hqr. }
  destruct (Py.truthy (filename f)).
  2:{ destruct (Hguard None w) as (response & w1 & -> & _ & Hqr).
      cbn [snd]. split; [eauto|]. split; [discriminate|].
      intros qr data _. apply Hqr. }
  destruct (allowed_file (filename f)) eqn:Hallowed; cbn [negb].
  - destruct (Hguard (Some logo_path)
                (mkWorld (heap w) (<[logo_path := stream f]> (files w))
                         (trace w ++ [EvFileWrite logo_path (stream f)])))
      as (response & w1 & Htry & Hlogo & Hqr).
    assert ((file_write logo_path (stream f) ;;
             try_except (upload_from_qr request (Some logo_path))
                        (on_exception (Some logo_path) None)) w
            = (Ok response, w1)) as ->
      by (unfold bind at 1; unfold file_write; exact Htry).
    cbn [snd]. split; [eauto|]. split.
    + intros f' _ _. now apply Hlogo.
    + intros qr data _. apply Hqr.
  - unfold ret. cbn [snd]. split; [eauto|]. split.
    + intros f' [= <-] Hok. congruence.
    + intros qr data Hlogo. specialize (Hlogo f eq_refl). congruence.
Qed.

End CleanUp.

Section CleanUpWitness.
#[local] Existing Instance Demo.collaborators.

Lemma upload_leaves_no_temporary_file_witness :
  let request :=
    {| logo_file := Some {| filename := "logo.png"; stream := "logo-800x200" |};
       photos := [ {| filename := "a.jpg"; stream := "photo-1000x800" |} ];
       form_qr_url := " https://maps.google.com/maps?cid=1 ";
       form_practice_name := ""; form_plus_code := "";
       form_file_names := [] |} in
  let w' := snd (upload request Demo.empty_world) in
  files w' !! logo_path = None /\ files w' !! qr_path = None.
Proof.
  intros request w'.
  destruct (upload_leaves_no_temporary_file request Demo.empty_world)
    as (_ & Hlogo & Hqr).
  split.
  - apply (Hlogo {| filename := "logo.png"; stream := "logo-800x200" |});
      reflexivity.
  - apply (Hqr (Demo.plain 330 330 (PIL.RGBA 0 0 0 255)) "PNG 330x330");
      [intros f [= <-]|..]; reflexivity.
Defined.

End CleanUpWitness.

(* ===================================================================== *)
(** * The checks of [upload] *)
(* ===================================================================== *)

Section UploadChecks.
Context `{Collaborators}.

(** With a logo that passes and a QR code that can be made, the response
    of [upload] is a response of [upload_photos]. *)
Lemma upload_answer (request : UploadRequest) (w : World)
    (P : Response string -> Prop) :
  (forall f, logo_file request = Some f -> Py.truthy (filename f) = true ->
             allowed_file (filename f) = true) ->
  (Py.truthy (Py.strip (form_qr_url request)) = true ->
   exists qr data,
     make_qr (clean_qr_url (Py.strip (form_qr_url request))) = Some qr
     /\ image_save PNG qr = Some data) ->
  (forall logo qr_code w0,
      exists response w',
        upload_photos request logo qr_code
                      (Py.strip (form_practice_name request))
                      (Py.strip (form_plus_code request)) w0
        = (Ok response, w')
        /\ P response) ->
  P (fst (upload request w)).
Proof.
  intros Hlogo Hqr Hphotos.
  assert (forall logo w0,
             exists response w',
               try_except (upload_from_qr request logo)
                          (on_exception logo None) w0 = (Ok response, w')
               /\ P response) as Hfrom.
  { intros logo w0. unfold upload_from_qr.
    destruct (Py.truthy (Py.strip (form_qr_url request))).
    - destruct (Hqr eq_refl) as (qr & data & Hmake & Hsave).
      unfold try_except at 1. unfold bind at 1. unfold try_except at 1.
      rewrite Hmake. unfold expect at 1. unfold bind at 1. unfold ret at 1.
      rewrite Hsave. unfold expect at 1. unfold bind at 1. unfold ret at 1.
      unfold bind at 1. unfold file_write at 1. unfold ret at 1.
      match goal with
      | |- context [try_except _ (on_exception logo (Some qr_path)) ?w1] =>
          destruct (Hphotos logo (Some qr_path) w1)
            as (response & w' & Hrun & HP)
      end.
      exists response, w'. unfold try_except at 1. rewrite Hrun. auto.
    - destruct (Hphotos logo None w0) as (response & w' & Hrun & HP).
      exists response, w'. unfold try_except at 1. unfold try_except at 1.
      rewrite Hrun. auto. }
  unfold upload, upload_body.
  destruct (logo_file request) as [logo_file|] eqn:Hfile.
  - destruct (Py.truthy (filename logo_file)) eqn:Hname.
    + rewrite (Hlogo logo_file eq_refl Hname). cbn [negb].
      unfold bind at 1. unfold file_write at 1.
      match goal with
      | |- context [try_except _ (on_exception (Some logo_path) None) ?w1] =>
          destruct (Hfrom (Some logo_path) w1) as (response & w' & Hrun & HP)
      end.
      now rewrite Hrun.
    + destruct (Hfrom None w) as (response & w' & Hrun & HP). now rewrite Hrun.
  - destruct (Hfrom None w) as (response & w' & Hrun & HP). now rewrite Hrun.
Qed.

(** X10. The file types [upload] rejects.  A logo whose name
    [allowed_file] does not accept is answered with the error 400 at
    once, with nothing written, whatever the photos.  When some photo has
    a name but [allowed_file] accepts the name of none, the answer is the
    error 400 for the photos, also with a logo and a QR code that are
    fine. *)
Theorem upload_rejects_wrong_types (request : UploadRequest) (w : World) :
  (forall f, logo_file request = Some f -> Py.truthy (filename f) = true ->
     allowed_file (filename f) = false ->
     upload request w
     = (Error "Invalid logo file type. Allowed types: png, jpg, jpeg, gif" 400,
        w))
  /\ ((forall f, logo_file request = Some f -> Py.truthy (filename f) = true ->
                 allowed_file (filename f) = true) ->
      (Py.truthy (Py.strip (form_qr_url request)) = true ->
       exists qr data,
         make_qr (clean_qr_url (Py.strip (form_qr_url request))) = Some qr
         /\ image_save PNG qr = Some data) ->
      (exists photo, photo ∈ photos request
                     /\ Py.truthy (filename photo) = true) ->
      (forall photo, photo ∈ photos request ->
                     allowed_file (filename photo) = false) ->
      fst (upload request w)
      = Error "No valid photos uploaded. Supported formats: png, jpg, jpeg, gif"
              400).
Proof.
  split.
  - intros f Hfile Hname Hbad. unfold upload, upload_body.
    now rewrite Hfile, Hname, Hbad.
  - intros Hlogo Hqr (photo & Hin & Hname) Hbad.
    apply (upload_answer request w
             (fun response =>
                response
                = Error "No valid photos uploaded. Supported formats: png, jpg, jpeg, gif"
                        400) Hlogo Hqr).
    intros logo qr_code w0. unfold upload_photos.
    assert (existsb (fun f => Py.truthy (filename f)) (photos request) = true)
      as ->.
    { apply existsb_exists. exists photo. split; [|exact Hname].
      now apply list_elem_of_In. }
    cbn [negb].
    assert (List.filter (fun photo => Py.truthy (filename photo)
                                      && allowed_file (filename photo))
                        (photos request) = []) as ->.
    { clear Hin. induction (photos request) as [|p ps IH]; [reflexivity|].
      cbn [List.filter]. rewrite (Hbad p) by (now left).
      rewrite andb_false_r. apply IH. intros q Hq. apply Hbad. now right. }
    unfold bind. rewrite cleanup_run. unfold ret. eauto.
Qed.

(** X11. A QR code that cannot be made.  When the request has a QR link
    and making or saving the QR code raises, a request with a logo is
    answered with the error 400 for the QR code after the temporary file
    of the logo is removed again; a request without a logo fails in the
    handler of that error, which asks whether the path [None] exists, and
    is answered with the error 500, nothing written.  No photo is looked
    at in either case. *)
Theorem qr_failure_answers (request : UploadRequest) (w : World) :
  let qr_url := Py.strip (form_qr_url request) in
  Py.truthy qr_url = true ->
  make_qr (clean_qr_url qr_url) ≫= image_save PNG = None ->
  (forall f, logo_file request = Some f -> Py.truthy (filename f) = true ->
     allowed_file (filename f) = true ->
     exists e,
       upload request w
       = (Error ("Error generating QR code: " +:+ e) 400,
          mkWorld (heap w)
                  (delete logo_path (<[logo_path := stream f]> (files w)))
                  (trace w ++ [EvFileWrite logo_path (stream f);
                               EvFileRemove logo_path])))
  /\ ((forall f, logo_file request = Some f ->
                 Py.truthy (filename f) = false) ->
      exists message,
        fst (upload request w) = Error message 500
        /\ files (snd (upload request w)) = files w
        /\ trace (snd (upload request w)) = trace w).
Proof.
  intros qr_url Hurl Hfail.
  assert (forall logo w0,
             exists e,
               upload_from_qr request logo w0
               = match logo with
                 | Some p =>
                     (Ok (Error ("Error generating QR code: " +:+ e) 400),
                      mkWorld (heap w0) (without (files w0) logo)
                              (trace w0 ++ removal (files w0) logo))
                 | None => (Raise "stat: path should be string, bytes, os.PathLike or integer, not NoneType", w0)
                 end) as Hmade.
  { intros logo w0. unfold upload_from_qr. fold qr_url. rewrite Hurl.
    assert (forall e : string,
               (match logo with
                | Some p => remove_if_exists (Some p)
                | None => raise "stat: path should be string, bytes, os.PathLike or integer, not NoneType"
                end ;;
                ret (inl (B := string)
                         (Error (A := string)
                                ("Error generating QR code: " +:+ e) 400))) w0
               = match logo with
                 | Some p =>
                     (Ok (inl (Error ("Error generating QR code: " +:+ e) 400)),
                      mkWorld (heap w0) (without (files w0) logo)
                              (trace w0 ++ removal (files w0) logo))
                 | None => (Raise "stat: path should be string, bytes, os.PathLike or integer, not NoneType", w0)
                 end) as Hhandler.
    { intros e. destruct logo as [p|]; [|reflexivity].
      unfold bind at 1. now rewrite remove_if_exists_run. }
    unfold bind at 1. unfold try_except at 1. unfold bind at 1.
    unfold expect at 1.
    destruct (make_qr (clean_qr_url qr_url)) as [qr|];
      cbn [mbind option_bind] in Hfail.
    - cbn [ret]. unfold bind at 1. unfold expect at 1. rewrite Hfail.
      cbn [raise]. exists "cannot write image".
      change (_ <- path_exists ?p ;; _) with (remove_if_exists (Some p)).
      rewrite Hhandler. now destruct logo.
    - cbn [raise]. exists "cannot make QR code".
      change (_ <- path_exists ?p ;; _) with (remove_if_exists (Some p)).
      rewrite Hhandler. now destruct logo. }
  split.
  - intros f Hfile Hname Hallowed. unfold upload, upload_body.
    rewrite Hfile, Hname, Hallowed. cbn [negb].
    unfold bind at 1. unfold file_write at 1.
    unfold try_except at 1.
    match goal with
    | |- context [upload_from_qr request (Some logo_path) ?w1] =>
        destruct (Hmade (Some logo_path) w1) as [e He]
    end.
    rewrite He. cbn [without removal files heap trace].
    rewrite lookup_insert_eq. rewrite <- app_assoc. cbn [app].
    exists e. reflexivity.
  - intros Hnone. unfold upload, upload_body.
    assert (match try_except (upload_from_qr request None)
                             (on_exception None None) w with
            | (Ok response, w') => (response, w')
            | (Raise e, w') => (Error "Internal Server Error" 500, w')
            end
            = (Error ("An error occurred during processing: "
                      +:+ "stat: path should be string, bytes, os.PathLike or integer, not NoneType") 500,
               mkWorld (heap w) (files w) (trace w ++ [] ++ []))) as Hrun.
    { unfold try_except at 1. destruct (Hmade None w) as [e He]. rewrite He.
      unfold on_exception, bind. rewrite cleanup_run. reflexivity. }
    destruct (logo_file request) as [f|].
    + rewrite (Hnone f eq_refl), Hrun. eexists. cbn [fst snd files trace].
      rewrite !app_nil_r. repeat split.
    + rewrite Hrun. eexists. cbn [fst snd files trace].
      rewrite !app_nil_r. repeat split.
Qed.

Lemma bind_ext {A B} (m : M A) (k k' : A -> M B) (w : World) :
  (forall a w', k a w' = k' a w') -> bind m k w = bind m k' w.
Proof.
  intros Hk. unfold bind. destruct (m w) as [[a|e] w']; [apply Hk|reflexivity].
Qed.

Lemma upload_photos_names (request : UploadRequest) (names : list string)
    (logo qr_code : option string) (pn pc : string) (w : World) :
  let valid_photos :=
    List.filter (fun photo => Py.truthy (filename photo)
                              && allowed_file (filename photo))
                (photos request) in
  length names <> length valid_photos ->
  form_file_names request = names ->
  upload_photos request logo qr_code pn pc w
  = upload_photos {| logo_file := logo_file request;
                     photos := photos request;
                     form_qr_url := form_qr_url request;
                     form_practice_name := form_practice_name request;
                     form_plus_code := form_plus_code request;
                     form_file_names := [] |} logo qr_code pn pc w.
Proof.
  intros valid_photos Hlen Hnames. unfold upload_photos.
  cbn [photos form_file_names]. fold valid_photos. rewrite Hnames.
  destruct (negb (existsb _ (photos request))); [reflexivity|].
  destruct valid_photos as [|photo rest] eqn:Hvalid; [reflexivity|].
  destruct names as [|n ns]; [reflexivity|].
  destruct (Nat.eqb_spec (length (n :: ns)) (length (photo :: rest)));
    [contradiction | reflexivity].
Qed.

(** X12. The names of the form are used only when there is exactly one
    for each valid photo.  With any other number of names, more or fewer,
    [upload] does what it does for the same request without names: every
    output is named after its photo. *)
Theorem mismatched_names_ignored (request : UploadRequest) (w : World) :
  let valid_photos :=
    List.filter (fun photo => Py.truthy (filename photo)
                              && allowed_file (filename photo))
                (photos request) in
  length (form_file_names request) <> length valid_photos ->
  upload request w
  = upload {| logo_file := logo_file request;
              photos := photos request;
              form_qr_url := form_qr_url request;
              form_practice_name := form_practice_name request;
              form_plus_code := form_plus_code request;
              form_file_names := [] |} w.
Proof.
  intros valid_photos Hlen.
  set (request' := {| logo_file := logo_file request;
                      photos := photos request;
                      form_qr_url := form_qr_url request;
                      form_practice_name := form_practice_name request;
                      form_plus_code := form_plus_code request;
                      form_file_names := [] |}).
  assert (forall logo qr_code pn pc w0,
             try_except (upload_photos request logo qr_code pn pc)
                        (on_exception logo qr_code) w0
             = try_except (upload_photos request' logo qr_code pn pc)
                          (on_exception logo qr_code) w0) as Hphotos.
  { intros logo qr_code pn pc w0. unfold try_except.
    now rewrite (upload_photos_names request (form_file_names request)
                   logo qr_code pn pc w0 Hlen eq_refl). }
  assert (forall logo w0,
             upload_from_qr request logo w0 = upload_from_qr request' logo w0)
    as Hfrom.
  { intros logo w0. unfold upload_from_qr.
    cbn [request' form_qr_url form_practice_name form_plus_code].
    destruct (Py.truthy (Py.strip (form_qr_url request))); [|apply Hphotos].
    apply bind_ext. intros [response|path] w1; [reflexivity | apply Hphotos]. }
  unfold upload, upload_body. cbn [request' logo_file].
  destruct (logo_file request) as [f|].
  - destruct (Py.truthy (filename f)).
    + destruct (negb (allowed_file (filename f))); [reflexivity|].
      erewrite bind_ext; [reflexivity|].
      intros u w1. unfold try_except. now rewrite Hfrom.
    + unfold try_except. now rewrite Hfrom.
  - unfold try_except. now rewrite Hfrom.
Qed.

End UploadChecks.

Section UploadChecksWitness.

Lemma qr_failure_answers_witness :
  let request :=
    {| logo_file := Some {| filename := "logo.png"; stream := "logo-800x200" |};
       photos := [ {| filename := "a.jpg"; stream := "photo-1000x800" |} ];
       form_qr_url := "https://example.com"; form_practice_name := "";
       form_plus_code := ""; form_file_names := [] |} in
  exists e,
    @upload Unconfigured.collaborators request Demo.empty_world
    = (Error ("Error generating QR code: " +:+ e) 400,
       mkWorld [] (delete "uploads/temp_logo.png"
                     (<["uploads/temp_logo.png" := "logo-800x200"]> ∅))
               [EvFileWrite "uploads/temp_logo.png" "logo-800x200";
                EvFileRemove "uploads/temp_logo.png"]).
Proof.
  intros request.
  exact (proj1 (@qr_failure_answers Unconfigured.collaborators request
                  Demo.empty_world eq_refl eq_refl)
               {| filename := "logo.png"; stream := "logo-800x200" |}
               eq_refl eq_refl eq_refl).
Defined.

#[local] Existing Instance Demo.collaborators.

Lemma upload_rejects_wrong_types_witness :
  let request :=
    {| logo_file := Some {| filename := "logo.txt"; stream := "logo-800x200" |};
       photos := [ {| filename := "a.jpg"; stream := "photo-1000x800" |} ];
       form_qr_url := ""; form_practice_name := ""; form_plus_code := "";
       form_file_names := [] |} in
  upload request Demo.empty_world
  = (Error "Invalid logo file type. Allowed types: png, jpg, jpeg, gif" 400,
     Demo.empty_world).
Proof.
  intros request.
  exact (proj1 (upload_rejects_wrong_types request Demo.empty_world)
               {| filename := "logo.txt"; stream := "logo-800x200" |}
               eq_refl eq_refl eq_refl).
Defined.

Lemma mismatched_names_ignored_witness :
  let photo := {| filename := "a.jpg"; stream := "photo-1000x800" |} in
  upload {| logo_file := None; photos := [photo]; form_qr_url := "";
            form_practice_name := ""; form_plus_code := "";
            form_file_names := ["x"; "y"] |} Demo.empty_world
  = upload {| logo_file := None; photos := [photo]; form_qr_url := "";
              form_practice_name := ""; form_plus_code := "";
              form_file_names := [] |} Demo.empty_world.
Proof.
  intros photo.
  exact (mismatched_names_ignored
           {| logo_file := None; photos := [photo]; form_qr_url := "";
              form_practice_name := ""; form_plus_code := "";
              form_file_names := ["x"; "y"] |} Demo.empty_world
           ltac:(vm_compute; discriminate)).
Defined.

End UploadChecksWitness.

(* ===================================================================== *)
(** * The first free name *)
(* ===================================================================== *)

Section FirstFreeName.
Context `{Collaborators}.

Lemma unique_output_name_scan (base ext : string) (fuel : nat) :
  forall (counter : nat) (name : string) (seen : gset string) (w : World),
    seen ⊆ dom (files w) ->
    os_path_join PROCESSED_FOLDER name ∉ seen ->
    (forall k, (counter <= k)%nat ->
               (os_path_join PROCESSED_FOLDER (suffixed base ext k) ∉ seen)
               /\ suffixed base ext k <> name) ->
    (size (dom (files w)) <= fuel + size seen)%nat ->
    exists output_name,
      unique_output_name fuel base ext counter name w = (Ok output_name, w)
      /\ files w !! os_path_join PROCESSED_FOLDER output_name = None
      /\ ((files w !! os_path_join PROCESSED_FOLDER name = None
           /\ output_name = name)
          \/ (is_Some (files w !! os_path_join PROCESSED_FOLDER name)
              /\ exists k,
                   (counter <= k)%nat /\ output_name = suffixed base ext k
                   /\ forall j, (counter <= j < k)%nat ->
                        is_Some (files w !! os_path_join PROCESSED_FOLDER
                                                (suffixed base ext j)))).
Proof.
  induction fuel as [|fuel IH]; intros counter name seen w Hsub Hname Hnext Hsize.
  - cbn [unique_output_name]. unfold bind, path_exists.
    destruct (files w !! os_path_join PROCESSED_FOLDER name) as [c|] eqn:Hlook.
    + exfalso.
      assert (os_path_join PROCESSED_FOLDER name ∈ dom (files w)) as Hin
        by (apply elem_of_dom; eauto).
      assert (size ({[os_path_join PROCESSED_FOLDER name]} ∪ seen)
              <= size (dom (files w)))%nat as Hle
        by (apply subseteq_size; set_solver).
      rewrite size_union, size_singleton in Hle by set_solver. lia.
    + rewrite bool_decide_eq_false_2 by (intros [? ?]; discriminate).
      exists name. destruct w as [h f t]. cbn [files] in *.
      split; [reflexivity|]. split; [exact Hlook|]. left. now split.
  - cbn [unique_output_name]. unfold bind, path_exists.
    destruct (files w !! os_path_join PROCESSED_FOLDER name) as [c|] eqn:Hlook.
    + rewrite bool_decide_eq_true_2 by eauto.
      assert (os_path_join PROCESSED_FOLDER name ∈ dom (files w)) as Hin
        by (apply elem_of_dom; eauto).
      destruct (IH (S counter) (suffixed base ext counter)
                  ({[os_path_join PROCESSED_FOLDER name]} ∪ seen) w)
        as (out & Hrun & Hfree & Hout).
      * set_solver.
      * destruct (Hnext counter ltac:(lia)) as [Hns Hne].
        unfold os_path_join in *. intros Hin'.
        apply elem_of_union in Hin' as [Hin'|Hin']; [|contradiction].
        apply elem_of_singleton in Hin'. apply String.app_inj in Hin'.
        contradiction.
      * intros k Hk. destruct (Hnext k ltac:(lia)) as [Hns Hne]. split.
        -- unfold os_path_join in *. intros Hin'.
           apply elem_of_union in Hin' as [Hin'|Hin']; [|contradiction].
           apply elem_of_singleton in Hin'. apply String.app_inj in Hin'.
           contradiction.
        -- intros Heq. apply suffixed_inj in Heq. lia.
      * rewrite size_union, size_singleton by set_solver. lia.
      * exists out. split; [exact Hrun|]. split; [exact Hfree|].
        right. split; [eauto|].
        destruct Hout as [[Hnone ->] | [Htaken (k & Hk & -> & Hbelow)]].
        -- exists counter. split; [lia|]. split; [reflexivity|].
           intros j Hj. lia.
        -- exists k. split; [lia|]. split; [reflexivity|].
           intros j Hj. destruct (decide (j = counter)) as [->|Hne].
           ++ exact Htaken.
           ++ apply Hbelow. lia.
    + rewrite bool_decide_eq_false_2 by (intros [? ?]; discriminate).
      exists name. destruct w as [h f t]. cbn [files] in *.
      split; [reflexivity|]. split; [exact Hlook|]. left. now split.
Qed.

(** X13. The name the [while os.path.exists(output_path)] loop of
    [upload] settles on.  The loop ends, within as many rounds as there
    are files, without changing the world.  The name is the plain name
    [base_name + ext] when no file of the processed folder has it;
    otherwise it is [base_name_k + ext] for the least [k >= 1] whose name
    is free, every smaller counter being taken.  In both cases no file of
    the processed folder has the name. *)
Theorem unique_output_name_first_free (base_name original_ext : string)
    (w : World) :
  let taken name :=
    is_Some (files w !! os_path_join PROCESSED_FOLDER name) in
  exists output_name,
    unique_output_name (size (files w)) base_name original_ext 1
                       (base_name +:+ original_ext) w
    = (Ok output_name, w)
    /\ ~ taken output_name
    /\ ((~ taken (base_name +:+ original_ext)
         /\ output_name = base_name +:+ original_ext)
        \/ (taken (base_name +:+ original_ext)
            /\ exists k,
                 (1 <= k)%nat
                 /\ output_name = suffixed base_name original_ext k
                 /\ forall j, (1 <= j < k)%nat ->
                              taken (suffixed base_name original_ext j))).
Proof.
  intros taken.
  destruct (unique_output_name_scan base_name original_ext (size (files w)) 1
              (base_name +:+ original_ext) ∅ w)
    as (output_name & Hrun & Hfree & Hleast).
  - set_solver.
  - set_solver.
  - intros k _. split; [set_solver | apply suffixed_not_plain].
  - rewrite size_dom, size_empty. lia.
  - exists output_name. split; [exact Hrun|]. unfold taken. split.
    + rewrite Hfree. intros [? ?]. discriminate.
    + destruct Hleast as [[Hnone ->] | Htaken]; [left | right; exact Htaken].
      split; [|reflexivity]. rewrite Hnone. intros [? ?]. discriminate.
Qed.

(** One round of the loop of [upload] on a photo. *)
Lemma upload_round (logo qr_code : option string) (pn pc : string)
    (names : list string) (i : nat) (photo : FileStorage)
    (processed_files output_filenames : list string) (w : World) :
  upload_loop logo qr_code pn pc names i [photo]
              processed_files output_filenames w
  = match upload_photo logo qr_code pn pc names i photo w with
    | (Ok (output_path, output_name, file_path), w1) =>
        (Ok (processed_files ++ [output_path],
             output_filenames ++ [output_name]),
         snd (try_except (os_remove file_path) (fun _ => ret tt) w1))
    | (Raise e, w1) => (Ok (processed_files, output_filenames), w1)
    end.
Proof.
  cbn [upload_loop]. unfold bind at 1. unfold try_except at 1.
  unfold bind at 1.
  destruct (upload_photo logo qr_code pn pc names i photo w)
    as [[[[output_path output_name] file_path]|e] w1]; [|reflexivity].
  cbn [ret]. unfold bind at 1. unfold try_except.
  destruct (os_remove file_path w1) as [[[]|e] w2]; reflexivity.
Qed.

(** X14. What a round of the loop of [upload] leaves in the upload
    folder.  The photo is first saved there under its cleaned name.  When
    the round produces an output, the copy is removed again.  When the
    photo or its caption cannot be rendered, or its output cannot be
    encoded, the round adds no name and the copy stays in the upload
    folder with the content of the photo: the [except] of the photo does
    not remove it. *)
Theorem upload_round_copy (logo qr_code : option string) (pn pc : string)
    (names : list string) (i : nat) (photo : FileStorage)
    (processed_files output_filenames : list string) (w : World) :
  let r := upload_loop logo qr_code pn pc names i [photo]
                       processed_files output_filenames w in
  let copy := upload_path photo in
  let saved := <[copy := stream photo]> (files w) in
  (exists output_path output_name,
      fst r = Ok (processed_files ++ [output_path],
                  output_filenames ++ [output_name])
      /\ output_path = os_path_join PROCESSED_FOLDER output_name
      /\ is_Some (files (snd r) !! output_path)
      /\ files (snd r) !! copy = None)
  \/ (fst r = Ok (processed_files, output_filenames)
      /\ files (snd r) = saved
      /\ files (snd r) !! copy = Some (stream photo)
      /\ (folder_canvas saved logo qr_code pn pc photo = None
          \/ exists canvas output_name,
               folder_canvas saved logo qr_code pn pc photo = Some canvas
               /\ image_save (output_format output_name)
                             (encoded_raster (output_format output_name)
                                             canvas) = None)).
Proof.
  intros r copy saved. unfold r. rewrite upload_round.
  destruct (upload_photo logo qr_code pn pc names i photo w)
    as [[[[output_path output_name] file_path]|e] w1] eqn:Hrun.
  - left. apply upload_photo_returns in Hrun as (-> & -> & Hcopy & Hout).
    exists (os_path_join PROCESSED_FOLDER output_name), output_name.
    cbn [fst snd]. split; [reflexivity|]. split; [reflexivity|].
    unfold try_except, os_remove. fold copy in Hcopy. fold copy.
    rewrite Hcopy. cbn [snd files]. split.
    + rewrite lookup_delete_ne; [exact Hout|].
      unfold copy, upload_path. apply folders_disjoint.
    + apply lookup_delete_eq.
  - right. cbn [fst snd]. split; [reflexivity|].
    destruct (upload_photo_spec logo qr_code pn pc names i photo w)
      as (extra & res & w2 & Hspec & _ & Hcases).
    rewrite Hrun in Hspec. injection Hspec as <- <-. cbv zeta in Hcases.
    fold copy in Hcases. fold saved in Hcases.
    assert (saved !! copy = Some (stream photo)) as Hcopy
      by apply lookup_insert_eq.
    destruct (folder_canvas saved logo qr_code pn pc photo) as [canvas|].
    + destruct Hcases as (name & _ & _ & Hsave).
      destruct (image_save _ _) as [content|] eqn:Hcontent;
        [now destruct Hsave as (Hres & _)|].
      destruct Hsave as (_ & Hfiles & _). rewrite Hfiles.
      split; [reflexivity|]. split; [exact Hcopy|].
      right. now exists canvas, name.
    + destruct Hcases as (_ & Hfiles & _). rewrite Hfiles.
      split; [reflexivity|]. split; [exact Hcopy|]. now left.
Qed.

End FirstFreeName.

(* ===================================================================== *)
(** * Where the overlays lie *)
(* ===================================================================== *)


Section Placement.
Context `{Collaborators}.



End Placement.

Section PlacementWitness.
#[local] Existing Instance Demo.collaborators.


End PlacementWitness.

(* ===================================================================== *)
(** * The blend of an overlay *)
(* ===================================================================== *)

(** [DIV255] is the division by 255 rounded to the nearest integer, on
    the sums a blend of two channels can give. *)
Lemma DIV255_nearest (t : Z) :
  0 <= t <= 255 * 255 -> -127 <= 255 * PIL.DIV255 t - t <= 127.
Proof.
  intros Ht.
  pose proof (all_below_correct 16 0
                (fun t => (t >? 255 * 255)
                          || ((-127 <=? 255 * PIL.DIV255 t - t)
                              && (255 * PIL.DIV255 t - t <=? 127)))
                ltac:(vm_compute; reflexivity) t ltac:(simpl; lia)) as Hc.
  cbv beta in Hc. apply orb_prop in Hc as [Hc|Hc]; [lia|].
  apply andb_prop in Hc as [H1 H2]. lia.
Qed.

(** The blend of a channel moves it at most half of the way to the
    channel of the overlay when the mask is at most 127. *)
Lemma BLEND8_half (mask out inp : Z) :
  0 <= mask <= 127 -> 0 <= out <= 255 -> 0 <= inp <= 255 ->
  2 * Z.abs (PIL.BLEND8 mask out inp - out) <= Z.abs (inp - out).
Proof.
  intros Hm Ho Hi. unfold PIL.BLEND8.
  assert (0 <= out * (255 - mask) + inp * mask <= 255 * 255) as Ht by nia.
  pose proof (DIV255_nearest _ Ht) as Hd.
  set (r := PIL.DIV255 (out * (255 - mask) + inp * mask)) in *. clearbody r.
  destruct (Z_le_gt_dec out inp).
  - assert (0 <= mask * (inp - out) <= 127 * (inp - out)) by nia. lia.
  - assert (0 <= mask * (out - inp) <= 127 * (out - inp)) by nia. lia.
Qed.

(** The alpha of an opaque canvas under an overlay of alpha [mask]. *)
Lemma BLEND8_alpha (mask : Z) :
  1 <= mask <= 127 -> 191 <= PIL.BLEND8 mask 255 mask <= 254.
Proof.
  intros Hm.
  pose proof (all_below_correct 7 0
                (fun m => (m <? 1)
                          || ((191 <=? PIL.BLEND8 m 255 m)
                              && (PIL.BLEND8 m 255 m <=? 254)))
                ltac:(vm_compute; reflexivity) mask ltac:(simpl; lia)) as Hc.
  cbv beta in Hc. apply orb_prop in Hc as [Hc|Hc]; [lia|].
  apply andb_prop in Hc as [H1 H2]. lia.
Qed.

(** X16. An overlay never hides the photo.  Where the scaled overlay,
    with its alpha halved, is pasted on the canvas through its own alpha,
    each colour channel of the canvas moves at most half of the way to
    the channel of the overlay; everywhere else the canvas stays as it
    is. *)
Theorem overlay_shows_photo (canvas scaled : PIL.Image) (box : Z * Z)
    (x y : Z) :
  let faded := fade scaled in
  let before := PIL.getpixel canvas x y in
  let after := PIL.getpixel (PIL.paste canvas faded box faded) x y in
  let over := PIL.getpixel scaled (x - fst box) (y - snd box) in
  0 <= PIL.red before <= 255 -> 0 <= PIL.green before <= 255 ->
  0 <= PIL.blue before <= 255 ->
  0 <= PIL.red over <= 255 -> 0 <= PIL.green over <= 255 ->
  0 <= PIL.blue over <= 255 -> 0 <= PIL.alpha over <= 255 ->
  2 * Z.abs (PIL.red after - PIL.red before)
  <= Z.abs (PIL.red over - PIL.red before)
  /\ 2 * Z.abs (PIL.green after - PIL.green before)
     <= Z.abs (PIL.green over - PIL.green before)
  /\ 2 * Z.abs (PIL.blue after - PIL.blue before)
     <= Z.abs (PIL.blue over - PIL.blue before)
  /\ (PIL.in_rect (fst box) (snd box) (PIL.width scaled) (PIL.height scaled)
                  x y = false -> after = before).
Proof.
  intros faded before after over Hr Hg Hb Hor Hog Hob Hoa.
  unfold after, PIL.paste. destruct box as [x0 y0]. cbn [fst snd] in *.
  cbn [PIL.getpixel PIL.width PIL.height faded fade PIL.putalpha].
  fold before.
  destruct (PIL.in_rect x0 y0 (PIL.width scaled) (PIL.height scaled) x y);
    cbn [andb].
  2:{ rewrite !Z.sub_diag. cbn. repeat split; lia. }
  destruct (PIL.in_rect 0 0 (PIL.width canvas) (PIL.height canvas) x y).
  2:{ rewrite !Z.sub_diag. cbn. repeat split; try lia; try discriminate. }
  unfold PIL.blend_pixel, PIL.point, PIL.getalpha.
  cbn [PIL.red PIL.green PIL.blue PIL.alpha]. fold over.
  assert (0 <= half_alpha (PIL.alpha over) <= 127) as Hm.
  { rewrite half_alpha_div2 by lia.
    pose proof (Z.div_pos (PIL.alpha over) 2 ltac:(lia) ltac:(lia)).
    pose proof (Z.div_lt_upper_bound (PIL.alpha over) 2 128 ltac:(lia)
                  ltac:(lia)). lia. }
  split; [now apply BLEND8_half|]. split; [now apply BLEND8_half|].
  split; [now apply BLEND8_half | discriminate].
Qed.

(** X17. A PNG output is not opaque under its overlays.  The paste of an
    overlay blends the alpha channel of the canvas like its colours:
    where a pixel of the overlay with an alpha of 2 or more lies on an
    opaque pixel of the canvas, the alpha of the canvas drops to a value
    from 191 to 254.  The raster [upload] hands to the PNG encoder is the
    canvas with that alpha; the raster handed to the JPEG encoder has
    none. *)
Theorem png_translucent_under_overlay (canvas scaled : PIL.Image)
    (box : Z * Z) (x y : Z) :
  let faded := fade scaled in
  let pasted := PIL.paste canvas faded box faded in
  let over := PIL.getpixel scaled (x - fst box) (y - snd box) in
  PIL.in_rect (fst box) (snd box) (PIL.width scaled) (PIL.height scaled) x y
  = true ->
  PIL.in_rect 0 0 (PIL.width canvas) (PIL.height canvas) x y = true ->
  PIL.alpha (PIL.getpixel canvas x y) = 255 ->
  2 <= PIL.alpha over <= 255 ->
  191 <= PIL.alpha (PIL.getpixel (encoded_raster PNG pasted) x y) <= 254
  /\ PIL.alpha (PIL.getpixel (encoded_raster (JPEG 95) pasted) x y) = 255.
Proof.
  intros faded pasted over Hin Hcanvas Hopaque Hover.
  split; [|reflexivity].
  unfold pasted, PIL.paste. destruct box as [x0 y0]. cbn [fst snd] in *.
  cbn [encoded_raster PIL.getpixel PIL.width PIL.height faded fade PIL.putalpha].
  rewrite Hin, Hcanvas. cbn [andb].
  unfold PIL.blend_pixel, PIL.point, PIL.getalpha.
  cbn [PIL.alpha]. fold over. rewrite Hopaque.
  apply BLEND8_alpha. rewrite half_alpha_div2 by lia.
  pose proof (Z.div_le_lower_bound (PIL.alpha over) 2 1 ltac:(lia) ltac:(lia)).
  pose proof (Z.div_lt_upper_bound (PIL.alpha over) 2 128 ltac:(lia)
                ltac:(lia)). lia.
Qed.

Lemma overlay_shows_photo_witness :
  let canvas := Demo.plain 10 10 (PIL.RGBA 10 20 30 255) in
  let scaled := Demo.plain 4 4 (PIL.RGBA 200 0 0 255) in
  let after := PIL.getpixel (PIL.paste canvas (fade scaled) (2, 2)
                                       (fade scaled)) 3 3 in
  2 * Z.abs (PIL.red after - 10) <= Z.abs (200 - 10).
Proof.
  intros canvas scaled after.
  refine (proj1 (overlay_shows_photo canvas scaled (2, 2) 3 3 _ _ _ _ _ _ _));
    simpl; lia.
Defined.

Lemma png_translucent_under_overlay_witness :
  let canvas := Demo.plain 10 10 (PIL.RGBA 10 20 30 255) in
  let scaled := Demo.plain 4 4 (PIL.RGBA 200 0 0 255) in
  let pasted := PIL.paste canvas (fade scaled) (2, 2) (fade scaled) in
  191 <= PIL.alpha (PIL.getpixel (encoded_raster PNG pasted) 3 3) <= 254.
Proof.
  intros canvas scaled pasted.
  refine (proj1 (png_translucent_under_overlay canvas scaled (2, 2) 3 3
                   _ _ _ _)); try reflexivity.
  simpl. lia.
Defined.

(* ===================================================================== *)
(** * [generate_image] *)
(* ===================================================================== *)

Lemma clamp_count_range (count : option Z) : 1 <= clamp_count count <= 10.
Proof. unfold clamp_count. lia. Qed.

Lemma append_inv_length (a b c d : string) :
  String.length a = String.length b -> a +:+ c = b +:+ d -> a = b /\ c = d.
Proof.
  revert b. induction a as [|x a IH]; intros [|y b] Hlen Heq;
    try discriminate.
  - now split.
  - change (String x (a +:+ c) = String y (b +:+ d)) in Heq.
    injection Heq as -> Heq. injection Hlen as Hlen.
    destruct (IH b Hlen Heq) as [-> ->]. now split.
Qed.

Lemma pretty_digit (i : nat) :
  (i < 10)%nat -> String.length (pretty i) = 1%nat.
Proof.
  intros Hi. do 10 (destruct i as [|i]; [reflexivity|]). lia.
Qed.

Section GenerateImageProofs.
Context `{Collaborators} `{Generator}.

(** The names of two rounds differ, whatever the clock. *)
Lemma generated_name_inj (prompt : string) (ts ts' : Z) (i j : nat) :
  (i < 10)%nat -> (j < 10)%nat ->
  generated_name prompt ts i = generated_name prompt ts' j -> i = j.
Proof.
  intros Hi Hj. unfold generated_name. intros Heq.
  apply String.app_inj in Heq. apply String.app_inj in Heq.
  apply String.app_inj in Heq.
  rewrite <- !(append_assoc (pretty ts)), <- !(append_assoc (pretty ts')) in Heq.
  rewrite <- !(append_assoc (pretty ts +:+ "_")),
          <- !(append_assoc (pretty ts' +:+ "_")) in Heq.
  assert (String.length ((pretty ts +:+ "_") +:+ pretty i)
          = String.length ((pretty ts' +:+ "_") +:+ pretty j)) as Hlen.
  { apply (f_equal String.length) in Heq.
    rewrite !(length_append _ ".jpg") in Heq. lia. }
  apply append_inv_length in Heq as [Heq _]; [|exact Hlen].
  rewrite !(length_append _ (pretty _)), !pretty_digit in Hlen by assumption.
  apply append_inv_length in Heq as [_ Heq]; [|lia].
  now apply pretty_nat_inj in Heq.
Qed.

(** The loop: what it sends are uploads of type [image/jpeg], at most
    one for every round; when it returns, every upload was accepted and
    the files it adds are those of the uploads, named after their
    rounds. *)
Lemma generate_loop_spec (prompt : string) (rounds : list nat) :
  forall (generated_files : list (string * string)) (w : World),
  exists res events,
    generate_loop prompt rounds generated_files w
    = (res, mkWorld (heap w) (files w) (trace w ++ events))
    /\ (length events <= length rounds)%nat
    /\ Forall (fun ev => exists name content,
                 ev = EvBlobPut name "image/jpeg" content) events
    /\ match res with
       | Ok files' =>
           files' = generated_files ++ omap stored events
           /\ length (omap stored events) = length events
           /\ exists used,
                used `sublist_of` rounds
                /\ map snd (omap stored events)
                   = map (fun i => generated_name prompt (time_time i) i) used
       | Raise _ => True
       end.
Proof.
  induction rounds as [|i rest IH]; intros generated_files w.
  - exists (Ok generated_files), []. cbn [generate_loop]. unfold ret.
    rewrite !app_nil_r. destruct w as [h f t]. split; [reflexivity|].
    split; [reflexivity|]. split; [constructor|]. split; [reflexivity|].
    split; [reflexivity|]. exists []. split; reflexivity.
  - cbn [generate_loop length]. unfold bind at 1. unfold expect at 1.
    assert (forall acc,
               exists res events,
                 generate_loop prompt rest acc w
                 = (res, mkWorld (heap w) (files w) (trace w ++ events))
                 /\ (length events <= S (length rest))%nat
                 /\ Forall (fun ev => exists name content,
                              ev = EvBlobPut name "image/jpeg" content) events
                 /\ match res with
                    | Ok files' =>
                        files' = acc ++ omap stored events
                        /\ length (omap stored events) = length events
                        /\ exists used,
                             used `sublist_of` (i :: rest)
                             /\ map snd (omap stored events)
                                = map (fun i => generated_name prompt
                                                  (time_time i) i) used
                    | Raise _ => True
                    end) as Hskip.
    { intros acc. destruct (IH acc w) as (res & events & Hrun & Hlen & Hall & Hres).
      exists res, events. split; [exact Hrun|]. split; [lia|].
      split; [exact Hall|]. destruct res as [files'|e]; [|exact I].
      destruct Hres as (Hfiles & Hcount & used & Hsub & Hnames).
      split; [exact Hfiles|]. split; [exact Hcount|]. exists used.
      split; [now apply sublist_cons | exact Hnames]. }
    destruct (generate_content prompt i) as [[|parts candidates]|];
      cbn [ret raise].
    + apply Hskip.
    + destruct (first_inline_data parts) as [image_bytes|]; [|apply Hskip].
      cbv zeta. unfold bind at 1. rewrite upload_to_blob_run.
      destruct (Py.truthy BLOB_READ_WRITE_TOKEN).
      * set (name := generated_name prompt (time_time i) i).
        set (put := EvBlobPut name "image/jpeg" image_bytes).
        destruct (requests_put name "image/jpeg" image_bytes) as [url|] eqn:Hput.
        -- destruct (IH (generated_files ++ [(url, name)])
                       (mkWorld (heap w) (files w) (trace w ++ [put])))
             as (res & events & Hrun & Hlen & Hall & Hres).
           cbn [heap files trace] in Hrun. rewrite <- app_assoc in Hrun.
           exists res, (put :: events). split; [exact Hrun|].
           split; [cbn [length]; lia|].
           split; [constructor; [now exists name, image_bytes | exact Hall]|].
           destruct res as [files'|e]; [|exact I].
           destruct Hres as (Hfiles & Hcount & used & Hsub & Hnames).
           assert (omap stored (put :: events)
                   = (url, name) :: omap stored events) as Hstored.
           { cbn [omap list_omap stored put]. unfold put. cbn.
             now rewrite Hput. }
           rewrite Hstored. split; [now rewrite Hfiles, <- app_assoc|].
           split; [cbn [length]; now rewrite Hcount|].
           exists (i :: used). split; [now apply sublist_skip|].
           cbn [map snd]. now rewrite Hnames.
        -- exists (Raise "Failed to upload to Blob"), [put].
           split; [reflexivity|]. split; [cbn; lia|].
           split; [|exact I]. constructor; [|constructor].
           now exists name, image_bytes.
      * exists (Raise "BLOB_READ_WRITE_TOKEN not configured"), [].
        rewrite app_nil_r. destruct w as [h f t]. split; [reflexivity|].
        split; [cbn; lia|]. split; [constructor | exact I].
    + exists (Raise "generate_content failed"), []. rewrite app_nil_r.
      destruct w as [h f t]. split; [reflexivity|]. split; [cbn; lia|].
      split; [constructor | exact I].
Qed.

(** X18. What [generate_image] does.  Without a key it answers with the
    error 500 and without a prompt with the error 400, in this order, and
    does nothing.  With both, whatever the count of the request, all it
    does to the outside are uploads of type [image/jpeg], at most ten of
    them; the answer is either the list of the files, or an error 500.  A
    list of files is not empty, names every upload that was made, in
    order, with names that differ from one another even when the clock
    stands still; so a single upload that the store refuses turns the
    whole answer into an error, with the earlier uploads left in the
    store. *)
Theorem generate_image_rounds (data : option GenerateRequest) (w : World) :
  let r := generate_image data w in
  (Py.truthy GOOGLE_API_KEY = false ->
   r = (Error "GOOGLE_API_KEY not configured" 500, w))
  /\ (Py.truthy GOOGLE_API_KEY = true ->
      data ≫= (fun d => given (prompt d)) = None ->
      r = (Error "No prompt provided" 400, w))
  /\ (Py.truthy GOOGLE_API_KEY = true ->
      is_Some (data ≫= (fun d => given (prompt d))) ->
      exists events,
        snd r = mkWorld (heap w) (files w) (trace w ++ events)
        /\ (length events <= 10)%nat
        /\ Forall (fun ev => exists name content,
                     ev = EvBlobPut name "image/jpeg" content) events
        /\ ((exists message, fst r = Error message 500)
            \/ exists generated_files,
                 fst r = Success generated_files
                 /\ generated_files <> []
                 /\ generated_files = omap stored events
                 /\ length generated_files = length events
                 /\ NoDup (map snd generated_files))).
Proof.
  intros r. unfold r, generate_image, generate_image_body.
  split; [intros ->; reflexivity|].
  split; [intros -> ->; reflexivity|].
  intros -> [prompt ->]. cbn [negb].
  pose proof (clamp_count_range (data ≫= count)) as Hrange.
  set (n := Z.to_nat (clamp_count (data ≫= count))).
  assert (n <= 10)%nat as Hn by (unfold n; lia).
  destruct (generate_loop_spec prompt (seq 0 n) [] w)
    as (res & events & Hrun & Hlen & Hall & Hres).
  rewrite length_seq in Hlen.
  unfold bind. rewrite Hrun. exists events.
  destruct res as [files'|e].
  - destruct Hres as (Hfiles & Hcount & used & Hsub & Hnames).
    cbn [app] in Hfiles.
    destruct files' as [|file others] eqn:Hlist; cbn [ret fst snd].
    + split; [reflexivity|]. split; [lia|]. split; [exact Hall|].
      left. eauto.
    + split; [reflexivity|]. split; [lia|]. split; [exact Hall|].
      right. exists (file :: others). split; [reflexivity|].
      split; [discriminate|]. split; [exact Hfiles|].
      split; [now rewrite Hfiles|].
      rewrite Hfiles, Hnames.
      apply NoDup_fmap_2_strong.
      * intros i j Hi Hj. apply generated_name_inj.
        -- apply (elem_of_sublist _ _ _ Hi) in Hsub.
           apply elem_of_seq in Hsub. lia.
        -- apply (elem_of_sublist _ _ _ Hj) in Hsub.
           apply elem_of_seq in Hsub. lia.
      * eapply sublist_NoDup; [apply NoDup_seq | exact Hsub].
  - cbn [fst snd]. split; [reflexivity|]. split; [lia|].
    split; [exact Hall|]. left. eauto.
Qed.

End GenerateImageProofs.

Section GenerateImageWitness.

Lemma generate_image_rounds_witness :
  let data := Some {| prompt := Some "a red door"; count := Some 25 |} in
  exists events,
    snd (@generate_image Demo.collaborators Studio.generator data
                         Demo.empty_world)
    = mkWorld [] ∅ ([] ++ events)
    /\ (length events <= 10)%nat.
Proof.
  intros data.
  destruct (proj2 (proj2 (@generate_image_rounds Demo.collaborators
                            Studio.generator data Demo.empty_world))
              eq_refl ltac:(now eexists))
    as (events & Hworld & Hlen & _).
  exists events. split; [exact Hworld | exact Hlen].
Defined.

End GenerateImageWitness.

(* ===================================================================== *)
(** * The font of the caption *)
(* ===================================================================== *)

Section FontFallback.
Context `{Collaborators}.
Variable app_dir : string.
Variable truetype : bytes -> Z -> Fonts.opened font.
Variable load_default : font.

Lemma try_candidates_spec (size : Z) (w : World) (candidates : list string) :
  (forall candidate data msg,
      candidate ∈ candidates -> files w !! candidate = Some data ->
      truetype data size <> Fonts.OtherError msg) ->
  exists f,
    Fonts.try_candidates truetype load_default candidates size w = (Ok f, w)
    /\ ((exists before candidate after data,
            candidates = before ++ candidate :: after
            /\ Forall (Fonts.skipped truetype w size) before
            /\ files w !! candidate = Some data
            /\ truetype data size = Fonts.Opened f)
        \/ (f = load_default
            /\ Forall (Fonts.skipped truetype w size) candidates)).
Proof.
  induction candidates as [|c rest IH]; intros Hother.
  - exists load_default. split; [reflexivity|]. right. split; [reflexivity|].
    constructor.
  - assert (forall candidate data msg,
               candidate ∈ rest -> files w !! candidate = Some data ->
               truetype data size <> Fonts.OtherError msg) as Hrest
      by (intros c' d m Hin; apply Hother; now right).
    destruct (IH Hrest) as (f & Hrun & Hwhich).
    assert (Fonts.skipped truetype w size c ->
            exists f,
              Fonts.try_candidates truetype load_default rest size w = (Ok f, w)
              /\ ((exists before candidate after data,
                      c :: rest = before ++ candidate :: after
                      /\ Forall (Fonts.skipped truetype w size) before
                      /\ files w !! candidate = Some data
                      /\ truetype data size = Fonts.Opened f)
                  \/ (f = load_default
                      /\ Forall (Fonts.skipped truetype w size) (c :: rest))))
      as Hskip.
    { intros Hc. exists f. split; [exact Hrun|].
      destruct Hwhich as [(before & cand & after & data & -> & Hb & Hd & Hf)
                         | [-> Hall]].
      - left. exists (c :: before), cand, after, data.
        split; [reflexivity|]. split; [now constructor|]. now split.
      - right. split; [reflexivity | now constructor]. }
    cbn [Fonts.try_candidates]. unfold bind at 1. unfold path_exists.
    destruct (files w !! c) as [data|] eqn:Hc.
    + rewrite bool_decide_eq_true_2 by eauto.
      unfold bind, file_read. rewrite Hc.
      destruct (truetype data size) as [g| |msg] eqn:Hopen.
      * exists g. split; [reflexivity|]. left.
        exists [], c, rest, data. split; [reflexivity|].
        split; [constructor|]. now split.
      * apply Hskip. right. now exists data.
      * exfalso. apply (Hother c data msg); [now left | exact Hc | exact Hopen].
    + rewrite bool_decide_eq_false_2 by (intros [? ?]; discriminate).
      apply Hskip. now left.
Qed.

(** X19. [load_font] falls back.  As long as no candidate file makes
    [ImageFont.truetype] raise something other than an [OSError],
    [load_font] returns a font and changes nothing: the font of the first
    candidate, in the order of the list, that exists and that [truetype]
    opens, every candidate before it being missing or unreadable, or the
    default font when all four are.  A missing font is never an error. *)
Theorem load_font_falls_back (size : Z) (w : World) :
  (forall candidate data msg,
      candidate ∈ Fonts.font_candidates app_dir ->
      files w !! candidate = Some data ->
      truetype data size <> Fonts.OtherError msg) ->
  exists f,
    Fonts.load_font app_dir truetype load_default size w = (Ok f, w)
    /\ ((exists before candidate after data,
            Fonts.font_candidates app_dir = before ++ candidate :: after
            /\ Forall (Fonts.skipped truetype w size) before
            /\ files w !! candidate = Some data
            /\ truetype data size = Fonts.Opened f)
        \/ (f = load_default
            /\ Forall (Fonts.skipped truetype w size)
                      (Fonts.font_candidates app_dir))).
Proof. apply try_candidates_spec. Qed.

End FontFallback.

Lemma load_font_falls_back_witness :
  exists f,
    @Fonts.load_font Demo.collaborators "/srv/app"
      (fun data size => Fonts.Opened size) 10 24 Demo.empty_world
    = (Ok f, Demo.empty_world)
    /\ f = 10.
Proof.
  destruct (@load_font_falls_back Demo.collaborators "/srv/app"
              (fun data size => Fonts.Opened size) 10 24 Demo.empty_world)
    as (f & Hrun & Hwhich).
  - intros candidate data msg _ _. discriminate.
  - exists f. split; [exact Hrun|].
    destruct Hwhich as [(before & c & after & data & _ & _ & Hfile & _)
                       | [-> _]]; [|reflexivity].
    discriminate.
Defined.

(* ===================================================================== *)
(** * A caption of white space *)
(* ===================================================================== *)




Section BlankCaptionWitness.
#[local] Existing Instance Demo.collaborators.


End BlankCaptionWitness.

(* ===================================================================== *)
(** * The outputs [upload] reports *)
(* ===================================================================== *)

Section ReportedOutputs.
Context `{Collaborators}.

Lemma without_processed (fs : gmap string bytes) (path : option string)
    (p : string) :
  temporary path -> in_processed p -> without fs path !! p = fs !! p.
Proof.
  intros Htemp Hp. destruct path as [q|]; [|reflexivity]. cbn [without].
  apply lookup_delete_ne. intros ->.
  exact (processed_not_uploads _ Hp (Htemp _ eq_refl)).
Qed.

(** The names [upload_photos] answers with are new files of the
    processed folder. *)
Lemma upload_photos_outputs (request : UploadRequest)
    (logo qr_code : option string) (pn pc : string) (w0 w' : World)
    (names : list string) :
  temporary logo -> temporary qr_code ->
  upload_photos request logo qr_code pn pc w0 = (Ok (Success names), w') ->
  names <> [] /\ NoDup names
  /\ forall n, n ∈ names ->
       files w0 !! os_path_join PROCESSED_FOLDER n = None
       /\ is_Some (files w' !! os_path_join PROCESSED_FOLDER n).
Proof.
  intros Hl Hq. unfold upload_photos.
  destruct (negb (existsb _ (photos request))).
  { unfold bind. rewrite cleanup_run. discriminate. }
  destruct (List.filter _ (photos request)) as [|photo rest] eqn:Hvalid.
  { unfold bind. rewrite cleanup_run. discriminate. }
  rewrite <- Hvalid.
  match goal with
  | |- context [upload_loop logo qr_code pn pc ?file_names 0 ?valid [] []] =>
      destruct (upload_loop_spec logo qr_code pn pc file_names valid
                  0%nat [] [] w0)
        as (new_names & w1 & Hloop & Hnodup & Hnew & _)
  end.
  rewrite (bind_ok _ _ _ _ _ Hloop). unfold bind. rewrite cleanup_run.
  cbn [app]. destruct new_names as [|n0 ns]; cbn [map ret]; [discriminate|].
  intros [= <- <-]. split; [discriminate|]. split; [exact Hnodup|].
  intros n Hn. destruct (Hnew n Hn) as [Hfree Hthere].
  split; [exact Hfree|]. cbn [files].
  rewrite !without_processed by (assumption || now exists n). exact Hthere.
Qed.

(** The handler of a QR code that cannot be made answers with an
    error. *)
Ltac qr_handler logo :=
  destruct logo as [?p|];
  [ unfold bind at 1; rewrite remove_if_exists_run; cbn [ret];
    eexists _, _; split; [reflexivity | left; eauto]
  | unfold bind at 1; unfold raise at 1;
    unfold on_exception, bind; rewrite cleanup_run; cbn [ret];
    eexists _, _; split; [reflexivity | left; eauto] ].

(** Every answer of [upload] is an error, or the answer of
    [upload_photos] in a world that differs from the first in the upload
    folder only. *)
Lemma upload_cases (request : UploadRequest) (w : World) :
  (exists message status, fst (upload request w) = Error message status)
  \/ exists logo qr_code w0 response,
       temporary logo /\ temporary qr_code
       /\ (forall p, in_processed p -> files w0 !! p = files w !! p)
       /\ upload_photos request logo qr_code
                        (Py.strip (form_practice_name request))
                        (Py.strip (form_plus_code request)) w0
          = (Ok response, snd (upload request w))
       /\ fst (upload request w) = response.
Proof.
  assert (forall logo qr_code w0,
             temporary logo -> temporary qr_code ->
             (forall p, in_processed p -> files w0 !! p = files w !! p) ->
             exists response w',
               try_except (upload_photos request logo qr_code
                             (Py.strip (form_practice_name request))
                             (Py.strip (form_plus_code request)))
                          (on_exception logo qr_code) w0 = (Ok response, w')
               /\ exists logo1 qr1 w1,
                    temporary logo1 /\ temporary qr1
                    /\ (forall p, in_processed p ->
                                  files w1 !! p = files w !! p)
                    /\ upload_photos request logo1 qr1
                         (Py.strip (form_practice_name request))
                         (Py.strip (form_plus_code request)) w1
                       = (Ok response, w')) as Hphotos.
  { intros logo qr_code w0 Hl Hq Hsame.
    destruct (upload_photos_clean request logo qr_code
                (Py.strip (form_practice_name request))
                (Py.strip (form_plus_code request)) w0)
      as (response & w' & Hrun & _).
    exists response, w'. unfold try_except. rewrite Hrun.
    split; [reflexivity|]. now exists logo, qr_code, w0. }
  assert (forall logo w0,
             temporary logo ->
             (forall p, in_processed p -> files w0 !! p = files w !! p) ->
             exists response w',
               try_except (upload_from_qr request logo)
                          (on_exception logo None) w0 = (Ok response, w')
               /\ ((exists message status, response = Error message status)
                   \/ exists logo1 qr1 w1,
                        temporary logo1 /\ temporary qr1
                        /\ (forall p, in_processed p ->
                                      files w1 !! p = files w !! p)
                        /\ upload_photos request logo1 qr1
                             (Py.strip (form_practice_name request))
                             (Py.strip (form_plus_code request)) w1
                           = (Ok response, w'))) as Hfrom.
  { intros logo w0 Hl Hsame. unfold upload_from_qr.
    destruct (Py.truthy (Py.strip (form_qr_url request))).
    2:{ destruct (Hphotos logo None w0 Hl temporary_none Hsame)
          as (response & w' & Hrun & Hrest).
        exists response, w'. unfold try_except at 1. rewrite Hrun.
        split; [reflexivity | now right]. }
    unfold try_except at 1. unfold bind at 1. unfold try_except at 1.
    unfold bind at 1. unfold expect at 1.
    destruct (make_qr _) as [qr|]; cbn [ret raise].
    - unfold bind at 1. unfold expect at 1.
      destruct (image_save PNG qr) as [data|]; cbn [ret raise].
      + unfold bind at 1. unfold file_write at 1. cbn [ret].
        match goal with
        | |- context [try_except _ (on_exception logo (Some qr_path)) ?w1] =>
            destruct (Hphotos logo (Some qr_path) w1 Hl temporary_qr)
              as (response & w' & Hrun & Hrest)
        end.
        { intros p Hp. cbn [files]. rewrite lookup_insert_ne; [now apply Hsame|].
          intros <-. apply (processed_not_uploads qr_path Hp).
          now exists "generated_qr.png". }
        exists response, w'. rewrite Hrun. split; [reflexivity | now right].
      + change (_ <- path_exists ?p ;; _) with (remove_if_exists (Some p)).
        qr_handler logo.
    - change (_ <- path_exists ?p ;; _) with (remove_if_exists (Some p)).
      qr_handler logo. }
  assert (forall logo w0,
             temporary logo ->
             (forall p, in_processed p -> files w0 !! p = files w !! p) ->
             upload request w
             = match try_except (upload_from_qr request logo)
                                (on_exception logo None) w0 with
               | (Ok response, w') => (response, w')
               | (Raise e, w') => (Error "Internal Server Error" 500, w')
               end ->
             (exists message status,
                 fst (upload request w) = Error message status)
             \/ exists logo1 qr1 w1 response,
                  temporary logo1 /\ temporary qr1
                  /\ (forall p, in_processed p -> files w1 !! p = files w !! p)
                  /\ upload_photos request logo1 qr1
                       (Py.strip (form_practice_name request))
                       (Py.strip (form_plus_code request)) w1
                     = (Ok response, snd (upload request w))
                  /\ fst (upload request w) = response) as Hend.
  { intros logo w0 Hl Hsame Heq.
    destruct (Hfrom logo w0 Hl Hsame) as (response & w' & Hrun & Hwhich).
    rewrite Hrun in Heq. rewrite Heq. cbn [fst snd].
    destruct Hwhich as [Herr | (logo1 & qr1 & w1 & H1 & H2 & H3 & H4)];
      [now left | right].
    now exists logo1, qr1, w1, response. }
  destruct (logo_file request) as [f|] eqn:Hfile.
  2:{ apply (Hend None w temporary_none); [auto|].
      unfold upload, upload_body. now rewrite Hfile. }
  destruct (Py.truthy (filename f)) eqn:Hname.
  2:{ apply (Hend None w temporary_none); [auto|].
      unfold upload, upload_body. now rewrite Hfile, Hname. }
  destruct (negb (allowed_file (filename f))) eqn:Hallowed.
  { left. unfold upload, upload_body. rewrite Hfile, Hname, Hallowed.
    cbn. eauto. }
  apply (Hend (Some logo_path)
              (mkWorld (heap w) (<[logo_path := stream f]> (files w))
                       (trace w ++ [EvFileWrite logo_path (stream f)]))
              temporary_logo).
  - intros p Hp. cbn [files]. apply lookup_insert_ne. intros <-.
    apply (processed_not_uploads logo_path Hp). now exists "temp_logo.png".
  - unfold upload, upload_body. now rewrite Hfile, Hname, Hallowed.
Qed.

(** X21. The files [upload] reports are there.  When [upload] answers
    with a list of names, the list is not empty, its names differ from
    one another, none of them was a file of the processed folder before
    the request, so that nothing was overwritten, and each of them is a
    file of the processed folder after it. *)
Theorem upload_outputs_stored (request : UploadRequest) (w : World)
    (names : list string) :
  fst (upload request w) = Success names ->
  names <> [] /\ NoDup names
  /\ forall n, n ∈ names ->
       files w !! os_path_join PROCESSED_FOLDER n = None
       /\ is_Some (files (snd (upload request w))
                   !! os_path_join PROCESSED_FOLDER n).
Proof.
  intros Hnames.
  destruct (upload_cases request w)
    as [(message & status & Herr)
       | (logo & qr_code & w0 & response & Hl & Hq & Hsame & Hrun & Hresp)].
  - rewrite Herr in Hnames. discriminate.
  - rewrite Hresp in Hnames. subst response.
    destruct (upload_photos_outputs request logo qr_code _ _ w0 _ names
                Hl Hq Hrun) as (Hne & Hnodup & Hout).
    split; [exact Hne|]. split; [exact Hnodup|].
    intros n Hn. destruct (Hout n Hn) as [Hfree Hthere].
    split; [|exact Hthere]. rewrite <- Hsame; [exact Hfree | now exists n].
Qed.

End ReportedOutputs.

Section ReportedOutputsWitness.
#[local] Existing Instance Demo.collaborators.

Lemma upload_outputs_stored_witness :
  NoDup ["x.jpg"; "x_1.jpg"]
  /\ is_Some (files (snd (upload Demo.twin_upload Demo.empty_world))
              !! os_path_join PROCESSED_FOLDER "x_1.jpg").
Proof.
  destruct (upload_outputs_stored Demo.twin_upload Demo.empty_world
              ["x.jpg"; "x_1.jpg"] upload_names_suffixed)
    as (_ & Hnodup & Hout).
  split; [exact Hnodup|]. apply Hout. right. left.
Defined.

End ReportedOutputsWitness.

(* ===================================================================== *)
(** * The cleaned link *)
(* ===================================================================== *)

Lemma split_head_no_sep (c : ascii) (s : string) :
  Py.has_char c (Py.split_head c s) = false.
Proof.
  induction s as [|a s IH]; [reflexivity|]. cbn [Py.split_head].
  destruct (Ascii.eqb a c) eqn:Hac; [reflexivity|].
  cbn [Py.has_char]. now rewrite Hac, IH.
Qed.

Lemma split_head_prefix (c : ascii) (s : string) :
  exists rest, s = Py.split_head c s +:+ rest.
Proof.
  induction s as [|a s [rest IH]]; [now exists ""|]. cbn [Py.split_head].
  destruct (Ascii.eqb a c).
  - now exists (String a s).
  - exists rest.
    change (String a s = String a (Py.split_head c s +:+ rest)).
    now rewrite <- IH.
Qed.

(** X22. Cleaning a QR link is a projection.  The cleaned link is a
    prefix of the link; cleaning it again changes nothing; and the
    cleaned link of a link that has one of the maps patterns has no
    question mark left. *)
Theorem clean_qr_url_idempotent (qr_url : string) :
  clean_qr_url (clean_qr_url qr_url) = clean_qr_url qr_url
  /\ (exists rest, qr_url = clean_qr_url qr_url +:+ rest)
  /\ (Py.any_in maps_domains qr_url = true ->
      Py.has_char "?" (clean_qr_url qr_url) = false).
Proof.
  unfold clean_qr_url.
  destruct (Py.any_in maps_domains qr_url) eqn:Hmaps; cbn [andb].
  - destruct (Py.has_char "?" qr_url) eqn:Hq.
    + rewrite split_head_no_sep, andb_false_r.
      split; [reflexivity|]. split; [apply split_head_prefix|].
      intros _. reflexivity.
    + rewrite Hmaps, Hq. cbn [andb]. split; [reflexivity|].
      split; [|intros _; reflexivity].
      exists "". clear. induction qr_url as [|a s IH]; [reflexivity|].
      change (String a s = String a (s +:+ "")). now rewrite <- IH.
  - rewrite Hmaps. cbn [andb]. split; [reflexivity|].
    split; [|discriminate].
    exists "". clear. induction qr_url as [|a s IH]; [reflexivity|].
    change (String a s = String a (s +:+ "")). now rewrite <- IH.
Qed.

Lemma clean_qr_url_idempotent_witness :
  Py.has_char "?" (clean_qr_url "https://maps.app.goo.gl/abc?g_st=ic") = false.
Proof.
  exact (proj2 (proj2 (clean_qr_url_idempotent
                         "https://maps.app.goo.gl/abc?g_st=ic")) eq_refl).
Defined.

(* ===================================================================== *)
(** * A photo named like the temporary logo *)
(* ===================================================================== *)

Section PhotoOverLogo.
Context `{Collaborators}.

(** X23. A photo whose cleaned name is [temp_logo.png] takes the place of
    the logo.  [upload] saves the photo over the temporary file of the
    logo, so the logo pasted on this photo is the photo itself; and when
    the round produces its output it removes the photo's copy, which is
    the logo file: the photos after it get no logo. *)
Theorem photo_named_like_logo (qr_code : option string) (pn pc : string)
    (names : list string) (i : nat) (photo : FileStorage)
    (processed_files output_filenames : list string) (w : World) :
  secure_filename (filename photo) = "temp_logo.png" ->
  let r := upload_loop (Some logo_path) qr_code pn pc names i [photo]
                       processed_files output_filenames w in
  let saved := <[upload_path photo := stream photo]> (files w) in
  stored_overlay saved (Some logo_path) = image_open false (stream photo)
  /\ folder_canvas saved (Some logo_path) qr_code pn pc photo
     = (im ← image_open true (stream photo);
        canvas_of folder_caption (image_open false (stream photo))
                  (stored_overlay saved qr_code) pn pc im)
  /\ (forall output_path output_name,
        fst r = Ok (processed_files ++ [output_path],
                    output_filenames ++ [output_name]) ->
        files (snd r) !! logo_path = None
        /\ stored_overlay (files (snd r)) (Some logo_path) = None).
Proof.
  intros Hname r saved.
  assert (upload_path photo = logo_path) as Hpath
    by (unfold upload_path, logo_path; now rewrite Hname).
  assert (stored_overlay saved (Some logo_path)
          = image_open false (stream photo)) as Hlogo.
  { unfold stored_overlay, saved. cbn [mbind option_bind]. rewrite Hpath.
    now rewrite lookup_insert_eq. }
  split; [exact Hlogo|]. split; [unfold folder_canvas; now rewrite Hlogo|].
  intros output_path output_name. unfold r. rewrite upload_round.
  destruct (upload_photo (Some logo_path) qr_code pn pc names i photo w)
    as [[[[op on] fp]|e] w1] eqn:Hrun; cbn [fst snd].
  - intros _. apply upload_photo_returns in Hrun as (-> & _ & Hcopy & _).
    rewrite Hpath in *. unfold try_except, os_remove. rewrite Hcopy.
    cbn [snd files]. unfold stored_overlay. cbn [mbind option_bind].
    rewrite lookup_delete_eq. now split.
  - intros [= Hfiles _]. apply (f_equal length) in Hfiles.
    rewrite length_app in Hfiles. cbn in Hfiles. lia.
Qed.

End PhotoOverLogo.

Section PhotoOverLogoWitness.
#[local] Existing Instance Demo.collaborators.

Lemma photo_named_like_logo_witness :
  let photo := {| filename := "temp logo.png"; stream := "photo-1000x800" |} in
  stored_overlay (<[upload_path photo := stream photo]> ∅) (Some logo_path)
  = Some (Demo.plain 1000 800 (PIL.RGBA 10 20 30 255)).
Proof.
  intros photo.
  exact (proj1 (photo_named_like_logo None "" "" [] 0%nat photo [] []
                  Demo.empty_world eq_refl)).
Defined.

End PhotoOverLogoWitness.
